(** * Local orchestration accounts: the watcher chains of
      [local-chain-facade.js], its account kit and the send contract.

    The account kit and the chain facade are exo class kits whose methods
    issue calls to collaborators (the localchain account, the timer, the
    chain hub, agoricNames) and chain the replies through named watchers.
    The development embeds

    - the passable data the watchers receive and the patterns that guard
      their methods ([JsVal], [Pattern], [matches]);
    - vows as expressions over pending calls, with [watch], [allVows] and
      [asVow] ([Vow], [reduce]);
    - an event loop in which the environment delivers replies, the timer
      advances and turns run the watchers ([step], [Run], [Reach]);
    - the two kits themselves ([Module LocalOrchAccount],
      [Module LocalChainFacade]) and the [SingleAmountRecord] pattern. *)

From Stdlib Require Import ZArith List String Ascii Bool Lia DecimalString.
From Stdlib Require Import DecimalZ.
Import ListNotations.

Set Implicit Arguments.
Set Warnings "-register-all".
Local Open Scope list_scope.

(* ================================================================== *)
(** ** Passable data *)

(** The data that crosses the bridge: primitives, copyArrays, copyRecords
    and remotables.  Numbers take part in no arithmetic here; they are
    kept as integers. *)
Inductive JsVal : Type :=
| VUndefined
| VNull
| VBool (b : bool)
| VNumber (n : Z)
| VBigInt (z : Z)
| VString (s : string)
| VArray (xs : list JsVal)
| VRecord (fs : list (string * JsVal))
| VRemotable (tag : string).

(** What a thrown or rejected error is.  [Error m] is [Error(m)] and
    [Fail`m`]; [GuardError facet method] is the error an exo raises when
    the arguments (or the result) of [method] on [facet] do not match
    its interface guard, which happens before (after) the method body
    runs. *)
Inductive JsError : Type :=
| Error (message : string)
| TypeError
| SyntaxError
| GuardError (facet method : string).

(** A settled promise or vow. *)
Inductive Outcome : Type :=
| Fulfilled (v : JsVal)
| Rejected (e : JsError).

(** A synchronous completion: a method returns or throws. *)
Inductive Completion (A : Type) : Type :=
| Normal (a : A)
| Throw (e : JsError).
Arguments Throw {A} e.

(** [fs[k]] on the properties of a record. *)
Fixpoint lookup {A : Type} (k : string) (fs : list (string * A)) : option A :=
  match fs with
  | [] => None
  | (k', v) :: fs' => if String.eqb k k' then Some v else lookup k fs'
  end.

(** [o.k]: [undefined] for an absent property, a TypeError on
    [undefined] and [null]. *)
Definition get_prop (o : JsVal) (k : string) : Completion JsVal :=
  match o with
  | VUndefined | VNull => Throw TypeError
  | VRecord fs => Normal (match lookup k fs with Some v => v | None => VUndefined end)
  | _ => Normal VUndefined
  end.

(** [xs[i]] on an array. *)
Definition get_index (o : JsVal) (i : nat) : Completion JsVal :=
  match o with
  | VUndefined | VNull => Throw TypeError
  | VArray xs => Normal (nth i xs VUndefined)
  | _ => Normal VUndefined
  end.

(** JavaScript truthiness, as [if (x)] and [x ? a : b] use it. *)
Definition truthy (v : JsVal) : bool :=
  match v with
  | VUndefined | VNull => false
  | VBool b => b
  | VNumber n => negb (n =? 0)%Z
  | VBigInt z => negb (z =? 0)%Z
  | VString s => negb (String.eqb s EmptyString)
  | VArray _ | VRecord _ | VRemotable _ => true
  end.

(** [String(z)] on a bigint: its decimal digits. *)
Definition String_of_bigint (z : Z) : string :=
  NilZero.string_of_int (Z.to_int z).

(* ================================================================== *)
(** ** Patterns *)

(** The patterns of [@endo/patterns] that the source writes.  An array
    or record literal used as a pattern ([PArr], [PRec]) matches a
    specimen of the same length (the same property names) whose members
    match.  [MRecordOf] carries the [numPropertiesLimit] the source
    passes; the library's default size limits, which the source leaves
    untouched, are outside this model.  [MSplitRecord] lists the required
    properties; further properties are allowed. *)
Inductive Pattern : Type :=
| MAny
| MUndefined
| MBoolean
| MNumber
| MBigInt
| MNat
| MString
| MRemotable
| MRecord
| MArrayOf (p : Pattern)
| MRecordOf (keyPatt valuePatt : Pattern) (numPropertiesLimit : nat)
| MSplitRecord (required : list (string * Pattern))
| MAnd (p q : Pattern)
| MOr (p q : Pattern)
| MNot (p : Pattern)
| PArr (ps : list Pattern)
| PRec (fps : list (string * Pattern)).

Fixpoint matches (p : Pattern) (v : JsVal) {struct p} : bool :=
  match p with
  | MAny => true
  | MUndefined => match v with VUndefined => true | _ => false end
  | MBoolean => match v with VBool _ => true | _ => false end
  | MNumber => match v with VNumber _ => true | _ => false end
  | MBigInt => match v with VBigInt _ => true | _ => false end
  | MNat => match v with VBigInt z => (0 <=? z)%Z | _ => false end
  | MString => match v with VString _ => true | _ => false end
  | MRemotable => match v with VRemotable _ => true | _ => false end
  | MRecord => match v with VRecord _ => true | _ => false end
  | MArrayOf q =>
      match v with
      | VArray xs => forallb (matches q) xs
      | _ => false
      end
  | MRecordOf kp vp limit =>
      match v with
      | VRecord fs =>
          (List.length fs <=? limit)%nat
          && forallb (fun kv => matches kp (VString (fst kv)) && matches vp (snd kv)) fs
      | _ => false
      end
  | MSplitRecord required =>
      match v with
      | VRecord fs =>
          (fix all_required (rs : list (string * Pattern)) : bool :=
             match rs with
             | [] => true
             | (k, q) :: rs' =>
                 match lookup k fs with
                 | Some x => matches q x
                 | None => false
                 end && all_required rs'
             end) required
      | _ => false
      end
  | MAnd p1 p2 => matches p1 v && matches p2 v
  | MOr p1 p2 => matches p1 v || matches p2 v
  | MNot q => negb (matches q v)
  | PArr ps =>
      match v with
      | VArray xs =>
          (fix elementwise (ps : list Pattern) (xs : list JsVal) : bool :=
             match ps, xs with
             | [], [] => true
             | q :: ps', x :: xs' => matches q x && elementwise ps' xs'
             | _, _ => false
             end) ps xs
      | _ => false
      end
  | PRec fps =>
      match v with
      | VRecord fs =>
          (List.length fs =? List.length fps)%nat
          && (fix fieldwise (fps : list (string * Pattern)) : bool :=
                match fps with
                | [] => true
                | (k, q) :: fps' =>
                    match lookup k fs with
                    | Some x => matches q x
                    | None => false
                    end && fieldwise fps'
                end) fps
      | _ => false
      end
  end.

(* ================================================================== *)
(** ** Chain data *)

(** [ChainAddress]: [{ value, encoding, chainId }]. *)
Module ChainAddress.
Record t : Type := make { value : string; encoding : string; chainId : string }.
End ChainAddress.

(** [Coin]: [{ denom, amount }], the amount in decimal digits. *)
Module Coin.
Record t : Type := make { denom : string; amount : string }.
End Coin.

(** An ERTP [Amount<'nat'>]: [{ brand, value }]. *)
Module Amount.
Record t : Type := make { brand : string; value : Z }.
End Amount.

(** [DenomAmount]: [{ denom, value }]. *)
Module DenomAmount.
Record t : Type := make { denom : string; value : Z }.
End DenomAmount.

(** [AmountArg]: an ERTP [Amount] or a [DenomAmount].  ['denom' in a]
    holds of the second and ['brand' in a] of the first. *)
Inductive AmountArg : Type :=
| ErtpAmount (a : Amount.t)
| DenomAmountArg (d : DenomAmount.t).

Definition has_denom (a : AmountArg) : bool :=
  match a with DenomAmountArg _ => true | ErtpAmount _ => false end.

Definition has_brand (a : AmountArg) : bool :=
  match a with ErtpAmount _ => true | DenomAmountArg _ => false end.

(** The [timeoutHeight] of a transfer. *)
Module Height.
Record t : Type := make { revisionHeight : Z; revisionNumber : Z }.
End Height.

(** [IBCMsgTransferOptions]: every property is optional. *)
Module TransferOpts.
Record t : Type := make {
  timeoutHeight : option Height.t;
  timeoutTimestamp : option Z;
  memo : option string }.
End TransferOpts.

(** The messages the kit builds with [typedJson(typeUrl, fields)], and
    whatever records a caller hands to [executeTx]. *)
Inductive Msg : Type :=
| MsgDelegate (amount : Coin.t) (validatorAddress delegatorAddress : string)
| MsgUndelegate (amount : Coin.t) (validatorAddress delegatorAddress : string)
| MsgSend (amount : list Coin.t) (toAddress fromAddress : string)
| MsgTransfer (sourcePort sourceChannel : JsVal) (token : Coin.t)
    (sender receiver : string) (timeoutHeight : Height.t)
    (timeoutTimestamp : JsVal) (memo : string)
| OtherMsg (fields : JsVal).

Definition type_url (m : Msg) : Completion JsVal :=
  match m with
  | MsgDelegate _ _ _ => Normal (VString "/cosmos.staking.v1beta1.MsgDelegate")
  | MsgUndelegate _ _ _ => Normal (VString "/cosmos.staking.v1beta1.MsgUndelegate")
  | MsgSend _ _ _ => Normal (VString "/cosmos.bank.v1beta1.MsgSend")
  | MsgTransfer _ _ _ _ _ _ _ _ => Normal (VString "/ibc.applications.transfer.v1.MsgTransfer")
  | OtherMsg fields => get_prop fields "@type"
  end.

(** The typed data as the passable values that an interface guard sees:
    an amount is [{ brand, value }] with a remotable brand and a bigint
    value, a message built by [typedJson(typeUrl, fields)] is the record
    [{ '@type': typeUrl, ...fields }]. *)
Definition amount_val (a : Amount.t) : JsVal :=
  VRecord [("brand"%string, VRemotable (Amount.brand a));
           ("value"%string, VBigInt (Amount.value a))].

Definition coin_val (c : Coin.t) : JsVal :=
  VRecord [("denom"%string, VString (Coin.denom c));
           ("amount"%string, VString (Coin.amount c))].

Definition height_val (h : Height.t) : JsVal :=
  VRecord [("revisionHeight"%string, VBigInt (Height.revisionHeight h));
           ("revisionNumber"%string, VBigInt (Height.revisionNumber h))].

Definition msg_val (m : Msg) : JsVal :=
  match m with
  | MsgDelegate amount validatorAddress delegatorAddress =>
      VRecord [("@type"%string, VString "/cosmos.staking.v1beta1.MsgDelegate");
               ("amount"%string, coin_val amount);
               ("validatorAddress"%string, VString validatorAddress);
               ("delegatorAddress"%string, VString delegatorAddress)]
  | MsgUndelegate amount validatorAddress delegatorAddress =>
      VRecord [("@type"%string, VString "/cosmos.staking.v1beta1.MsgUndelegate");
               ("amount"%string, coin_val amount);
               ("validatorAddress"%string, VString validatorAddress);
               ("delegatorAddress"%string, VString delegatorAddress)]
  | MsgSend amount toAddress fromAddress =>
      VRecord [("@type"%string, VString "/cosmos.bank.v1beta1.MsgSend");
               ("amount"%string, VArray (map coin_val amount));
               ("toAddress"%string, VString toAddress);
               ("fromAddress"%string, VString fromAddress)]
  | MsgTransfer sourcePort sourceChannel token sender receiver timeoutHeight
                timeoutTimestamp memo =>
      VRecord [("@type"%string, VString "/ibc.applications.transfer.v1.MsgTransfer");
               ("sourcePort"%string, sourcePort);
               ("sourceChannel"%string, sourceChannel);
               ("token"%string, coin_val token);
               ("sender"%string, VString sender);
               ("receiver"%string, VString receiver);
               ("timeoutHeight"%string, height_val timeoutHeight);
               ("timeoutTimestamp"%string, timeoutTimestamp);
               ("memo"%string, VString memo)]
  | OtherMsg fields => fields
  end.

(** [makeIBCTransferSender(holder, transferMsg)]: the packet sender that
    wraps a transfer message. *)
Inductive PacketSender : Type :=
| IBCTransferSender (transferMsg : Msg).

(** A packet sender is an exo, a remotable. *)
Definition sender_val (s : PacketSender) : JsVal := VRemotable "PacketSender".

(** The calls the two kits make on their collaborators.  Each returns a
    promise; the reply arrives in a later turn. *)
Inductive Call : Type :=
| CExecuteTx (account : string) (messages : list Msg)
| CDeposit (account : string) (payment : JsVal)
| CWithdraw (account : string) (amount : JsVal)
| CGetBalance (account : string) (brand : JsVal)
| CWakeAt (t : Z)
| CGetConnectionInfo (srcChainId dstChainId : string)
| CGetTimeoutTimestampNS
| CSendThenWaitForAck (packetTools : string) (sender : PacketSender) (opts : JsVal)
| CMatchFirstPacket (packetTools : string) (patternV : JsVal)
| CMonitorTransfers (packetTools : string) (tap : JsVal)
| CRecorderWrite (topicKit : string) (value : string)
| CLookup (nameHub : string) (name : string)
| CValues (target : nat).

(* ================================================================== *)
(** ** Methods: state, issued calls and exceptions *)

(** What a method can touch: the durable state of its kit and the calls
    issued so far, each with its reply once that has arrived.  A call is
    named by its position in [outbox]. *)
Record Heap (S : Type) : Type := mkHeap {
  kit : S;
  outbox : list (Call * option Outcome) }.

Definition M (S A : Type) : Type := Heap S -> Completion A * Heap S.

Definition ret {S A} (a : A) : M S A := fun h => (Normal a, h).

Definition throw {S A} (e : JsError) : M S A := fun h => (Throw e, h).

Definition bind {S A B} (m : M S A) (k : A -> M S B) : M S B :=
  fun h =>
    match m h with
    | (Normal a, h') => k a h'
    | (Throw e, h') => (Throw e, h')
    end.

Notation "x <- m ;; k" := (bind m (fun x => k))
  (at level 61, m at next level, right associativity).

Definition get_state {S} : M S S := fun h => (Normal (kit h), h).

Definition put_state {S} (s : S) : M S unit :=
  fun h => (Normal tt, mkHeap s (outbox h)).

(** A completion of a pure expression, inside a method. *)
Definition lift {S A} (c : Completion A) : M S A := fun h => (c, h).

(** [Fail`msg`]. *)
Definition Fail {S A} (msg : string) : M S A := throw (Error msg).

(** [xs.map(f)] where [f] may throw: left to right, stopping at the first
    exception. *)
Fixpoint mapM {S A B} (f : A -> M S B) (xs : list A) : M S (list B) :=
  match xs with
  | [] => ret []
  | x :: xs' => y <- f x ;; ys <- mapM f xs' ;; ret (y :: ys)
  end.

(* ================================================================== *)
(** ** Vows *)

(** A vow is the promise of a call, the [watch] of a vow by a watcher
    (with the context it was registered with) or by none, [allVows] of
    several, or already settled.  [W] is the kit's watchers. *)
Inductive Vow (W : Type) : Type :=
| VNow (o : Outcome)
| VPromise (c : nat)
| VWatch (v : Vow W) (w : option W)
| VAll (vs : list (Vow W)).
Arguments VNow {W} o.
Arguments VPromise {W} c.

(** [E(target).method(args)]: the call is queued and its promise returned. *)
Definition send_call {S W} (c : Call) : M S (Vow W) :=
  fun h => (Normal (VPromise (List.length (outbox h))),
            mkHeap (kit h) (outbox h ++ [(c, None)])).

(** [E(p).method(args)] on the promise [p] of an earlier call: the call
    is queued behind that promise. *)
Definition send_call_on {S W} (p : Vow W) (c : nat -> Call) : M S (Vow W) :=
  match p with
  | VPromise target => send_call (c target)
  | _ => throw TypeError
  end.

(** [watch(v, watcher, ctx)] and [watch(v)]. *)
Definition watch {S W} (v : Vow W) (w : W) : M S (Vow W) := ret (VWatch v (Some w)).
Definition watch_ {S W} (v : Vow W) : M S (Vow W) := ret (VWatch v None).

(** [allVows(vs)]. *)
Definition allVows {S W} (vs : list (Vow W)) : M S (Vow W) := ret (VAll vs).

(** [asVow(fn)]: the vow [fn] returns, or one rejected with what it throws. *)
Definition asVow {S W} (fn : M S (Vow W)) : M S (Vow W) :=
  fun h =>
    match fn h with
    | (Normal v, h') => (Normal v, h')
    | (Throw e, h') => (Normal (VNow (Rejected e)), h')
    end.

(** A plain value where a vow is expected. *)
Definition value {W} (x : JsVal) : Vow W := VNow (Fulfilled x).

(** An exo method behind its interface guard: the argument is matched
    before the body runs. *)
Definition guarded {S A} (facet method : string) (p : Pattern) (x : JsVal)
    (body : M S A) : M S A :=
  if matches p x then body else throw (GuardError facet method).

(* ================================================================== *)
(** ** The event loop *)

Section Runtime.

(** A kit: its durable state [S], its watchers [W] with their guarded
    [onFulfilled] methods, and the methods [Op] a caller can invoke. *)
Variables S W Op : Type.
Variable onFulfilled : W -> JsVal -> M S (Vow W).
Variable run_op : Op -> M S (Vow W).

(** What the collaborators may reply to a call at a given time. *)
Variable env : Z -> Call -> Outcome -> Prop.

(** A watched vow has settled: a rejection passes through (no watcher
    here has an [onRejected]); a fulfilment goes to [onFulfilled], and
    the watching vow takes up what that returns or rejects with what it
    throws. *)
Definition fire (w : option W) (o : Outcome) (h : Heap S) : Vow W * Heap S :=
  match o, w with
  | Rejected e, _ => (VNow (Rejected e), h)
  | Fulfilled x, None => (VNow (Fulfilled x), h)
  | Fulfilled x, Some w' =>
      match onFulfilled w' x h with
      | (Normal v, h') => (v, h')
      | (Throw e, h') => (VNow (Rejected e), h')
      end
  end.

(** [allVows] fails fast: the leftmost input found rejected. *)
Fixpoint first_rejected (vs : list (Vow W)) : option JsError :=
  match vs with
  | [] => None
  | VNow (Rejected e) :: _ => Some e
  | _ :: vs' => first_rejected vs'
  end.

(** The values of the inputs, in input order, once all are fulfilled. *)
Fixpoint all_fulfilled (vs : list (Vow W)) : option (list JsVal) :=
  match vs with
  | [] => Some []
  | VNow (Fulfilled x) :: vs' =>
      match all_fulfilled vs' with
      | Some xs => Some (x :: xs)
      | None => None
      end
  | _ :: _ => None
  end.

(** One turn of a vow: a promise takes the reply that has arrived; a
    watcher runs on a vow that was settled before this turn began; the
    rest waits. *)
Fixpoint reduce (v : Vow W) (h : Heap S) {struct v} : Vow W * Heap S :=
  match v with
  | VNow o => (VNow o, h)
  | VPromise c =>
      match nth_error (outbox h) c with
      | Some (_, Some o) => (VNow o, h)
      | _ => (VPromise c, h)
      end
  | VWatch (VNow o) w => fire w o h
  | VWatch v' w => let (v'', h') := reduce v' h in (VWatch v'' w, h')
  | VAll vs =>
      match first_rejected vs with
      | Some e => (VNow (Rejected e), h)
      | None =>
          match all_fulfilled vs with
          | Some xs => (VNow (Fulfilled (VArray xs)), h)
          | None =>
              let (vs', h') :=
                (fix each (vs : list (Vow W)) (h : Heap S) : list (Vow W) * Heap S :=
                   match vs with
                   | [] => ([], h)
                   | v1 :: vs1 =>
                       let (v1', h1) := reduce v1 h in
                       let (vs1', h2) := each vs1 h1 in
                       (v1' :: vs1', h2)
                   end) vs h in
              (VAll vs', h')
          end
      end
  end.

Fixpoint reduce_all (vs : list (Vow W)) (h : Heap S) : list (Vow W) * Heap S :=
  match vs with
  | [] => ([], h)
  | v1 :: vs1 =>
      let (v1', h1) := reduce v1 h in
      let (vs1', h2) := reduce_all vs1 h1 in
      (v1' :: vs1', h2)
  end.

(** The vows handed to callers so far, the heap and the timer's clock. *)
Record Cfg : Type := mkCfg {
  heap : Heap S;
  tasks : list (Vow W);
  now : Z }.

Definition turn (c : Cfg) : Cfg :=
  let (ts, h) := reduce_all (tasks c) (heap c) in mkCfg h ts (now c).

Fixpoint set_reply (c : nat) (o : Outcome) (ob : list (Call * option Outcome))
  : list (Call * option Outcome) :=
  match ob, c with
  | [], _ => []
  | (call, _) :: ob', O => (call, Some o) :: ob'
  | e :: ob', Datatypes.S c' => e :: set_reply c' o ob'
  end.

Definition deliver (c : nat) (o : Outcome) (cfg : Cfg) : Cfg :=
  mkCfg (mkHeap (kit (heap cfg)) (set_reply c o (outbox (heap cfg))))
        (tasks cfg) (now cfg).

Definition advance (t : Z) (cfg : Cfg) : Cfg :=
  mkCfg (heap cfg) (tasks cfg) t.

(** A caller invokes a method: the vow it returns joins the tasks; a
    method that throws hands no vow back. *)
Definition invoke (op : Op) (cfg : Cfg) : Cfg :=
  match run_op op (heap cfg) with
  | (Normal v, h') => mkCfg h' (tasks cfg ++ [v]) (now cfg)
  | (Throw _, h') => mkCfg h' (tasks cfg) (now cfg)
  end.

(** A method invoked on a kit in state [st] at time [t], nothing else
    going on. *)
Definition start (st : S) (t : Z) (m : M S (Vow W)) : Cfg :=
  match m (mkHeap st []) with
  | (Normal v, h') => mkCfg h' [v] t
  | (Throw _, h') => mkCfg h' [] t
  end.

Inductive Event : Type :=
| Invoke (op : Op)
| Deliver (c : nat) (o : Outcome)
| AdvanceTo (t : Z)
| Turn.

(** The steps of the system.  A reply is delivered once, to a pending
    call, and is one the environment allows now; the clock never runs
    backwards. *)
Inductive step : Cfg -> Event -> Cfg -> Prop :=
| step_invoke cfg op :
    step cfg (Invoke op) (invoke op cfg)
| step_deliver cfg c call o :
    nth_error (outbox (heap cfg)) c = Some (call, None) ->
    env (now cfg) call o ->
    step cfg (Deliver c o) (deliver c o cfg)
| step_advance cfg t :
    (now cfg <= t)%Z ->
    step cfg (AdvanceTo t) (advance t cfg)
| step_turn cfg :
    step cfg Turn (turn cfg).

Definition is_invoke (ev : Event) : Prop :=
  match ev with Invoke _ => True | _ => False end.

(** [Reach c0 c]: the kit in use, callers invoking methods at will. *)
Inductive Reach (c0 : Cfg) : Cfg -> Prop :=
| reach_refl : Reach c0 c0
| reach_step c c' ev : Reach c0 c -> step c ev c' -> Reach c0 c'.

(** [Run c0 c]: the calls already made run their course, no further
    method being invoked. *)
Inductive Run (c0 : Cfg) : Cfg -> Prop :=
| run_refl : Run c0 c0
| run_step c c' ev : Run c0 c -> ~ is_invoke ev -> step c ev c' -> Run c0 c'.

(** The outcome of the (only) task, once it has settled. *)
Definition settled (c : Cfg) : option Outcome :=
  match tasks c with
  | [VNow o] => Some o
  | _ => None
  end.

(** The calls issued so far, without their replies. *)
Definition calls (c : Cfg) : list Call := map fst (outbox (heap c)).

End Runtime.

(* ================================================================== *)
(** ** What the source imports *)

(** Constants and built-ins the source uses and does not define:
    [maxClockSkew] (utils/cosmos.js), the shapes of typeGuards.js and of
    ERTP that occur in the guards of the holder and of the watchers, the
    built-in [BigInt] conversion, and the text that [Fail] puts into a
    message for a substituted value. *)
Class Imports : Type := {
  maxClockSkew : Z;
  TimestampProtoShape : Pattern;
  AmountShape : Pattern;
  PaymentShape : Pattern;
  DenomAmountShape : Pattern;
  BigInt : JsVal -> Completion Z;
  redacted : JsVal -> string }.

(** Modelled from the spec: the connection directory, chain-hub.js, which
    is not among the sources.  [getConnectionInfo(src, dst)] gives the
    registered connection and otherwise rejects with
    "connection not found: <src><-><dst>". *)
Module ChainHub.
Definition t : Type := list (string * string * JsVal).

Fixpoint find (hub : t) (src dst : string) : option JsVal :=
  match hub with
  | [] => None
  | (s, d, info) :: hub' =>
      if String.eqb s src && String.eqb d dst then Some info
      else find hub' src dst
  end.

Definition not_found (src dst : string) : string :=
  ("connection not found: " ++ src ++ "<->" ++ dst)%string.

Definition getConnectionInfo (hub : t) (src dst : string) : Outcome :=
  match find hub src dst with
  | Some info => Fulfilled info
  | None => Rejected (Error (not_found src dst))
  end.
End ChainHub.

(** Modelled from the spec: the timestamp helper of utils/time.js, which
    is not among the sources.  Called without argument it gives the
    default timeout, five minutes from now, in nanoseconds. *)
Module TimestampHelper.
Definition NANOSECONDS_PER_SECOND : Z := 1000000000.
Definition SECONDS_PER_MINUTE : Z := 60.

Definition getTimeoutTimestampNS (now : Z) : Z :=
  ((now + SECONDS_PER_MINUTE * 5) * NANOSECONDS_PER_SECOND)%Z.
End TimestampHelper.

(** Modelled from the spec: what the collaborators reply.  The timer
    answers [wakeAt(t)] once its clock has reached [t], and never with
    a rejection; the connection directory and the timestamp helper answer
    as above; the bridge may answer anything. *)
Definition collaborators (hub : ChainHub.t) (now : Z) (c : Call) (o : Outcome) : Prop :=
  match c with
  | CWakeAt t => (t <= now)%Z /\ exists v, o = Fulfilled v
  | CGetConnectionInfo src dst => o = ChainHub.getConnectionInfo hub src dst
  | CGetTimeoutTimestampNS =>
      o = Fulfilled (VBigInt (TimestampHelper.getTimeoutTimestampNS now))
  | _ => True
  end.

(* ================================================================== *)
(** ** The local orchestration account kit *)

Module LocalOrchAccount.

(** The durable state of a kit: the handles of its localchain account,
    topic kit and packet tools, and its address. *)
Record State : Type := mkState {
  account : string;
  address : ChainAddress.t;
  topicKit : string;
  packetTools : string }.

(** The context [transfer] registers with [transferWatcher]. *)
Record TransferCtx : Type := mkTransferCtx {
  destination : ChainAddress.t;
  opts : option TransferOpts.t;
  amount : DenomAmount.t }.

(** The watcher facets, each with the context it is registered with. *)
Inductive Watcher : Type :=
| undelegateWatcher
| transferWatcher (ctx : TransferCtx)
| extractFirstResultWatcher
| returnVoidWatcher
| getBalanceWatcher (denom : string).

Definition V : Type := Vow Watcher.
Definition Method (A : Type) : Type := M State A.

(** The state initialiser: the topic kit is made for the storage node
    and written to once, the packet tools for the account. *)
Definition init (account : string) (address : ChainAddress.t)
    (storageNode : string) : Heap State :=
  let topicKit := storageNode in
  let packetTools := account in
  mkHeap (mkState account address topicKit packetTools)
         [(CRecorderWrite topicKit EmptyString, None)].

(** [opts?.timeoutTimestamp], [opts?.timeoutHeight], [opts?.memo]. *)
Definition opt_timeoutTimestamp (opts : option TransferOpts.t) : option Z :=
  match opts with Some o => TransferOpts.timeoutTimestamp o | None => None end.
Definition opt_timeoutHeight (opts : option TransferOpts.t) : option Height.t :=
  match opts with Some o => TransferOpts.timeoutHeight o | None => None end.
Definition opt_memo (opts : option TransferOpts.t) : option string :=
  match opts with Some o => TransferOpts.memo o | None => None end.

Section Facets.
Context {imports : Imports}.

(** *** helper *)

(** [amountToCoin] on an amount argument.  (The facet's own guard,
    [M.call(AmountArgShape)], is a shape of typeGuards.js; an amount
    argument here is one it has let through.) *)
Definition amountToCoin (amount : AmountArg) : Method Coin.t :=
  match amount with
  | ErtpAmount _ => Fail "Brands not currently supported."
  | DenomAmountArg d =>
      ret (Coin.make (DenomAmount.denom d)
                     (String_of_bigint (DenomAmount.value d)))
  end.

(** *** holder *)

Definition getBalance (denomArg : JsVal) : Method V :=
  let '(brand, denom) :=
    match denomArg with
    | VString d => (VNull, d)
    | _ => (denomArg, "FIXME"%string)
    end in
  st <- get_state ;;
  p <- send_call (CGetBalance (account st) brand) ;;
  watch p (getBalanceWatcher denom).

Definition getBalances : Method V :=
  asVow (Fail "not yet implemented").

Definition delegate (validatorAddress : string) (ertpAmount : Amount.t) : Method V :=
  let amount := Coin.make "ubld" (String_of_bigint (Amount.value ertpAmount)) in
  st <- get_state ;;
  p <- send_call (CExecuteTx (account st)
         [MsgDelegate amount validatorAddress (ChainAddress.value (address st))]) ;;
  watch p extractFirstResultWatcher.

Definition undelegate (validatorAddress : string) (ertpAmount : Amount.t) : Method V :=
  let amount := Coin.make "ubld" (String_of_bigint (Amount.value ertpAmount)) in
  st <- get_state ;;
  p <- send_call (CExecuteTx (account st)
         [MsgUndelegate amount validatorAddress (ChainAddress.value (address st))]) ;;
  watch p undelegateWatcher.

Definition deposit (payment : JsVal) : Method V :=
  st <- get_state ;;
  p <- send_call (CDeposit (account st) payment) ;;
  watch p returnVoidWatcher.

Definition withdraw (amount : JsVal) : Method V :=
  st <- get_state ;;
  p <- send_call (CWithdraw (account st) amount) ;;
  watch_ p.

Definition executeTx (messages : list Msg) : Method V :=
  st <- get_state ;;
  p <- send_call (CExecuteTx (account st) messages) ;;
  watch_ p.

Definition getAddress : Method ChainAddress.t :=
  st <- get_state ;;
  ret (address st).

Definition send (toAccount : ChainAddress.t) (amount : AmountArg) : Method V :=
  asVow (
    coin <- amountToCoin amount ;;
    st <- get_state ;;
    p <- send_call (CExecuteTx (account st)
           [MsgSend [coin] (ChainAddress.value toAccount)
                    (ChainAddress.value (address st))]) ;;
    watch p returnVoidWatcher).

Definition sendAll (toAccount : ChainAddress.t) (amounts : list AmountArg) : Method V :=
  asVow (
    coins <- mapM amountToCoin amounts ;;
    st <- get_state ;;
    p <- send_call (CExecuteTx (account st)
           [MsgSend coins (ChainAddress.value toAccount)
                    (ChainAddress.value (address st))]) ;;
    watch p returnVoidWatcher).

Definition transfer (amount : AmountArg) (destination : ChainAddress.t)
    (opts : option TransferOpts.t) : Method V :=
  asVow (
    match amount with
    | ErtpAmount _ => Fail "ERTP Amounts not yet supported"
    | DenomAmountArg d =>
        st <- get_state ;;
        p <- send_call (CGetConnectionInfo
               (ChainAddress.chainId (address st))
               (ChainAddress.chainId destination)) ;;
        connectionInfoV <- watch_ p ;;
        timeoutTimestampVowOrValue <-
          match opt_timeoutTimestamp opts with
          | Some ts => ret (value (VBigInt ts))
          | None =>
              match opt_timeoutHeight opts with
              | Some _ => ret (value (VBigInt 0))
              | None => send_call CGetTimeoutTimestampNS
              end
          end ;;
        both <- allVows [connectionInfoV; timeoutTimestampVowOrValue] ;;
        watch both (transferWatcher (mkTransferCtx destination opts d))
    end).

Definition transferSteps (amount : AmountArg) (msg : JsVal) : Method V :=
  asVow (Fail "not yet implemented").

Definition sendThenWaitForAck (sender : PacketSender) (opts : JsVal) : Method V :=
  st <- get_state ;;
  p <- send_call (CSendThenWaitForAck (packetTools st) sender opts) ;;
  watch_ p.

Definition matchFirstPacket (patternV : JsVal) : Method V :=
  st <- get_state ;;
  p <- send_call (CMatchFirstPacket (packetTools st) patternV) ;;
  watch_ p.

Definition monitorTransfers (tap : JsVal) : Method V :=
  st <- get_state ;;
  p <- send_call (CMonitorTransfers (packetTools st) tap) ;;
  watch_ p.

(** *** invitationMakers *)

Definition CloseAccount : Method V :=
  throw (Error "not yet implemented").

(** *** the watchers *)

Definition undelegateWatcher_onFulfilled (response : JsVal) : Method V :=
  guarded "undelegateWatcher" "onFulfilled"
    (PArr [MSplitRecord [("completionTime"%string, TimestampProtoShape)]])
    response (
      response0 <- lift (get_index response 0) ;;
      completionTime <- lift (get_prop response0 "completionTime") ;;
      seconds <- lift (get_prop completionTime "seconds") ;;
      secs <- lift (BigInt seconds) ;;
      p <- send_call (CWakeAt (secs + maxClockSkew)) ;;
      watch p returnVoidWatcher).

Definition transferWatcher_onFulfilled (results : JsVal) (ctx : TransferCtx)
  : Method V :=
  guarded "transferWatcher" "onFulfilled" (PArr [MRecord; MNat]) results (
    connectionInfo <- lift (get_index results 0) ;;
    timeoutTimestamp <- lift (get_index results 1) ;;
    transferChannel <- lift (get_prop connectionInfo "transferChannel") ;;
    portId <- lift (get_prop transferChannel "portId") ;;
    channelId <- lift (get_prop transferChannel "channelId") ;;
    st <- get_state ;;
    let transferMsg :=
      MsgTransfer portId channelId
        (Coin.make (DenomAmount.denom (amount ctx))
                   (String_of_bigint (DenomAmount.value (amount ctx))))
        (ChainAddress.value (address st))
        (ChainAddress.value (destination ctx))
        (match opt_timeoutHeight (opts ctx) with
         | Some h => h
         | None => Height.make 0 0
         end)
        timeoutTimestamp
        (match opt_memo (opts ctx) with
         | Some m => m
         | None => EmptyString
         end) in
    sendThenWaitForAck (IBCTransferSender transferMsg) VUndefined).

Definition extractFirstResultWatcher_onFulfilled (results : JsVal) : Method V :=
  guarded "extractFirstResultWatcher" "onFulfilled" (PArr [MRecord]) results (
    _ <- match results with
         | VArray [_] => ret tt
         | _ => Fail ("expected exactly one result; got " ++ redacted results)
         end ;;
    first <- lift (get_index results 0) ;;
    ret (value first)).

Definition returnVoidWatcher_onFulfilled (_ : JsVal) : Method V :=
  ret (value VUndefined).

Definition getBalanceWatcher_onFulfilled (natAmount : JsVal) (denom : string)
  : Method V :=
  guarded "getBalanceWatcher" "onFulfilled" AmountShape natAmount (
    v <- lift (get_prop natAmount "value") ;;
    let result := VRecord [("denom"%string, VString denom); ("value"%string, v)] in
    if matches DenomAmountShape result then ret (value result)
    else throw (GuardError "getBalanceWatcher" "onFulfilled")).

(** The watcher registry: a settled vow is handed to the facet it was
    watched with. *)
Definition onFulfilled (w : Watcher) (x : JsVal) : Method V :=
  match w with
  | undelegateWatcher => undelegateWatcher_onFulfilled x
  | transferWatcher ctx => transferWatcher_onFulfilled x ctx
  | extractFirstResultWatcher => extractFirstResultWatcher_onFulfilled x
  | returnVoidWatcher => returnVoidWatcher_onFulfilled x
  | getBalanceWatcher denom => getBalanceWatcher_onFulfilled x denom
  end.

(** The holder's methods that return a vow.  ([asContinuingOffer] and
    [getPublicTopics], async functions over the recorder's storage path
    and the invitation makers, are not part of this model.) *)
Inductive Op : Type :=
| OpGetBalance (denomArg : JsVal)
| OpGetBalances
| OpDelegate (validatorAddress : string) (ertpAmount : Amount.t)
| OpUndelegate (validatorAddress : string) (ertpAmount : Amount.t)
| OpDeposit (payment : JsVal)
| OpWithdraw (amount : JsVal)
| OpExecuteTx (messages : list Msg)
| OpSend (toAccount : ChainAddress.t) (amount : AmountArg)
| OpSendAll (toAccount : ChainAddress.t) (amounts : list AmountArg)
| OpTransfer (amount : AmountArg) (destination : ChainAddress.t)
    (opts : option TransferOpts.t)
| OpTransferSteps (amount : AmountArg) (msg : JsVal)
| OpSendThenWaitForAck (sender : PacketSender) (opts : JsVal)
| OpMatchFirstPacket (patternV : JsVal)
| OpMonitorTransfers (tap : JsVal).

Definition method_name (op : Op) : string :=
  match op with
  | OpGetBalance _ => "getBalance"
  | OpGetBalances => "getBalances"
  | OpDelegate _ _ => "delegate"
  | OpUndelegate _ _ => "undelegate"
  | OpDeposit _ => "deposit"
  | OpWithdraw _ => "withdraw"
  | OpExecuteTx _ => "executeTx"
  | OpSend _ _ => "send"
  | OpSendAll _ _ => "sendAll"
  | OpTransfer _ _ _ => "transfer"
  | OpTransferSteps _ _ => "transferSteps"
  | OpSendThenWaitForAck _ _ => "sendThenWaitForAck"
  | OpMatchFirstPacket _ => "matchFirstPacket"
  | OpMonitorTransfers _ => "monitorTransfers"
  end%string.

(** [HolderI], the interface guard of the holder, on the arguments of a
    call: the [M.call(...)] patterns it declares against the argument
    list.  The guards of [getBalance], [getBalances], [send], [sendAll],
    [transfer] and [transferSteps] are spread in from
    [orchestrationAccountMethods] (utils/orchestrationAccount.js), which
    is not among the sources: here those methods are the methods past
    their guards. *)
Definition HolderI (op : Op) : bool :=
  match op with
  | OpDelegate validatorAddress ertpAmount =>
      matches (PArr [MString; AmountShape])
              (VArray [VString validatorAddress; amount_val ertpAmount])
  | OpUndelegate validatorAddress ertpAmount =>
      matches (PArr [MString; AmountShape])
              (VArray [VString validatorAddress; amount_val ertpAmount])
  | OpDeposit payment => matches (PArr [PaymentShape]) (VArray [payment])
  | OpWithdraw amount => matches (PArr [AmountShape]) (VArray [amount])
  | OpExecuteTx messages =>
      matches (PArr [MArrayOf MRecord]) (VArray [VArray (map msg_val messages)])
  | OpSendThenWaitForAck sender opts =>
      matches (PArr [MRemotable; MAny]) (VArray [sender_val sender; opts])
  | OpMatchFirstPacket patternV => matches (PArr [MAny]) (VArray [patternV])
  | OpMonitorTransfers tap => matches (PArr [MRemotable]) (VArray [tap])
  | OpGetBalance _ | OpGetBalances | OpSend _ _ | OpSendAll _ _
  | OpTransfer _ _ _ | OpTransferSteps _ _ => true
  end.

(** The method a call is dispatched to, once the guard has let it
    through. *)
Definition run_body (op : Op) : Method V :=
  match op with
  | OpGetBalance denomArg => getBalance denomArg
  | OpGetBalances => getBalances
  | OpDelegate v a => delegate v a
  | OpUndelegate v a => undelegate v a
  | OpDeposit p => deposit p
  | OpWithdraw a => withdraw a
  | OpExecuteTx ms => executeTx ms
  | OpSend to a => send to a
  | OpSendAll to amts => sendAll to amts
  | OpTransfer a d o => transfer a d o
  | OpTransferSteps a m => transferSteps a m
  | OpSendThenWaitForAck s o => sendThenWaitForAck s o
  | OpMatchFirstPacket p => matchFirstPacket p
  | OpMonitorTransfers tap => monitorTransfers tap
  end.

(** A call on the holder: arguments that [HolderI] turns away make the
    call throw, before the method runs. *)
Definition run_op (op : Op) : Method V :=
  if HolderI op then run_body op
  else throw (GuardError "holder" (method_name op)).

End Facets.

End LocalOrchAccount.

(* ================================================================== *)
(** ** The local chain facade kit *)

Module LocalChainFacade.

(** The durable state: the chain info the facade was made with and the
    cached vbank assets, [undefined] until the first query returns. *)
Record State : Type := mkState {
  localChainInfo : JsVal;
  vbankAssets : JsVal }.

Inductive Watcher : Type :=
| vbankAssetValuesWatcher.

Definition V : Type := Vow Watcher.
Definition Method (A : Type) : Type := M State A.

Definition init (localChainInfo : JsVal) : State :=
  mkState localChainInfo VUndefined.

(** The [agoricNames] power. *)
Definition agoricNames : string := "agoricNames".

(** *** public.  ([makeAccount], which hands the new localchain account
    to the account kit's maker, is not part of this model.) *)

Definition getChainInfo : Method V :=
  st <- get_state ;;
  watch_ (value (localChainInfo st)).

Definition query : Method V :=
  asVow (Fail "not yet implemented").

Definition getVBankAssetInfo : Method V :=
  asVow (
    st <- get_state ;;
    if truthy (vbankAssets st) then ret (value (vbankAssets st))
    else
      vbankAssetNameHubP <- send_call (W := Watcher) (CLookup agoricNames "vbankAsset") ;;
      vbankAssetValuesP <- send_call_on vbankAssetNameHubP CValues ;;
      watch vbankAssetValuesP vbankAssetValuesWatcher).

(** *** vbankAssetValuesWatcher *)

Definition vbankAssetValuesWatcher_onFulfilled (assets : JsVal) : Method V :=
  guarded "vbankAssetValuesWatcher" "onFulfilled" (MArrayOf MRecord) assets (
    asVow (
      st <- get_state ;;
      _ <- put_state (mkState (localChainInfo st) assets) ;;
      ret (value assets))).

Definition onFulfilled (w : Watcher) (x : JsVal) : Method V :=
  match w with
  | vbankAssetValuesWatcher => vbankAssetValuesWatcher_onFulfilled x
  end.

Inductive Op : Type :=
| OpGetChainInfo
| OpQuery
| OpGetVBankAssetInfo.

Definition run_op (op : Op) : Method V :=
  match op with
  | OpGetChainInfo => getChainInfo
  | OpQuery => query
  | OpGetVBankAssetInfo => getVBankAssetInfo
  end.

End LocalChainFacade.

(* ================================================================== *)
(** ** The send contract's proposal shape *)

(** [M.and(M.recordOf(M.string(), AmountShape, { numPropertiesLimit: 1 }),
           M.not(harden({})))] *)
Definition SingleAmountRecord {imports : Imports} : Pattern :=
  MAnd (MRecordOf MString AmountShape 1) (MNot (PRec [])).

(* ================================================================== *)
(** ** Auxiliary definitions for the statements *)

(** A call of the outbox that has its reply. *)
Definition replied (e : Call * option Outcome) : Prop := snd e <> None.

(** A reply, if there is one, was allowed by the environment at some
    time up to [now]. *)
Definition answered (env : Z -> Call -> Outcome -> Prop) (now : Z)
    (c : Call) (r : option Outcome) : Prop :=
  match r with
  | None => True
  | Some o => exists t, (t <= now)%Z /\ env t c o
  end.

Section Fired.
Variables S W : Type.
Variable onFulfilled : W -> JsVal -> M S (Vow W).

(** The configuration right after the watcher of the only task has run
    on outcome [o]. *)
Definition fired (st : S) (ob : list (Call * option Outcome)) (w : option W)
    (o : Outcome) (t : Z) : Cfg S W :=
  let (v, h) := fire onFulfilled w o (mkHeap st ob) in mkCfg h [v] t.
End Fired.

(** The time service, as the kit relies on it: [wakeAt(t)] is answered
    once the clock has reached [t] -- not before, and not with a
    rejection. *)
Definition timer_contract (env : Z -> Call -> Outcome -> Prop) : Prop :=
  (forall now t o, env now (CWakeAt t) o -> (t <= now)%Z /\ exists v, o = Fulfilled v)
  /\
  (forall now t, (t <= now)%Z -> exists v, env now (CWakeAt t) (Fulfilled v)).

(** The timeout that the options of a transfer fix:
    [opts?.timeoutTimestamp], else [0n] when a [timeoutHeight] is given;
    otherwise the timestamp helper is asked. *)
Definition static_timeout (opts : option TransferOpts.t) : option Z :=
  match LocalOrchAccount.opt_timeoutTimestamp opts with
  | Some ts => Some ts
  | None =>
      match LocalOrchAccount.opt_timeoutHeight opts with
      | Some _ => Some 0%Z
      | None => None
      end
  end.

(** [z] is the timeout of a transfer begun at [t0], seen at [now]: the
    one the options fix, or the helper's default as of some time in
    between. *)
Definition timeout_of (opts : option TransferOpts.t) (t0 now z : Z) : Prop :=
  match static_timeout opts with
  | Some z' => z = z'
  | None =>
      exists t1, (t0 <= t1 <= now)%Z /\ z = TimestampHelper.getTimeoutTimestampNS t1
  end.

(** The phases of a transfer. *)
Section TransferPhases.
Import LocalOrchAccount.
Context {imports : Imports}.
Variable hub : ChainHub.t.
Variable st : State.
Variable d : DenomAmount.t.
Variable destination : ChainAddress.t.
Variable opts : option TransferOpts.t.
Variable t0 : Z.

Definition connection_call : Call :=
  CGetConnectionInfo (ChainAddress.chainId (address st))
                     (ChainAddress.chainId destination).

(** What the connection directory answers. *)
Variable connection : Outcome.

Definition transfer_watcher : option Watcher :=
  Some (transferWatcher (mkTransferCtx destination opts d)).

(** The first input of [allVows], [watch(getConnectionInfo(...))],
    against the reply of the call. *)
Inductive conn_state : option Outcome -> Vow Watcher -> Prop :=
| conn_asked : conn_state None (VWatch (VPromise 0) None)
| conn_answered : conn_state (Some connection) (VWatch (VPromise 0) None)
| conn_arrived : conn_state (Some connection) (VWatch (VNow connection) None)
| conn_through : conn_state (Some connection) (VNow connection).

(** The second input, the timeout, against the call to the timestamp
    helper if one was made. *)
Inductive ts_state (now : Z) : list (Call * option Outcome) -> Vow Watcher -> Prop :=
| ts_given z :
    static_timeout opts = Some z ->
    ts_state now [] (VNow (Fulfilled (VBigInt z)))
| ts_asked :
    static_timeout opts = None ->
    ts_state now [(CGetTimeoutTimestampNS, None)] (VPromise 1)
| ts_answered t1 :
    static_timeout opts = None -> (t0 <= t1 <= now)%Z ->
    ts_state now
      [(CGetTimeoutTimestampNS,
        Some (Fulfilled (VBigInt (TimestampHelper.getTimeoutTimestampNS t1))))]
      (VPromise 1)
| ts_known t1 :
    static_timeout opts = None -> (t0 <= t1 <= now)%Z ->
    ts_state now
      [(CGetTimeoutTimestampNS,
        Some (Fulfilled (VBigInt (TimestampHelper.getTimeoutTimestampNS t1))))]
      (VNow (Fulfilled (VBigInt (TimestampHelper.getTimeoutTimestampNS t1)))).

(** The calls to the helper, whatever their state. *)
Definition ts_calls (tsq : list (Call * option Outcome)) : Prop :=
  tsq = [] \/ exists r1, tsq = [(CGetTimeoutTimestampNS, r1)].

(** What [allVows] settles with. *)
Definition joined (now : Z) (o : Outcome) : Prop :=
  match connection with
  | Rejected e => o = Rejected e
  | Fulfilled info =>
      exists z, o = Fulfilled (VArray [info; VBigInt z]) /\ timeout_of opts t0 now z
  end.

(** The [MsgTransfer] of a transfer over the channel
    [portId]/[channelId] with timeout [z]. *)
Definition transfer_msg (portId channelId : JsVal) (z : Z) : Msg :=
  MsgTransfer portId channelId
    (Coin.make (DenomAmount.denom d) (String_of_bigint (DenomAmount.value d)))
    (ChainAddress.value (address st))
    (ChainAddress.value destination)
    (match opt_timeoutHeight opts with
     | Some h => h
     | None => Height.make 0 0
     end)
    (VBigInt z)
    (match opt_memo opts with
     | Some m => m
     | None => EmptyString
     end).

(** Where a run of [transfer] stands: [allVows] is waiting for its two
    inputs, it has settled and the watcher is due, or the watcher has
    run. *)
Inductive transfer_phase : Cfg State Watcher -> Prop :=
| tp_joining r0 tsq a b n :
    (t0 <= n)%Z -> conn_state r0 a -> ts_state n tsq b ->
    transfer_phase
      (mkCfg (mkHeap st ((connection_call, r0) :: tsq))
             [VWatch (VAll [a; b]) transfer_watcher] n)
| tp_joined tsq o n :
    ts_calls tsq -> joined n o ->
    transfer_phase
      (mkCfg (mkHeap st ((connection_call, Some connection) :: tsq))
             [VWatch (VNow o) transfer_watcher] n)
| tp_fired tsq o t cfg :
    ts_calls tsq -> joined t o ->
    Run onFulfilled run_op (collaborators hub)
        (fired onFulfilled st ((connection_call, Some connection) :: tsq)
               transfer_watcher o t) cfg ->
    transfer_phase cfg.

End TransferPhases.

(** A string occurs in another. *)
Definition contains (s sub : string) : Prop :=
  exists pre post, s = (pre ++ sub ++ post)%string.

(** An instance of the imports to run the examples on: ten minutes of
    clock skew, timestamps as [{ seconds: string, nanos: number }],
    amounts by brand and by denom, payments as remotables, [BigInt] on bigints and on decimal
    digits, and substituted values shown as "(an object)". *)
Definition sample_imports : Imports := {|
  maxClockSkew := 600;
  TimestampProtoShape := PRec [("seconds"%string, MString); ("nanos"%string, MNumber)];
  AmountShape := PRec [("brand"%string, MRemotable); ("value"%string, MNat)];
  PaymentShape := MRemotable;
  DenomAmountShape := PRec [("denom"%string, MString); ("value"%string, MNat)];
  BigInt := fun v =>
    match v with
    | VBigInt z => Normal z
    | VString s =>
        match NilZero.int_of_string s with
        | Some i => Normal (Z.of_int i)
        | None => Throw SyntaxError
        end
    | _ => Throw TypeError
    end;
  redacted := fun _ => "(an object)"%string |}.

Definition sample_hub : ChainHub.t :=
  [("agoriclocal"%string, "cosmoshub-4"%string,
    VRecord [("transferChannel"%string,
              VRecord [("portId"%string, VString "transfer");
                       ("channelId"%string, VString "channel-1")])])].

Definition cosmoshub : ChainAddress.t :=
  ChainAddress.make "cosmos1pleab" "bech32" "cosmoshub-4".

Definition fakenet : ChainAddress.t :=
  ChainAddress.make "fakenet1pleab" "bech32" "fakenet".

(** The answer of the bridge to an undelegation that completes at
    second 5. *)
Definition sample_undelegate_response : JsVal :=
  VArray [VRecord [("completionTime"%string,
                    VRecord [("seconds"%string, VString "5");
                             ("nanos"%string, VNumber 0)])]].

Definition sample_address : ChainAddress.t :=
  ChainAddress.make "agoric1local" "bech32" "agoriclocal".

Definition sample_state : LocalOrchAccount.State :=
  LocalOrchAccount.mkState "lca" sample_address "node" "lca".

(** The rejection of a call that [extractFirstResultWatcher]'s guard
    turns away. *)
Definition guard_rejection : Outcome :=
  Rejected (GuardError "extractFirstResultWatcher" "onFulfilled").

(** A settled [executeTx] seen through [extractFirstResultWatcher]: a
    rejection as it is, the one record of a one-record answer, the
    guard's rejection of any other answer. *)
Definition first_result (o : Outcome) : Outcome :=
  match o with
  | Rejected e => Rejected e
  | Fulfilled (VArray [VRecord r]) => Fulfilled (VRecord r)
  | Fulfilled _ => guard_rejection
  end.

(** A settled vow seen through [returnVoidWatcher]. *)
Definition void_result (o : Outcome) : Outcome :=
  match o with
  | Rejected e => Rejected e
  | Fulfilled _ => Fulfilled VUndefined
  end.

(** The bridge's answer to an undelegation carries a completion time of
    [T] seconds: it is one record whose [completionTime] is a timestamp
    with [BigInt(completionTime.seconds)] equal to [T]. *)
Definition carries_completionTime {imports : Imports} (reply : JsVal) (T : Z) : Prop :=
  exists fs completionTime seconds,
    reply = VArray [VRecord fs] /\
    lookup "completionTime" fs = Some completionTime /\
    matches TimestampProtoShape completionTime = true /\
    get_prop completionTime "seconds" = Normal seconds /\
    BigInt seconds = Normal T.

(** [{ denom, amount: String(value) }] *)
Definition coin_of (d : DenomAmount.t) : Coin.t :=
  Coin.make (DenomAmount.denom d) (String_of_bigint (DenomAmount.value d)).

(** The calls of [pre] with, possibly, more of their replies in. *)
Definition refines (pre pre' : list (Call * option Outcome)) : Prop :=
  Forall2 (fun e e' => fst e' = fst e /\ (snd e = None \/ snd e' = snd e)) pre pre'.

(** A method keeps a relation between the heap it finds and the heap
    it leaves. *)
Definition keeps {S A : Type} (P : Heap S -> Heap S -> Prop) (m : M S A) : Prop :=
  forall h, P h (snd (m h)).

(** The outbox only grows at its end. *)
Definition grows {S : Type} (h h' : Heap S) : Prop :=
  exists more, outbox h' = outbox h ++ more.

(** The durable state is left as it was. *)
Definition same_kit {S : Type} (h h' : Heap S) : Prop := kit h' = kit h.

Section VowInduction.
Variable W : Type.
Variable P : Vow W -> Prop.
Hypothesis HNow : forall o, P (VNow o).
Hypothesis HPromise : forall c, P (VPromise c).
Hypothesis HWatch : forall v w, P v -> P (VWatch v w).
Hypothesis HAll : forall vs, Forall P vs -> P (VAll vs).

Fixpoint Vow_nested_ind (v : Vow W) : P v :=
  match v with
  | VNow o => HNow o
  | VPromise c => HPromise c
  | VWatch v' w => HWatch w (Vow_nested_ind v')
  | VAll vs =>
      HAll ((fix each (vs : list (Vow W)) : Forall P vs :=
               match vs with
               | [] => Forall_nil P
               | v1 :: vs1 => Forall_cons v1 (Vow_nested_ind v1) (each vs1)
               end) vs)
  end.
End VowInduction.

(* ================================================================== *)
(** ** Auxiliary definitions for the holder's and the facade's methods *)

Section HolderShapes.
Import LocalOrchAccount.
Context {imports : Imports}.

(** The holder's methods that are [watch(E(target).method(args))] and
    nothing more -- [withdraw], [executeTx], [sendThenWaitForAck],
    [matchFirstPacket], [monitorTransfers] -- with the call each one
    forwards, on arguments that the holder's guard lets through. *)
Definition forwarded_call (st : State) (op : Op) : option Call :=
  if HolderI op then
    match op with
    | OpWithdraw amount => Some (CWithdraw (account st) amount)
    | OpExecuteTx messages => Some (CExecuteTx (account st) messages)
    | OpSendThenWaitForAck sender opts =>
        Some (CSendThenWaitForAck (packetTools st) sender opts)
    | OpMatchFirstPacket patternV => Some (CMatchFirstPacket (packetTools st) patternV)
    | OpMonitorTransfers tap => Some (CMonitorTransfers (packetTools st) tap)
    | _ => None
    end
  else None.

(** The holder's methods that, past the guard, issue one call and hand
    back the [watch] of its promise, with or without a watcher.  [send]
    and [sendAll] do so when every amount carries a denom. *)
Definition watches_first_call (op : Op) : bool :=
  match op with
  | OpGetBalance _ | OpDelegate _ _ | OpUndelegate _ _ | OpDeposit _
  | OpWithdraw _ | OpExecuteTx _ | OpSendThenWaitForAck _ _
  | OpMatchFirstPacket _ | OpMonitorTransfers _ => true
  | OpSend _ amount => has_denom amount
  | OpSendAll _ amounts => forallb has_denom amounts
  | OpGetBalances | OpTransfer _ _ _ | OpTransferSteps _ _ => false
  end.

(** [[brand, denom]] as [getBalance] derives them from its argument: a
    string is a denom, asked of the bank with a [null] brand; anything
    else is taken for a brand, under the denom 'FIXME'. *)
Definition balance_query (denomArg : JsVal) : JsVal * string :=
  match denomArg with
  | VString d => (VNull, d)
  | _ => (denomArg, "FIXME"%string)
  end.

(** A call is addressed to a kit's own collaborators: its localchain
    account, its packet tools, its topic kit, the timer and the timestamp
    helper, and the connection directory asked from the kit's own chain.
    agoricNames is none of them. *)
Definition own_call (st : State) (c : Call) : bool :=
  match c with
  | CExecuteTx a _ | CDeposit a _ | CWithdraw a _ | CGetBalance a _ =>
      String.eqb a (account st)
  | CSendThenWaitForAck p _ _ | CMatchFirstPacket p _ | CMonitorTransfers p _ =>
      String.eqb p (packetTools st)
  | CRecorderWrite k _ => String.eqb k (topicKit st)
  | CGetConnectionInfo src _ => String.eqb src (ChainAddress.chainId (address st))
  | CWakeAt _ | CGetTimeoutTimestampNS => true
  | CLookup _ _ | CValues _ => false
  end.

(** The heap of a kit made in state [st0]: the state is [st0] and every
    call issued so far is one to its own collaborators. *)
Definition own_heap (st0 : State) (h : Heap State) : Prop :=
  kit h = st0 /\ forallb (own_call st0) (map fst (outbox h)) = true.

End HolderShapes.

(** The heap of a facade made for [info]: the chain info is [info], and
    the cached assets are [undefined] or an array of records. *)
Definition facade_heap (info : JsVal) (h : Heap LocalChainFacade.State) : Prop :=
  LocalChainFacade.localChainInfo (kit h) = info /\
  (LocalChainFacade.vbankAssets (kit h) = VUndefined \/
   exists xs, LocalChainFacade.vbankAssets (kit h) = VArray xs /\
              forallb (matches MRecord) xs = true).

(** The [MsgUndelegate] of an undelegation. *)
Definition undelegate_call (st : LocalOrchAccount.State) (validatorAddress : string)
    (ertpAmount : Amount.t) : Call :=
  CExecuteTx (LocalOrchAccount.account st)
    [MsgUndelegate (Coin.make "ubld" (String_of_bigint (Amount.value ertpAmount)))
                   validatorAddress
                   (ChainAddress.value (LocalOrchAccount.address st))].

(** [M.splitRecord({ give: SingleAmountRecord })], the proposal shape
    that [makeSendInvitation] hands to Zoe with the invitation. *)
Definition SendProposalShape {imports : Imports} : Pattern :=
  MSplitRecord [("give"%string, SingleAmountRecord)].

(** [Object.entries(o)]: the properties of a record, each as the pair
    of its name and value. *)
Definition entries (o : JsVal) : list (string * JsVal) :=
  match o with
  | VRecord fs => fs
  | _ => []
  end.

(** [const [[kw, amt]] = es]: the first entry is taken apart, the others
    are left; with no entry there is nothing to take apart, a
    TypeError. *)
Definition first_entry (es : list (string * JsVal)) : Completion (string * JsVal) :=
  match es with
  | e :: _ => Normal e
  | [] => Throw TypeError
  end.

(** A vow in which no watcher of a kit waits: a promise, a settled vow,
    the [watch] of such a vow without a watcher, [allVows] of such
    vows. *)
Fixpoint plain {W : Type} (v : Vow W) : bool :=
  match v with
  | VNow _ | VPromise _ => true
  | VWatch v' None => plain v'
  | VWatch _ (Some _) => false
  | VAll vs => forallb plain vs
  end.

(** The stages of a transfer, whatever the collaborators answer. *)
Section TransferStages.
Import LocalOrchAccount.
Context {imports : Imports}.
Variable env : Z -> Call -> Outcome -> Prop.
Variable st : State.
Variable d : DenomAmount.t.
Variable destination : ChainAddress.t.
Variable opts : option TransferOpts.t.

(** The look-ups [transfer] begins with: the connection, and the
    timeout unless the options fix one. *)
Definition transfer_lookups : list Call :=
  connection_call st destination
    :: match static_timeout opts with
       | Some _ => []
       | None => [CGetTimeoutTimestampNS]
       end.

(** What [transferWatcher] waits for: [allVows] of the connection and
    the timeout -- the timeout of the options, if they fix one -- or
    what that has settled with. *)
Inductive joining : Vow Watcher -> Prop :=
| joining_all a b :
    plain a = true -> plain b = true ->
    (forall z, static_timeout opts = Some z -> b = VNow (Fulfilled (VBigInt z))) ->
    joining (VAll [a; b])
| joining_done o :
    (forall z, static_timeout opts = Some z ->
       (exists e, o = Rejected e) \/ exists x, o = Fulfilled (VArray [x; VBigInt z])) ->
    joining (VNow o).

Inductive transfer_stage : Cfg State Watcher -> Prop :=
| stage_waiting ob v n :
    map fst ob = transfer_lookups -> joining v ->
    transfer_stage (mkCfg (mkHeap st ob) [VWatch v (transfer_watcher d destination opts)] n)
| stage_fired ob o t cfg :
    map fst ob = transfer_lookups -> joining (VNow o) ->
    Run onFulfilled run_op env
        (fired onFulfilled st ob (transfer_watcher d destination opts) o t) cfg ->
    transfer_stage cfg.

End TransferStages.

(* ================================================================== *)
(** ** Facts about the event loop *)

Section RuntimeFacts.

Variables S W Op : Type.
Variable onFulfilled : W -> JsVal -> M S (Vow W).
Variable run_op : Op -> M S (Vow W).
Variable env : Z -> Call -> Outcome -> Prop.

Abbreviation Config := (Cfg S W).
Abbreviation steps := (step onFulfilled run_op env).
Abbreviation runs := (Run onFulfilled run_op env).
Abbreviation reaches := (Reach onFulfilled run_op env).
Abbreviation turns := (turn onFulfilled).

Lemma Run_trans (a b c : Config) : runs a b -> runs b c -> runs a c.
Proof.
  intros Hab Hbc. induction Hbc as [|c c' ev _ IH Hev Hst]; [exact Hab|].
  exact (run_step IH Hev Hst).
Qed.

Lemma Run_Reach (a b : Config) : runs a b -> reaches a b.
Proof.
  induction 1 as [|c c' ev _ IH _ Hst]; [constructor|].
  exact (reach_step IH Hst).
Qed.

Lemma step_now (c c' : Config) ev : steps c ev c' -> (now c <= now c')%Z.
Proof.
  destruct 1; cbn; try lia.
  - unfold invoke. destruct (run_op op (heap cfg)) as [[v|e] h']; cbn; lia.
  - unfold turn. destruct (reduce_all _ _ _); cbn; lia.
Qed.

Lemma Run_now (a b : Config) : runs a b -> (now a <= now b)%Z.
Proof.
  induction 1 as [|c c' ev _ IH _ Hst]; [lia|].
  apply step_now in Hst. lia.
Qed.

Lemma Run_turn (c : Config) : runs c (turns c).
Proof. eapply run_step; [constructor | | apply step_turn]. cbn. tauto. Qed.

Lemma Run_advance (c : Config) t : (now c <= t)%Z -> runs c (advance t c).
Proof.
  intros Ht. eapply run_step; [constructor | | apply step_advance; exact Ht].
  cbn. tauto.
Qed.

Lemma Run_deliver (c : Config) n call o :
  nth_error (outbox (heap c)) n = Some (call, None) ->
  env (now c) call o ->
  runs c (deliver n o c).
Proof.
  intros Hn He. eapply run_step; [constructor | | eapply step_deliver; eauto].
  cbn. tauto.
Qed.

(** *** The outbox *)

Lemma nth_error_last (A : Type) (pre : list A) (x : A) :
  nth_error (pre ++ [x]) (List.length pre) = Some x.
Proof. rewrite nth_error_app2, Nat.sub_diag; [reflexivity | lia]. Qed.

Lemma set_reply_last pre call r o :
  set_reply (List.length pre) o (pre ++ [(call, r)]) = pre ++ [(call, Some o)].
Proof.
  induction pre as [|[c' r'] pre IH]; cbn; [reflexivity|].
  now rewrite IH.
Qed.

Lemma pending_last pre call r n call' :
  Forall replied pre ->
  nth_error (pre ++ [(call, r)]) n = Some (call', None) ->
  n = List.length pre /\ call' = call /\ r = None.
Proof.
  intros Hpre Hn.
  destruct (Nat.lt_ge_cases n (List.length pre)) as [Hlt|Hge].
  - rewrite nth_error_app1 in Hn by exact Hlt.
    apply nth_error_In in Hn.
    rewrite Forall_forall in Hpre. apply Hpre in Hn. now elim Hn.
  - rewrite nth_error_app2 in Hn by exact Hge.
    destruct (n - List.length pre) as [|k] eqn:Hk; cbn in Hn.
    + injection Hn as -> ->. repeat split. lia.
    + destruct k; discriminate.
Qed.

Lemma answered_mono t t' c r :
  (t <= t')%Z -> answered env t c r -> answered env t' c r.
Proof.
  destruct r as [o|]; cbn; [|tauto].
  intros Ht (t1 & Ht1 & He). exists t1. split; [lia | exact He].
Qed.

(** *** A call watched by a watcher *)

Lemma turn_pending st pre call r (w : option W) t :
  turns (mkCfg (mkHeap st (pre ++ [(call, r)]))
               [VWatch (VPromise (List.length pre)) w] t)
  = mkCfg (mkHeap st (pre ++ [(call, r)]))
          [VWatch (match r with Some o => VNow o | None => VPromise (List.length pre) end) w]
          t.
Proof.
  unfold turn. cbn. rewrite nth_error_last. destruct r; reflexivity.
Qed.

Lemma turn_watch_replied st ob k call o (w : option W) t :
  nth_error ob k = Some (call, Some o) ->
  turns (mkCfg (mkHeap st ob) [VWatch (VPromise k) w] t)
  = mkCfg (mkHeap st ob) [VWatch (VNow o) w] t.
Proof. intros H. unfold turn. cbn. rewrite H. reflexivity. Qed.

Lemma turn_watch_waiting st ob k call (w : option W) t :
  nth_error ob k = Some (call, None) ->
  turns (mkCfg (mkHeap st ob) [VWatch (VPromise k) w] t)
  = mkCfg (mkHeap st ob) [VWatch (VPromise k) w] t.
Proof. intros H. unfold turn. cbn. rewrite H. reflexivity. Qed.

Lemma turn_acked st ob o (w : option W) t :
  turns (mkCfg (mkHeap st ob) [VWatch (VNow o) w] t) = fired onFulfilled st ob w o t.
Proof.
  unfold turn, fired. cbn.
  destruct (fire onFulfilled w o (mkHeap st ob)); reflexivity.
Qed.

Lemma turn_settled (h : Heap S) o t :
  turns (mkCfg h [VNow o] t) = mkCfg h [VNow o] t.
Proof. reflexivity. Qed.

Lemma refines_refl pre : refines pre pre.
Proof. induction pre; constructor; auto. Qed.

Lemma refines_length pre pre' : refines pre pre' -> List.length pre' = List.length pre.
Proof. intros H. symmetry. exact (Forall2_length H). Qed.

Lemma refines_calls pre pre' : refines pre pre' -> map fst pre' = map fst pre.
Proof. induction 1 as [|e e' pre pre' [He _] _ IH]; cbn; congruence. Qed.

Lemma refines_replied pre pre' : Forall replied pre -> refines pre pre' -> pre' = pre.
Proof.
  intros Hall H. induction H as [|[c r] [c' r'] pre pre' [Hc Hr] _ IH]; [reflexivity|].
  inversion Hall as [|? ? Hrep Hall']; subst. cbn in *. subst c'.
  destruct Hr as [Hr|Hr]; [now elim Hrep|]. subst r'. now rewrite IH.
Qed.

Lemma refines_set_reply pre pre' k call o :
  refines pre pre' ->
  nth_error pre' k = Some (call, None) ->
  refines pre (set_reply k o pre').
Proof.
  intros H. revert k.
  induction H as [|[c r] [c' r'] pre pre' [Hc Hr] Hrest IH]; intros k Hk.
  - destruct k; discriminate.
  - destruct k as [|k]; cbn in *.
    + injection Hk as -> ->. constructor; [|exact Hrest]. cbn. split; [exact Hc|].
      left. destruct Hr as [Hr|Hr]; congruence.
    + constructor; [split; assumption | apply IH; exact Hk].
Qed.

Lemma set_reply_app1 k o (pre post : list (Call * option Outcome)) :
  (k < List.length pre)%nat ->
  set_reply k o (pre ++ post) = set_reply k o pre ++ post.
Proof.
  revert k. induction pre as [|[c r] pre IH]; intros k Hk; cbn in Hk; [lia|].
  destruct k as [|k]; [reflexivity|]. cbn. f_equal. apply IH. lia.
Qed.

(** The run of [watch(E(x).m(), watcher)]: the call is pending or
    answered, the answer has reached the watched vow, or the watcher has
    run on it.  Earlier calls may get their replies meanwhile. *)
Lemma watch_chain_gen st pre call (w : option W) t0 (cfg : Config) :
  runs (mkCfg (mkHeap st (pre ++ [(call, None)]))
              [VWatch (VPromise (List.length pre)) w] t0) cfg ->
  (exists pre' r,
      refines pre pre' /\
      heap cfg = mkHeap st (pre' ++ [(call, r)]) /\
      (tasks cfg = [VWatch (VPromise (List.length pre)) w] \/
       exists o, r = Some o /\ tasks cfg = [VWatch (VNow o) w]) /\
      answered env (now cfg) call r)
  \/ (exists pre' o t, refines pre pre' /\ answered env t call (Some o) /\
        runs (fired onFulfilled st (pre' ++ [(call, Some o)]) w o t) cfg).
Proof.
  intros Hrun.
  induction Hrun as [|c c' ev _ IH Hev Hst].
  - left. exists pre, None. cbn. auto using refines_refl.
  - destruct IH as [(pre' & r & Href & Hh & Ht & Ha) | (pre' & o & t & Href & Ha & Hr)].
    2:{ right. exists pre', o, t. split; [exact Href|]. split; [exact Ha|].
        exact (run_step Hr Hev Hst). }
    pose proof (refines_length Href) as Hlen.
    destruct c as [h ts n]; cbn in Hh, Ht, Ha; subst h.
    inversion Hst as [cfg op | cfg k call' o Hn He | cfg t Hle | cfg]; subst;
      cbn [heap tasks now outbox] in *.
    + elim Hev. exact I.
    + left. unfold deliver; cbn.
      destruct (Nat.lt_ge_cases k (List.length pre')) as [Hlt|Hge].
      * rewrite nth_error_app1 in Hn by exact Hlt.
        exists (set_reply k o pre'), r. rewrite set_reply_app1 by exact Hlt.
        split; [eapply refines_set_reply; eassumption|]. auto.
      * rewrite nth_error_app2 in Hn by exact Hge.
        destruct (k - List.length pre')%nat as [|k'] eqn:Hk; cbn in Hn;
          [|destruct k'; discriminate].
        injection Hn as -> ->. assert (k = List.length pre') as -> by lia.
        exists pre', (Some o). rewrite set_reply_last.
        split; [exact Href|]. split; [reflexivity|]. split.
        -- destruct Ht as [Ht | (o' & Ho' & _)]; [left; exact Ht | discriminate].
        -- exists n. split; [lia | exact He].
    + left. exists pre', r. unfold advance; cbn. repeat split; try assumption.
      eapply answered_mono; eassumption.
    + destruct Ht as [-> | (o & -> & ->)].
      * rewrite <- Hlen. rewrite turn_pending. left. exists pre', r. cbn.
        split; [exact Href|]. split; [reflexivity|]. split; [|exact Ha].
        rewrite Hlen.
        destruct r as [o|]; [right; exists o; auto | left; reflexivity].
      * rewrite turn_acked. right. exists pre', o, n.
        split; [exact Href|]. split; [exact Ha | constructor].
Qed.

(** The same when the earlier calls all have their replies. *)
Lemma watch_chain st pre call (w : option W) t0 (cfg : Config) :
  Forall replied pre ->
  runs (mkCfg (mkHeap st (pre ++ [(call, None)]))
              [VWatch (VPromise (List.length pre)) w] t0) cfg ->
  (exists r,
      heap cfg = mkHeap st (pre ++ [(call, r)]) /\
      (tasks cfg = [VWatch (VPromise (List.length pre)) w] \/
       exists o, r = Some o /\ tasks cfg = [VWatch (VNow o) w]) /\
      answered env (now cfg) call r)
  \/ (exists o t, answered env t call (Some o) /\
        runs (fired onFulfilled st (pre ++ [(call, Some o)]) w o t) cfg).
Proof.
  intros Hpre Hrun. apply watch_chain_gen in Hrun.
  destruct Hrun as [(pre' & r & Href & H) | (pre' & o & t & Href & H)];
    apply (refines_replied Hpre) in Href; subst pre'; eauto.
Qed.

(** The same run, driven: once the environment allows the reply, two
    turns after its delivery the watcher has run. *)
Lemma watch_chain_run st pre call (w : option W) t0 t o :
  (t0 <= t)%Z ->
  env t call o ->
  runs (mkCfg (mkHeap st (pre ++ [(call, None)]))
              [VWatch (VPromise (List.length pre)) w] t0)
       (fired onFulfilled st (pre ++ [(call, Some o)]) w o t).
Proof.
  intros Ht He.
  eapply Run_trans; [apply Run_advance; exact Ht|]. unfold advance; cbn.
  eapply Run_trans.
  { eapply Run_deliver with (n := List.length pre); cbn; [apply nth_error_last | exact He]. }
  unfold deliver; cbn. rewrite set_reply_last.
  eapply Run_trans; [apply Run_turn|]. rewrite (turn_pending st pre call (Some o) w t).
  eapply Run_trans; [apply Run_turn|]. rewrite turn_acked. constructor.
Qed.

(** Replies are delivered once. *)
Lemma set_reply_replied ob k k' call o o' :
  nth_error ob k = Some (call, Some o) ->
  (exists call', nth_error ob k' = Some (call', None)) ->
  nth_error (set_reply k' o' ob) k = Some (call, Some o).
Proof.
  revert k k'. induction ob as [|[c1 r1] ob IH]; intros k k' Hk (call' & Hk').
  - destruct k; discriminate.
  - destruct k' as [|k']; destruct k as [|k]; cbn in *; try assumption.
    + congruence.
    + apply IH; eauto.
Qed.

Lemma set_reply_calls ob k o : map fst (set_reply k o ob) = map fst ob.
Proof.
  revert k. induction ob as [|[c1 r1] ob IH]; intros [|k]; cbn; auto.
  now rewrite IH.
Qed.

(** A settled task stays as it is: no call is issued any more, the
    state is left alone and the replies that are in stay. *)
Lemma settled_stable (c0 c : Config) o :
  tasks c0 = [VNow o] ->
  runs c0 c ->
  tasks c = [VNow o] /\ calls c = calls c0 /\ kit (heap c) = kit (heap c0) /\
  (forall k call r, nth_error (outbox (heap c0)) k = Some (call, Some r) ->
                    nth_error (outbox (heap c)) k = Some (call, Some r)).
Proof.
  intros H0 Hrun.
  induction Hrun as [|c c' ev _ IH Hev Hst]; [auto|].
  destruct IH as (Ht & Hc & Hk & Hr).
  destruct c as [h ts n]; cbn in Ht; subst ts.
  inversion Hst as [cfg op | cfg k call' o' Hn He | cfg t Hle | cfg]; subst;
    cbn [heap tasks now outbox] in *.
  - elim Hev. exact I.
  - unfold deliver, calls in *; cbn in *. repeat split; try assumption.
    + now rewrite set_reply_calls.
    + intros k0 call0 r0 H. apply set_reply_replied; eauto.
  - unfold advance; cbn. auto.
  - rewrite turn_settled. auto.
Qed.

(** *** What every method and every turn keeps *)

Section Keeps.
Variable P : Heap S -> Heap S -> Prop.
Hypothesis P_refl : forall h, P h h.
Hypothesis P_trans : forall h1 h2 h3, P h1 h2 -> P h2 h3 -> P h1 h3.

Lemma keeps_ret A (a : A) : keeps P (ret a).
Proof. intros h. apply P_refl. Qed.

Lemma keeps_throw A e : keeps P (throw (A := A) e).
Proof. intros h. apply P_refl. Qed.

Lemma keeps_Fail A msg : keeps P (Fail (A := A) msg).
Proof. intros h. apply P_refl. Qed.

Lemma keeps_lift A (c : Completion A) : keeps P (lift c).
Proof. intros h. apply P_refl. Qed.

Lemma keeps_get_state : keeps P get_state.
Proof. intros h. apply P_refl. Qed.

Lemma keeps_bind A B (m : M S A) (k : A -> M S B) :
  keeps P m -> (forall a, keeps P (k a)) -> keeps P (bind m k).
Proof.
  intros Hm Hk h. unfold bind. specialize (Hm h).
  destruct (m h) as [[a|e] h']; cbn in *; [|exact Hm].
  eapply P_trans; [exact Hm | apply Hk].
Qed.

Lemma keeps_asVow (fn : M S (Vow W)) : keeps P fn -> keeps P (asVow fn).
Proof.
  intros Hm h. unfold asVow. specialize (Hm h).
  destruct (fn h) as [[a|e] h']; exact Hm.
Qed.

Lemma keeps_guarded A facet method p x (body : M S A) :
  keeps P body -> keeps P (guarded facet method p x body).
Proof.
  intros Hb. unfold guarded. destruct (matches p x); [exact Hb|].
  apply keeps_throw.
Qed.

Lemma keeps_mapM A B (f : A -> M S B) xs :
  (forall a, keeps P (f a)) -> keeps P (mapM f xs).
Proof.
  intros Hf. induction xs as [|x xs IH]; cbn; [apply keeps_ret|].
  apply keeps_bind; [apply Hf|]. intros y.
  apply keeps_bind; [exact IH|]. intros ys. apply keeps_ret.
Qed.

Hypothesis handlers_keep : forall w x, keeps P (onFulfilled w x).

Lemma fire_keeps w o h : P h (snd (fire onFulfilled w o h)).
Proof.
  destruct o as [x|e], w as [w|]; cbn; try apply P_refl.
  specialize (handlers_keep w x h).
  destruct (onFulfilled w x h) as [[v|e] h']; exact handlers_keep.
Qed.

Lemma reduce_watch v w h :
  reduce onFulfilled (VWatch v w) h
  = match v with
    | VNow o => fire onFulfilled w o h
    | _ => let (v'', h') := reduce onFulfilled v h in (VWatch v'' w, h')
    end.
Proof. destruct v; reflexivity. Qed.

Lemma reduce_keeps v h : P h (snd (reduce onFulfilled v h)).
Proof.
  revert h. induction v as [o|c|v w IH|vs IH] using Vow_nested_ind; intros h.
  - apply P_refl.
  - cbn. destruct (nth_error (outbox h) c) as [[c' [o|]]|]; apply P_refl.
  - rewrite reduce_watch. specialize (IH h).
    destruct v as [o|c|v' w'|vs]; cbv iota beta; [apply fire_keeps| | |].
    all: match goal with |- context [reduce onFulfilled ?x ?y] =>
           destruct (reduce onFulfilled x y) end; exact IH.
  - cbn [reduce].
    destruct (first_rejected vs); [apply P_refl|].
    destruct (all_fulfilled vs); [apply P_refl|].
    match goal with |- P h (snd (let (_, _) := ?e vs h in _)) =>
      assert (H : P h (snd (e vs h))); [|destruct (e vs h); exact H] end.
    clear -IH P_refl P_trans. revert h.
    induction IH as [|v vs Hv _ IHvs]; intros h; [apply P_refl|].
    specialize (Hv h). destruct (reduce onFulfilled v h) as [v' h1].
    specialize (IHvs h1).
    match goal with |- context [?e vs h1] => destruct (e vs h1) end.
    cbn in *. eapply P_trans; eassumption.
Qed.

Lemma reduce_all_keeps vs h : P h (snd (reduce_all onFulfilled vs h)).
Proof.
  revert h. induction vs as [|v vs IH]; intros h; [apply P_refl|]. cbn.
  pose proof (reduce_keeps v h) as Hv.
  destruct (reduce onFulfilled v h) as [v' h1].
  specialize (IH h1). destruct (reduce_all onFulfilled vs h1) as [vs' h2].
  cbn in *. eapply P_trans; eassumption.
Qed.

Lemma turn_keeps (c : Config) : P (heap c) (heap (turns c)).
Proof.
  unfold turn. pose proof (reduce_all_keeps (tasks c) (heap c)) as H.
  destruct (reduce_all onFulfilled (tasks c) (heap c)). exact H.
Qed.
End Keeps.

Lemma grows_refl (h : Heap S) : grows h h.
Proof. exists []. now rewrite app_nil_r. Qed.

Lemma grows_trans (h1 h2 h3 : Heap S) : grows h1 h2 -> grows h2 h3 -> grows h1 h3.
Proof.
  intros [m1 H1] [m2 H2]. exists (m1 ++ m2). now rewrite H2, H1, app_assoc.
Qed.

Lemma same_kit_refl (h : Heap S) : same_kit h h.
Proof. reflexivity. Qed.

Lemma same_kit_trans (h1 h2 h3 : Heap S) :
  same_kit h1 h2 -> same_kit h2 h3 -> same_kit h1 h3.
Proof. unfold same_kit. congruence. Qed.

Lemma keeps_send_call_grows c : keeps grows (send_call (S := S) (W := W) c).
Proof. intros h. exists [(c, None)]. reflexivity. Qed.

Lemma keeps_send_call_kit c : keeps same_kit (send_call (S := S) (W := W) c).
Proof. intros h. reflexivity. Qed.

Lemma keeps_put_state_grows s : keeps grows (put_state (S := S) s).
Proof. intros h. exists []. cbn. now rewrite app_nil_r. Qed.

(** With watchers that only add to the outbox, a reply that is in
    stays in. *)
Lemma Run_replied (c0 c : Config) k call o :
  (forall w x, keeps grows (onFulfilled w x)) ->
  runs c0 c ->
  nth_error (outbox (heap c0)) k = Some (call, Some o) ->
  nth_error (outbox (heap c)) k = Some (call, Some o).
Proof.
  intros Hk Hrun H0.
  induction Hrun as [|c c' ev _ IH Hev Hst]; [exact H0|].
  inversion Hst as [cfg op | cfg k' call' o' Hn He | cfg t Hle | cfg]; subst.
  - elim Hev. exact I.
  - unfold deliver; cbn. apply set_reply_replied; eauto.
  - exact IH.
  - destruct (turn_keeps grows_refl grows_trans Hk c) as [more Hm].
    rewrite Hm. rewrite nth_error_app1; [exact IH|].
    apply nth_error_Some. congruence.
Qed.


(** With methods and watchers that leave the durable state alone, it
    is for ever the state the kit was made with. *)
Lemma Reach_same_kit (c0 c : Config) :
  (forall w x, keeps same_kit (onFulfilled w x)) ->
  (forall op, keeps same_kit (run_op op)) ->
  reaches c0 c ->
  kit (heap c) = kit (heap c0).
Proof.
  intros Hw Hop Hreach.
  induction Hreach as [|c c' ev _ IH Hst]; [reflexivity|].
  inversion Hst as [cfg op | cfg k' call' o' Hn He | cfg t Hle | cfg]; subst.
  - unfold invoke. specialize (Hop op (heap c)). unfold same_kit in Hop.
    destruct (run_op op (heap c)) as [[v|e] h']; cbn in *; congruence.
  - exact IH.
  - exact IH.
  - rewrite <- IH. exact (turn_keeps same_kit_refl same_kit_trans Hw c).
Qed.

End RuntimeFacts.

(* ================================================================== *)
(** ** What the account kit's methods keep *)

Ltac keeps_tac :=
  repeat first
    [ assumption
    | apply keeps_ret; assumption
    | apply keeps_throw; assumption
    | apply keeps_Fail; assumption
    | apply keeps_lift; assumption
    | apply keeps_get_state; assumption
    | apply keeps_asVow
    | apply keeps_guarded; [assumption|]
    | apply keeps_mapM; [assumption|assumption|intros ?]
    | apply keeps_bind; [assumption| |intros ?]
    | match goal with
      | |- keeps _ (send_call _) => solve [auto]
      | |- keeps _ (match ?x with _ => _ end) => destruct x
      end ].

Section AccountKeeps.

Import LocalOrchAccount.
Context {imports : Imports}.

Variable P : Heap State -> Heap State -> Prop.
Hypothesis P_refl : forall h, P h h.
Hypothesis P_trans : forall h1 h2 h3, P h1 h2 -> P h2 h3 -> P h1 h3.
Hypothesis P_send : forall c, keeps P (send_call (S := State) (W := Watcher) c).

Lemma account_watchers_keep w x : keeps P (onFulfilled w x).
Proof.
  destruct w;
    unfold onFulfilled, undelegateWatcher_onFulfilled, transferWatcher_onFulfilled,
      extractFirstResultWatcher_onFulfilled, returnVoidWatcher_onFulfilled,
      getBalanceWatcher_onFulfilled, sendThenWaitForAck, watch, watch_;
    keeps_tac.
Qed.

Lemma account_methods_keep op : keeps P (run_op op).
Proof.
  unfold run_op. destruct (HolderI op); [|apply keeps_throw; assumption].
  destruct op;
    unfold run_body, getBalance, getBalances, delegate, undelegate, deposit,
      withdraw, executeTx, send, sendAll, transfer, transferSteps,
      sendThenWaitForAck, matchFirstPacket, monitorTransfers, amountToCoin,
      watch, watch_, allVows;
    keeps_tac.
Qed.

End AccountKeeps.

(* ================================================================== *)
(** ** The account kit: single methods *)

Section AccountFacts.

Import LocalOrchAccount.
Context {imports : Imports}.
Variable env : Z -> Call -> Outcome -> Prop.

Abbreviation acct_runs := (Run onFulfilled run_op env).
Abbreviation acct_turn := (turn onFulfilled).
Abbreviation acct_start := (start (W := Watcher)).

Lemma mapM_amountToCoin_brand (amounts : list AmountArg) (h : Heap State) :
  existsb (fun a => negb (has_denom a)) amounts = true ->
  mapM amountToCoin amounts h = (Throw (Error "Brands not currently supported."), h).
Proof.
  induction amounts as [|a amounts IH]; cbn; [discriminate|].
  destruct a as [e|d]; cbn; [reflexivity|].
  intros H. unfold bind. rewrite (IH H). reflexivity.
Qed.

(** C4.  [send] and [sendAll] with an amount that has no ['denom']:
    the vow handed back is rejected with "Brands not currently
    supported.", and the heap is as before -- no call was issued, the
    state was not touched. *)
Theorem send_brand_rejected_before_bridge
    (toAccount : ChainAddress.t) (amount : AmountArg)
    (amounts : list AmountArg) (h : Heap State) :
  (has_denom amount = false ->
   send toAccount amount h
     = (Normal (VNow (Rejected (Error "Brands not currently supported."))), h))
  /\
  (existsb (fun a => negb (has_denom a)) amounts = true ->
   sendAll toAccount amounts h
     = (Normal (VNow (Rejected (Error "Brands not currently supported."))), h)).
Proof.
  split.
  - destruct amount as [e|d]; cbn; [reflexivity | discriminate].
  - intros H. unfold sendAll, asVow, bind.
    rewrite (mapM_amountToCoin_brand _ _ H). reflexivity.
Qed.

(** C7.  [getBalances] and [transferSteps] hand back a vow rejected
    with "not yet implemented"; [CloseAccount] throws that error. *)
Theorem not_yet_implemented (amount : AmountArg) (msg : JsVal) (h : Heap State) :
  getBalances h = (Normal (VNow (Rejected (Error "not yet implemented"))), h) /\
  transferSteps amount msg h
    = (Normal (VNow (Rejected (Error "not yet implemented"))), h) /\
  CloseAccount h = (Throw (Error "not yet implemented"), h).
Proof. repeat split. Qed.

(** *** delegate *)

Lemma delegate_start st t0 validatorAddress ertpAmount :
  acct_start st t0 (delegate validatorAddress ertpAmount)
  = mkCfg (mkHeap st ([] ++ [(CExecuteTx (account st)
             [MsgDelegate (Coin.make "ubld" (String_of_bigint (Amount.value ertpAmount)))
                          validatorAddress (ChainAddress.value (address st))], None)]))
          [VWatch (VPromise (List.length (@nil (Call * option Outcome))))
                  (Some extractFirstResultWatcher)] t0.
Proof. reflexivity. Qed.

Lemma extractFirstResult_fired st ob o t :
  fired onFulfilled st ob (Some extractFirstResultWatcher) o t
  = mkCfg (mkHeap st ob) [VNow (first_result o)] t.
Proof.
  destruct o as [x|e]; [|reflexivity].
  destruct x as [ | | | | | |xs| | ]; try reflexivity.
  destruct xs as [|x [|y xs]]; try reflexivity;
    destruct x; try reflexivity.
  all: unfold fired, fire; cbn; unfold guarded; cbn;
    destruct y; cbn; try reflexivity;
    repeat match goal with |- context [if ?b then _ else _] => destruct b end;
    reflexivity.
Qed.

(** C3, as the code has it.  Once the bridge has answered
    [delegate]'s [executeTx]: an answer of exactly one record makes the
    vow resolve with that record; an answer of no result or of several
    makes it reject with the error of the watcher's interface guard
    ([M.call([M.record()])]), which runs before the method body and its
    own assertion.  In both cases the vow has settled no other way, and
    is settled two turns on. *)
Theorem delegate_exactly_one_result
    st t0 validatorAddress ertpAmount cfg call reply :
  acct_runs (acct_start st t0 (delegate validatorAddress ertpAmount)) cfg ->
  nth_error (outbox (heap cfg)) 0 = Some (call, Some (Fulfilled reply)) ->
  (forall r, reply = VArray [VRecord r] ->
     (forall o, settled cfg = Some o -> o = Fulfilled (VRecord r)) /\
     settled (acct_turn (acct_turn cfg)) = Some (Fulfilled (VRecord r)))
  /\
  (forall rs, reply = VArray rs -> List.length rs <> 1%nat ->
     (forall o, settled cfg = Some o -> o = guard_rejection) /\
     settled (acct_turn (acct_turn cfg)) = Some guard_rejection).
Proof.
  intros Hrun Hreply. rewrite delegate_start in Hrun.
  assert (Hmain : (forall o, settled cfg = Some o -> o = first_result (Fulfilled reply)) /\
                  settled (acct_turn (acct_turn cfg)) = Some (first_result (Fulfilled reply))).
  { apply watch_chain in Hrun; [|constructor].
    destruct Hrun as [(r & Hh & Ht & _) | (o & t & _ & Hr)].
    - destruct cfg as [h ts n]; cbn in Hh, Ht, Hreply; subst h. cbn in Hreply.
      injection Hreply as _ ->.
      destruct Ht as [-> | (o & Ho & ->)].
      + split; [discriminate|].
        erewrite turn_watch_replied by reflexivity.
        rewrite turn_acked, extractFirstResult_fired. reflexivity.
      + injection Ho as <-. split; [discriminate|].
        rewrite turn_acked, extractFirstResult_fired. reflexivity.
    - rewrite extractFirstResult_fired in Hr.
      apply settled_stable with (o := first_result o) in Hr; [|reflexivity].
      destruct Hr as (Ht & _ & _ & Hrep).
      specialize (Hrep 0%nat _ _ eq_refl). rewrite Hrep in Hreply.
      injection Hreply as _ ->.
      destruct cfg as [h ts n]; cbn in Ht; subst ts.
      split; [intros o' [= <-]; reflexivity | reflexivity]. }
  split.
  - intros r ->. exact Hmain.
  - intros rs -> Hlen.
    replace (first_result (Fulfilled (VArray rs))) with guard_rejection in Hmain;
      [exact Hmain|].
    destruct rs as [|x [|y rs]]; cbn; try reflexivity; [|destruct x; reflexivity].
    now elim Hlen.
Qed.

(** *** sendAll *)

Lemma returnVoid_fired st ob o t :
  fired onFulfilled st ob (Some returnVoidWatcher) o t
  = mkCfg (mkHeap st ob) [VNow (void_result o)] t.
Proof. destruct o; reflexivity. Qed.

Lemma mapM_amountToCoin_denoms (amounts : list DenomAmount.t) (h : Heap State) :
  mapM amountToCoin (map DenomAmountArg amounts) h = (Normal (map coin_of amounts), h).
Proof.
  induction amounts as [|d amounts IH]; cbn; [reflexivity|].
  unfold bind. cbn. rewrite IH. reflexivity.
Qed.

Lemma sendAll_start st t0 toAccount (amounts : list DenomAmount.t) :
  acct_start st t0 (sendAll toAccount (map DenomAmountArg amounts))
  = mkCfg (mkHeap st ([] ++ [(CExecuteTx (account st)
             [MsgSend (map coin_of amounts) (ChainAddress.value toAccount)
                      (ChainAddress.value (address st))], None)]))
          [VWatch (VPromise (List.length (@nil (Call * option Outcome))))
                  (Some returnVoidWatcher)] t0.
Proof.
  unfold start, sendAll, asVow, bind. rewrite mapM_amountToCoin_denoms. reflexivity.
Qed.

(** C6.  [sendAll] with amounts that all carry a denom issues one
    call, [executeTx] of a single bank [MsgSend] whose coins are the
    amounts in input order, each as [{ denom, amount: String(value) }],
    to [toAccount.value] from the account's own address; nothing else is
    ever issued.  The vow follows the bridge's answer to that call: it
    is not settled before the answer is in; once the bridge has
    fulfilled the call the vow has settled with [undefined] or not at
    all, and is settled so two turns on; once the bridge has rejected it
    the vow has settled with the bridge's error or not at all, and is
    settled so two turns on. *)
Theorem sendAll_one_bank_send
    st t0 toAccount (amounts : list DenomAmount.t) cfg :
  acct_runs (acct_start st t0 (sendAll toAccount (map DenomAmountArg amounts))) cfg ->
  calls cfg = [CExecuteTx (account st)
                 [MsgSend (map coin_of amounts) (ChainAddress.value toAccount)
                          (ChainAddress.value (address st))]]
  /\
  (forall call reply,
     nth_error (outbox (heap cfg)) 0 = Some (call, Some (Fulfilled reply)) ->
     (forall o, settled cfg = Some o -> o = Fulfilled VUndefined) /\
     settled (acct_turn (acct_turn cfg)) = Some (Fulfilled VUndefined))
  /\
  (forall o, settled cfg = Some o ->
     exists call answer,
       nth_error (outbox (heap cfg)) 0 = Some (call, Some answer) /\
       o = void_result answer)
  /\
  (forall call e,
     nth_error (outbox (heap cfg)) 0 = Some (call, Some (Rejected e)) ->
     (forall o, settled cfg = Some o -> o = Rejected e) /\
     settled (acct_turn (acct_turn cfg)) = Some (Rejected e)).
Proof.
  intros Hrun. rewrite sendAll_start in Hrun.
  assert (Hmain :
    calls cfg = [CExecuteTx (account st)
                   [MsgSend (map coin_of amounts) (ChainAddress.value toAccount)
                            (ChainAddress.value (address st))]]
    /\
    (forall o, settled cfg = Some o ->
       exists call answer,
         nth_error (outbox (heap cfg)) 0 = Some (call, Some answer) /\
         o = void_result answer)
    /\
    (forall call answer,
       nth_error (outbox (heap cfg)) 0 = Some (call, Some answer) ->
       (forall o, settled cfg = Some o -> o = void_result answer) /\
       settled (acct_turn (acct_turn cfg)) = Some (void_result answer))).
  { apply watch_chain in Hrun; [|constructor].
    destruct Hrun as [(r & Hh & Ht & _) | (o & t & _ & Hr)].
    - destruct cfg as [h ts n]; cbn in Hh, Ht; subst h.
      split; [reflexivity|]. split.
      + intros o. unfold settled; cbn.
        destruct Ht as [-> | (o1 & _ & ->)]; discriminate.
      + intros call answer Hreply. cbn in Hreply. injection Hreply as _ ->.
        destruct Ht as [-> | (o & Ho & ->)].
        * split; [discriminate|].
          erewrite turn_watch_replied by reflexivity.
          rewrite turn_acked, returnVoid_fired. reflexivity.
        * injection Ho as <-. split; [discriminate|].
          rewrite turn_acked, returnVoid_fired. reflexivity.
    - rewrite returnVoid_fired in Hr.
      apply settled_stable with (o := void_result o) in Hr; [|reflexivity].
      destruct Hr as (Ht & Hc & _ & Hrep).
      specialize (Hrep 0%nat _ _ eq_refl).
      split; [exact Hc|]. split.
      + intros o'. unfold settled. rewrite Ht. intros [= <-]. eauto.
      + intros call answer Hreply. rewrite Hrep in Hreply.
        injection Hreply as _ <-.
        destruct cfg as [h ts n]; cbn in Ht; subst ts.
        split; [intros o' [= <-]; reflexivity | reflexivity]. }
  destruct Hmain as (Hcalls & Hanswered & Hsettles).
  split; [exact Hcalls|]. split; [|split; [exact Hanswered|]].
  - intros call reply Hreply. exact (Hsettles _ _ Hreply).
  - intros call e Hreply. exact (Hsettles _ _ Hreply).
Qed.

(** *** undelegate *)

Lemma undelegate_start st t0 validatorAddress ertpAmount :
  acct_start st t0 (undelegate validatorAddress ertpAmount)
  = mkCfg (mkHeap st ([] ++ [(CExecuteTx (account st)
             [MsgUndelegate (Coin.make "ubld" (String_of_bigint (Amount.value ertpAmount)))
                            validatorAddress (ChainAddress.value (address st))], None)]))
          [VWatch (VPromise (List.length (@nil (Call * option Outcome))))
                  (Some undelegateWatcher)] t0.
Proof. reflexivity. Qed.

(** On an answer that carries a completion time the watcher asks the
    timer for a wake-up, the clock skew later, and watches that. *)
Lemma undelegate_fired st ob reply T t :
  carries_completionTime reply T ->
  fired onFulfilled st ob (Some undelegateWatcher) (Fulfilled reply) t
  = mkCfg (mkHeap st (ob ++ [(CWakeAt (T + maxClockSkew), None)]))
          [VWatch (VPromise (List.length ob)) (Some returnVoidWatcher)] t.
Proof.
  intros (fs & ct & secs & -> & Hct & Hshape & Hsecs & Hbig).
  unfold fired, fire, onFulfilled, undelegateWatcher_onFulfilled, guarded.
  cbn. rewrite Hct, Hshape. cbn. unfold bind, lift. cbn.
  rewrite Hct, Hsecs, Hbig. reflexivity.
Qed.


Section Timer.

Hypothesis timer_sound :
  forall now t o, env now (CWakeAt t) o -> (t <= now)%Z /\ exists v, o = Fulfilled v.
Hypothesis timer_live :
  forall now t, (t <= now)%Z -> exists v, env now (CWakeAt t) (Fulfilled v).

(** The run of [undelegate] once the bridge has answered with a
    completion time. *)
Lemma undelegate_after_answer
    st t0 validatorAddress ertpAmount cfg call reply T :
  acct_runs (acct_start st t0 (undelegate validatorAddress ertpAmount)) cfg ->
  nth_error (outbox (heap cfg)) 0 = Some (call, Some (Fulfilled reply)) ->
  carries_completionTime reply T ->
  (forall o, settled cfg = Some o ->
     o = Fulfilled VUndefined /\ (T + maxClockSkew <= now cfg)%Z)
  /\
  (forall wake o1,
     nth_error (outbox (heap cfg)) 1 = Some (wake, Some o1) ->
     wake = CWakeAt (T + maxClockSkew) /\
     (T + maxClockSkew <= now cfg)%Z /\
     settled (acct_turn (acct_turn cfg)) = Some (Fulfilled VUndefined))
  /\
  (exists cfg', acct_runs cfg cfg' /\ settled cfg' = Some (Fulfilled VUndefined)).
Proof.
  intros Hrun Hreply Hgood. rewrite undelegate_start in Hrun.
  pose proof (account_watchers_keep (@grows_refl _) (@grows_trans _)
                (@keeps_send_call_grows _ _)) as Hgrow.
  set (tw := Z.max (now cfg) (T + maxClockSkew)).
  assert (Hstage2 : forall c0 ob t,
    ob = [(c0, Some (Fulfilled reply))] ->
    (t <= now cfg)%Z ->
    acct_runs (mkCfg (mkHeap st (ob ++ [(CWakeAt (T + maxClockSkew), None)]))
                     [VWatch (VPromise (List.length ob)) (Some returnVoidWatcher)] t) cfg ->
    (forall o, settled cfg = Some o ->
       o = Fulfilled VUndefined /\ (T + maxClockSkew <= now cfg)%Z)
    /\
    (forall wake o1,
       nth_error (outbox (heap cfg)) 1 = Some (wake, Some o1) ->
       wake = CWakeAt (T + maxClockSkew) /\
       (T + maxClockSkew <= now cfg)%Z /\
       settled (acct_turn (acct_turn cfg)) = Some (Fulfilled VUndefined))
    /\
    (exists cfg', acct_runs cfg cfg' /\ settled cfg' = Some (Fulfilled VUndefined))).
  { intros c0 ob t -> Ht Hr.
    apply watch_chain in Hr; [|repeat constructor; discriminate].
    destruct Hr as [(r & Hh & Hts & Ha) | (o1 & t1 & Ha & Hr)].
    - destruct cfg as [h ts n]; cbn in Hh, Hts, Ha, tw |- *; subst h.
      split; [destruct Hts as [-> | (o & _ & ->)]; discriminate|]. split.
      + intros wake o1 Hw. cbn in Hw. injection Hw as <- ->.
        destruct Ha as (t1 & Ht1 & He). apply timer_sound in He.
        destruct He as (Hle & v & ->).
        split; [reflexivity|]. split; [lia|].
        destruct Hts as [-> | (o & Ho & ->)].
        * erewrite turn_watch_replied by reflexivity.
          rewrite turn_acked, returnVoid_fired. reflexivity.
        * injection Ho as <-. rewrite turn_acked, returnVoid_fired. reflexivity.
      + destruct r as [o1|].
        * destruct Ha as (t1 & Ht1 & He). apply timer_sound in He.
        destruct He as (Hle & v & ->).
          eexists. split.
          { eapply Run_trans; [apply Run_turn|]. apply Run_turn. }
          destruct Hts as [-> | (o & Ho & ->)].
          -- erewrite turn_watch_replied by reflexivity.
             rewrite turn_acked, returnVoid_fired. reflexivity.
          -- injection Ho as <-. rewrite turn_acked, returnVoid_fired. reflexivity.
        * destruct Hts as [-> | (o & Ho & _)]; [|discriminate].
          destruct (@timer_live tw (T + maxClockSkew)) as [v Hv]; [subst tw; lia|].
          eexists. split.
          { apply (@watch_chain_run _ _ _ onFulfilled run_op env st
                     [(c0, Some (Fulfilled reply))] (CWakeAt (T + maxClockSkew))
                     (Some returnVoidWatcher) _ tw (Fulfilled v)).
            - subst tw. lia.
            - exact Hv. }
          rewrite returnVoid_fired. reflexivity.
    - destruct Ha as (t2 & Ht2 & He). apply timer_sound in He.
      destruct He as (Hle & v & ->).
      rewrite returnVoid_fired in Hr. cbn [void_result] in Hr.
      pose proof (Run_now Hr) as Hnow. cbn in Hnow.
      apply settled_stable with (o := Fulfilled VUndefined) in Hr; [|reflexivity].
      destruct Hr as (Hts & _ & _ & Hrep).
      destruct cfg as [h ts n]; cbn in Hts, Hnow |- *; subst ts.
      split; [intros o [= <-]; split; [reflexivity | lia]|]. split.
      + intros wake o1 Hw.
        specialize (Hrep 1%nat _ _ eq_refl). cbn in Hrep, Hw. rewrite Hrep in Hw.
        injection Hw as <- <-. split; [reflexivity|]. split; [lia | reflexivity].
      + eexists. split; [constructor | reflexivity]. }
  apply watch_chain in Hrun; [|constructor].
  destruct Hrun as [(r & Hh & Hts & _) | (o & t & _ & Hr)].
  - destruct cfg as [h ts n]; cbn in Hh, Hts, Hreply, tw |- *; subst h.
    cbn in Hreply. injection Hreply as <- ->.
    split; [destruct Hts as [-> | (o & _ & ->)]; discriminate|].
    split; [intros wake o1 Hw; discriminate|].
    destruct (@timer_live tw (T + maxClockSkew)) as [v Hv]; [subst tw; lia|].
    eexists. split.
    + eapply Run_trans.
      { instantiate (1 := fired onFulfilled st _ (Some undelegateWatcher) (Fulfilled reply) n).
        destruct Hts as [-> | (o & Ho & ->)].
        - eapply Run_trans; [apply Run_turn|].
          erewrite turn_watch_replied by reflexivity.
          eapply Run_trans; [apply Run_turn|]. rewrite turn_acked. constructor.
        - injection Ho as <-.
          eapply Run_trans; [apply Run_turn|]. rewrite turn_acked. constructor. }
      rewrite (undelegate_fired _ _ _ Hgood).
      apply (@watch_chain_run _ _ _ onFulfilled run_op env st
               [(_, Some (Fulfilled reply))] (CWakeAt (T + maxClockSkew))
               (Some returnVoidWatcher) _ tw (Fulfilled v)).
      * subst tw. lia.
      * exact Hv.
    + rewrite returnVoid_fired. reflexivity.
  - pose proof (Run_now Hr) as Hnow.
    assert (Ho : o = Fulfilled reply).
    { assert (H0 : nth_error (outbox (heap (fired onFulfilled st
                      ([] ++ [(CExecuteTx (account st)
                         [MsgUndelegate (Coin.make "ubld"
                            (String_of_bigint (Amount.value ertpAmount)))
                            validatorAddress (ChainAddress.value (address st))],
                         Some o)]) (Some undelegateWatcher) o t))) 0
                    = Some (CExecuteTx (account st)
                         [MsgUndelegate (Coin.make "ubld"
                            (String_of_bigint (Amount.value ertpAmount)))
                            validatorAddress (ChainAddress.value (address st))],
                         Some o)).
      { unfold fired.
        pose proof (fire_keeps onFulfilled (@grows_refl _) Hgrow (Some undelegateWatcher) o
                      (mkHeap st ([] ++ [(CExecuteTx (account st)
                         [MsgUndelegate (Coin.make "ubld"
                            (String_of_bigint (Amount.value ertpAmount)))
                            validatorAddress (ChainAddress.value (address st))],
                         Some o)]))) as [more Hm].
        destruct (fire onFulfilled (Some undelegateWatcher) o _) as [v h'].
        cbn in Hm |- *. rewrite Hm. reflexivity. }
      pose proof (Run_replied 0 Hgrow Hr H0) as H1.
      rewrite H1 in Hreply. injection Hreply as _ Ho. exact Ho. }
    subst o. rewrite (undelegate_fired _ _ _ Hgood) in Hr, Hnow. cbn in Hnow.
    eapply Hstage2; [reflexivity | exact Hnow | exact Hr].
Qed.

End Timer.

Lemma fired_first_reply st c0 w o t :
  nth_error (outbox (heap (fired onFulfilled st [(c0, Some o)] (Some w) o t))) 0
  = Some (c0, Some o).
Proof.
  unfold fired.
  pose proof (fire_keeps onFulfilled (@grows_refl _)
                (account_watchers_keep (@grows_refl _) (@grows_trans _)
                   (@keeps_send_call_grows _ _))
                (Some w) o (mkHeap st [(c0, Some o)])) as [more Hm].
  destruct (fire onFulfilled (Some w) o _) as [v h'].
  cbn in Hm |- *. rewrite Hm. reflexivity.
Qed.

(** C1.  With a time service that answers [wakeAt(t)] once its clock
    has reached [t], the vow [undelegate] hands back does not settle
    before the bridge has answered.  When that answer carries a
    completion time of [T] seconds, the vow has not settled unless the
    timer has reached [T + maxClockSkew], and then with [undefined]; once
    the timer has answered the wake-up -- which is a wake-up at
    [T + maxClockSkew], answered no earlier -- the vow is settled with
    [undefined] two turns on; and from wherever the run stands it can go
    on to that settlement. *)
Theorem undelegate_settles_after_completion
    st t0 validatorAddress ertpAmount cfg :
  timer_contract env ->
  acct_runs (acct_start st t0 (undelegate validatorAddress ertpAmount)) cfg ->
  (forall o, settled cfg = Some o ->
     exists call answer, nth_error (outbox (heap cfg)) 0 = Some (call, Some answer))
  /\
  (forall call reply T,
     nth_error (outbox (heap cfg)) 0 = Some (call, Some (Fulfilled reply)) ->
     carries_completionTime reply T ->
     (forall o, settled cfg = Some o ->
        o = Fulfilled VUndefined /\ (T + maxClockSkew <= now cfg)%Z)
     /\
     (forall wake o1,
        nth_error (outbox (heap cfg)) 1 = Some (wake, Some o1) ->
        wake = CWakeAt (T + maxClockSkew) /\
        (T + maxClockSkew <= now cfg)%Z /\
        settled (acct_turn (acct_turn cfg)) = Some (Fulfilled VUndefined))
     /\
     (exists cfg', acct_runs cfg cfg' /\ settled cfg' = Some (Fulfilled VUndefined))).
Proof.
  intros [Hsound Hlive] Hrun. split.
  - intros o Hset. rewrite undelegate_start in Hrun.
    apply watch_chain in Hrun; [|constructor].
    destruct Hrun as [(r & _ & Hts & _) | (o1 & t & _ & Hr)].
    + unfold settled in Hset.
      destruct Hts as [Hts | (o' & _ & Hts)]; rewrite Hts in Hset; discriminate.
    + eexists _, o1.
      eapply (Run_replied 0); [|exact Hr|apply fired_first_reply].
      apply account_watchers_keep;
        [apply grows_refl | apply grows_trans | apply keeps_send_call_grows].
  - intros call reply T Hreply Hgood.
    eapply undelegate_after_answer; eassumption.
Qed.

(** *** the address *)

Abbreviation acct_reaches := (Reach onFulfilled run_op env).

(** C8.  Whatever methods of the holder are invoked, whatever the
    collaborators reply and whichever watchers run, the kit's state is
    the one it was made with: [getAddress] returns the address given at
    creation, and [state.address] and [state.account] are as given. *)
Theorem address_is_immutable
    (account0 : string) (address0 : ChainAddress.t) (storageNode : string)
    (t0 : Z) (cfg : Cfg State Watcher) :
  acct_reaches (mkCfg (init account0 address0 storageNode) [] t0) cfg ->
  getAddress (heap cfg) = (Normal address0, heap cfg) /\
  address (kit (heap cfg)) = address0 /\
  account (kit (heap cfg)) = account0.
Proof.
  intros Hreach.
  apply Reach_same_kit in Hreach.
  - unfold getAddress, bind, get_state, ret. cbn in Hreach. rewrite Hreach.
    repeat split.
  - intros w x. apply account_watchers_keep;
      [apply same_kit_refl | apply same_kit_trans | apply keeps_send_call_kit].
  - intros op. apply account_methods_keep;
      [apply same_kit_refl | apply same_kit_trans | apply keeps_send_call_kit].
Qed.

End AccountFacts.

(* ================================================================== *)
(** ** The chain facade: the cached vbank assets *)

Section FacadeFacts.

Import LocalChainFacade.
Variable env : Z -> Call -> Outcome -> Prop.

Abbreviation facade_runs := (Run onFulfilled run_op env).
Abbreviation facade_start := (start (W := Watcher)).

Lemma getVBankAssetInfo_first st t0 :
  vbankAssets st = VUndefined ->
  facade_start st t0 getVBankAssetInfo
  = mkCfg (mkHeap st ([(CLookup agoricNames "vbankAsset", None)] ++ [(CValues 0, None)]))
          [VWatch (VPromise (List.length [(CLookup agoricNames "vbankAsset",
                                           @None Outcome)]))
                  (Some vbankAssetValuesWatcher)] t0.
Proof.
  intros H. unfold start, getVBankAssetInfo, asVow, bind, get_state. cbn.
  rewrite H. reflexivity.
Qed.


(** What the watcher makes of the settled [values()] call, and the
    state it leaves. *)
Lemma vbankAssetValues_fired st ob o t :
  exists o',
    fired onFulfilled st ob (Some vbankAssetValuesWatcher) o t
    = mkCfg (mkHeap (match o' with
                     | Fulfilled x => mkState (localChainInfo st) x
                     | Rejected _ => st
                     end) ob) [VNow o'] t
    /\ (forall x, o' = Fulfilled x -> exists xs, x = VArray xs).
Proof.
  destruct o as [x|e].
  - unfold fired, fire, onFulfilled, vbankAssetValuesWatcher_onFulfilled, guarded.
    destruct (matches (MArrayOf MRecord) x) eqn:Hm.
    + exists (Fulfilled x). split; [reflexivity|].
      intros x' [= <-]. destruct x; try discriminate. eauto.
    + eexists (Rejected _). split; [reflexivity | discriminate].
  - exists (Rejected e). split; [reflexivity | discriminate].
Qed.


End FacadeFacts.

(* ================================================================== *)
(** ** The send contract's proposal shape *)

Section ProposalShape.

Context {imports : Imports}.

(** C10.  [SingleAmountRecord] accepts a [give] record exactly when
    it has one property and the value of that property matches
    [AmountShape]; the empty record is turned away, and so is every
    record of two properties or more. *)
Theorem SingleAmountRecord_one_amount (give : list (string * JsVal)) :
  (matches SingleAmountRecord (VRecord give) = true <->
   exists keyword amount,
     give = [(keyword, amount)] /\ matches AmountShape amount = true)
  /\ matches SingleAmountRecord (VRecord []) = false
  /\ (forall p1 p2 rest,
        matches SingleAmountRecord (VRecord (p1 :: p2 :: rest)) = false).
Proof.
  split; [|split; [reflexivity | reflexivity]].
  destruct give as [|[k v] [|p2 rest]]; cbn.
  - split; [discriminate | intros (k & v & H & _); discriminate].
  - rewrite !andb_true_r. split.
    + intros H. exists k, v. auto.
    + intros (k' & v' & [= -> ->] & H). exact H.
  - split; [discriminate | intros (k' & v' & H & _); discriminate].
Qed.

End ProposalShape.

(* ================================================================== *)
(** ** The account kit: transfer *)

Section TransferFacts.

Import LocalOrchAccount.
Context {imports : Imports}.
Variable hub : ChainHub.t.
Variable st : State.
Variable d : DenomAmount.t.
Variable destination : ChainAddress.t.
Variable opts : option TransferOpts.t.
Variable t0 : Z.
Variable conn : Outcome.
Hypothesis conn_is :
  forall t o, collaborators hub t (connection_call st destination) o -> o = conn.

Abbreviation xfer_step := (step onFulfilled run_op (collaborators hub)).
Abbreviation xfer_runs := (Run onFulfilled run_op (collaborators hub)).
Abbreviation xfer_turn := (turn onFulfilled).
Abbreviation phase := (transfer_phase hub st d destination opts t0 conn).
Abbreviation tw := (transfer_watcher d destination opts).

Lemma ts_state_mono n n' tsq b :
  (n <= n')%Z -> ts_state opts t0 n tsq b -> ts_state opts t0 n' tsq b.
Proof. intros Hn H. destruct H; econstructor; eauto; lia. Qed.

Lemma ts_state_calls n tsq b : ts_state opts t0 n tsq b -> ts_calls tsq.
Proof. destruct 1; [left; reflexivity | right; eauto ..]. Qed.

Lemma timeout_of_mono n n' z :
  (n <= n')%Z -> timeout_of opts t0 n z -> timeout_of opts t0 n' z.
Proof.
  unfold timeout_of. destruct (static_timeout opts); [auto|].
  intros Hn (t1 & Ht1 & Hz). exists t1. split; [lia | exact Hz].
Qed.

Lemma joined_mono n n' o :
  (n <= n')%Z -> joined opts t0 conn n o -> joined opts t0 conn n' o.
Proof.
  unfold joined. destruct conn; [|auto].
  intros Hn (z & Ho & Hz). exists z. split; [exact Ho|].
  eapply timeout_of_mono; eassumption.
Qed.

Lemma transfer_start :
  phase (start (W := Watcher) st t0 (transfer (DenomAmountArg d) destination opts)).
Proof.
  unfold start, transfer, asVow, bind, get_state, send_call, watch_, allVows, watch, ret.
  cbn.
  destruct (opt_timeoutTimestamp opts) as [ts|] eqn:Hts;
    [|destruct (opt_timeoutHeight opts) as [h|] eqn:Hh]; cbn.
  - apply tp_joining with (tsq := []); [lia|constructor|].
    constructor. unfold static_timeout. now rewrite Hts.
  - apply tp_joining with (tsq := []); [lia|constructor|].
    constructor. unfold static_timeout. now rewrite Hts, Hh.
  - apply tp_joining with (tsq := [(CGetTimeoutTimestampNS, None)]); [lia|constructor|].
    constructor. unfold static_timeout. now rewrite Hts, Hh.
Qed.

Lemma ts_settled_timeout n tsq z :
  ts_state opts t0 n tsq (VNow (Fulfilled (VBigInt z))) -> timeout_of opts t0 n z.
Proof.
  inversion 1 as [z' Hs| | |t1 Hs Ht1]; subst; unfold timeout_of; rewrite Hs; eauto.
Qed.

Lemma transfer_phase_step c ev c' :
  phase c -> ~ is_invoke ev -> xfer_step c ev c' -> phase c'.
Proof.
  intros Hph Hev Hst.
  destruct Hph as [r0 tsq a b n Hn Ha Hb | tsq o n Hq Hj | tsq o t cfg Hq Hj Hr].
  3:{ eapply tp_fired; eauto. eapply run_step; eauto. }
  - inversion Hst as [cfg op | cfg k call' o Hk He | cfg t Hle | cfg]; subst;
      cbn [heap tasks now outbox] in *.
    + elim Hev; exact I.
    + unfold deliver; cbn [heap tasks now outbox kit].
      destruct k as [|[|k]]; cbn in Hk.
      * injection Hk as <- ->. inversion Ha; subst. apply conn_is in He.
        subst o. cbn. apply tp_joining; [lia | constructor | exact Hb].
      * inversion Hb; subst; cbn in Hk; try discriminate.
        injection Hk as <-. cbn in He. subst o. cbn.
        apply tp_joining; [lia | exact Ha | apply ts_answered; [assumption | lia]].
      * destruct Hb; cbn in Hk; destruct k; discriminate.
    + unfold advance; cbn. apply tp_joining; [lia | exact Ha |].
      eapply ts_state_mono; eassumption.
    + pose proof Hb as Hb'.
      inversion Ha; inversion Hb; subst; unfold turn; cbn;
        try (destruct conn eqn:Hc; cbn);
        first
          [ apply tp_joining; [lia | constructor | econstructor; eauto]
          | apply tp_joined; [eapply ts_state_calls; eassumption |];
            unfold joined; rewrite ?Hc;
            first [ reflexivity
                  | eexists; split; [reflexivity|];
                    eapply ts_settled_timeout; exact Hb' ] ].
  - inversion Hst as [cfg op | cfg k call' o' Hk He | cfg t Hle | cfg]; subst;
      cbn [heap tasks now outbox] in *.
    + elim Hev; exact I.
    + unfold deliver; cbn [heap tasks now outbox kit].
      destruct k as [|[|k]]; cbn in Hk; [discriminate | |].
      * destruct Hq as [-> | (r1 & ->)]; [discriminate|]. cbn.
        apply tp_joined; [right; eauto | exact Hj].
      * destruct Hq as [-> | (r1 & ->)]; cbn in Hk; destruct k; discriminate.
    + unfold advance; cbn. apply tp_joined; [exact Hq|].
      eapply joined_mono; eassumption.
    + rewrite turn_acked. eapply tp_fired; [exact Hq | exact Hj | constructor].
Qed.

Lemma transfer_chain cfg :
  xfer_runs (start (W := Watcher) st t0 (transfer (DenomAmountArg d) destination opts)) cfg ->
  phase cfg.
Proof.
  induction 1 as [|c c' ev _ IH Hev Hst]; [apply transfer_start|].
  eapply transfer_phase_step; eassumption.
Qed.

(** Before the watcher runs only the two lookups have been issued. *)
Lemma ts_calls_lookups tsq c :
  ts_calls tsq ->
  In c (connection_call st destination :: map fst tsq) ->
  c = connection_call st destination \/ c = CGetTimeoutTimestampNS.
Proof.
  intros [-> | (r1 & ->)]; cbn; intuition.
Qed.

(** *** No connection *)

Section Rejected.
Variable e : JsError.
Hypothesis conn_rejected : conn = Rejected e.

Lemma rejected_fired ob t :
  fired onFulfilled st ob tw (Rejected e) t = mkCfg (mkHeap st ob) [VNow (Rejected e)] t.
Proof. reflexivity. Qed.

Lemma rejected_safe cfg :
  phase cfg ->
  (forall o, settled cfg = Some o -> o = Rejected e) /\
  (forall c, In c (calls cfg) ->
     c = connection_call st destination \/ c = CGetTimeoutTimestampNS).
Proof.
  intros [r0 tsq a b n Hn Ha Hb | tsq o n Hq Hj | tsq o t cfg' Hq Hj Hr].
  - split; [discriminate|]. intros c. unfold calls; cbn.
    apply ts_calls_lookups. eapply ts_state_calls; eassumption.
  - split; [discriminate|]. intros c. unfold calls; cbn.
    apply ts_calls_lookups. exact Hq.
  - unfold joined in Hj. rewrite conn_rejected in Hj. subst o.
    rewrite rejected_fired in Hr.
    apply settled_stable with (o := Rejected e) in Hr; [|reflexivity].
    destruct Hr as (Hts & Hc & _). split.
    + unfold settled. rewrite Hts. now intros o [= <-].
    + intros c. rewrite Hc. unfold calls; cbn. apply ts_calls_lookups. exact Hq.
Qed.

Hypothesis conn_allowed :
  forall t, collaborators hub t (connection_call st destination) conn.

Lemma rejected_live cfg :
  phase cfg ->
  exists cfg', xfer_runs cfg cfg' /\ settled cfg' = Some (Rejected e).
Proof.
  intros [r0 tsq a b n Hn Ha Hb | tsq o n Hq Hj | tsq o t cfg' Hq Hj Hr].
  - assert (Hgo : forall a' ,
              conn_state conn (Some conn) a' ->
              settled (xfer_turn (xfer_turn (xfer_turn (xfer_turn
                (mkCfg (mkHeap st ((connection_call st destination, Some conn) :: tsq))
                       [VWatch (VAll [a'; b]) tw] n)))))
              = Some (Rejected e)).
    { intros a' Ha'. rewrite conn_rejected in Ha' |- *.
      inversion Ha'; inversion Hb; subst; reflexivity. }
    destruct r0 as [o0|].
    + assert (o0 = conn) as -> by (inversion Ha; reflexivity).
      eexists. split; [|apply (Hgo a Ha)].
      do 3 (eapply Run_trans; [|apply Run_turn]). apply Run_turn.
    + assert (a = VWatch (VPromise 0) None) as -> by (inversion Ha; reflexivity).
      eexists. split; [|apply (Hgo _ (conn_answered conn))].
      eapply Run_trans.
      { apply Run_deliver with (n := 0%nat) (call := connection_call st destination)
                               (o := conn); [reflexivity | apply conn_allowed]. }
      unfold deliver; cbn.
      do 3 (eapply Run_trans; [|apply Run_turn]). apply Run_turn.
  - unfold joined in Hj. rewrite conn_rejected in Hj. subst o.
    eexists. split; [apply Run_turn|]. rewrite turn_acked. reflexivity.
  - unfold joined in Hj. rewrite conn_rejected in Hj. subst o.
    rewrite rejected_fired in Hr.
    apply settled_stable with (o := Rejected e) in Hr; [|reflexivity].
    destruct Hr as (Hts & _). exists cfg'. split; [constructor|].
    unfold settled. now rewrite Hts.
Qed.
End Rejected.

(** *** The message *)

Abbreviation xfer_msg := (transfer_msg st d destination opts).




End TransferFacts.

Section TransferClaims.

Import LocalOrchAccount.
Context {imports : Imports}.
Variable hub : ChainHub.t.
Variable st : State.
Variable destination : ChainAddress.t.
Variable opts : option TransferOpts.t.
Variable t0 : Z.

Abbreviation the_runs := (Run onFulfilled run_op (collaborators hub)).
Abbreviation src := (ChainAddress.chainId (address st)).
Abbreviation dst := (ChainAddress.chainId destination).

Lemma string_app_nil_r (s : string) : (s ++ EmptyString)%string = s.
Proof. induction s as [|a s IH]; cbn; [reflexivity | now rewrite IH]. Qed.

Lemma contains_refl (s : string) : contains s s.
Proof. exists EmptyString, EmptyString. cbn. now rewrite string_app_nil_r. Qed.

Lemma connection_determined t o :
  collaborators hub t (connection_call st destination) o ->
  o = ChainHub.getConnectionInfo hub src dst.
Proof. intros H. exact H. Qed.

(** C2, as the code has it.  [transfer] of an amount that carries a
    denom, to a chain with no connection registered: the vow settles
    no other way than rejected with an error whose message contains
    "connection not found: <src><-><dst>"; the calls issued are never
    more than the two lookups, so the watcher that builds and sends the
    packet does not run and [sendThenWaitForAck] is not called; and
    from wherever the run stands it can go on to that rejection. *)
Theorem transfer_unknown_destination (d : DenomAmount.t) cfg :
  ChainHub.find hub src dst = None ->
  the_runs (start (W := Watcher) st t0 (transfer (DenomAmountArg d) destination opts)) cfg ->
  (forall o, settled cfg = Some o ->
     exists msg, o = Rejected (Error msg) /\ contains msg (ChainHub.not_found src dst))
  /\
  (forall c, In c (calls cfg) ->
     c = CGetConnectionInfo src dst \/ c = CGetTimeoutTimestampNS)
  /\
  (forall pt sender so, ~ In (CSendThenWaitForAck pt sender so) (calls cfg))
  /\
  (exists cfg', the_runs cfg cfg' /\
     settled cfg' = Some (Rejected (Error (ChainHub.not_found src dst)))).
Proof.
  intros Hfind Hrun.
  assert (Hconn : ChainHub.getConnectionInfo hub src dst
                  = Rejected (Error (ChainHub.not_found src dst))).
  { unfold ChainHub.getConnectionInfo. now rewrite Hfind. }
  apply (transfer_chain d opts t0 connection_determined) in Hrun.
  destruct (rejected_safe Hconn Hrun) as (Hsafe & Hcalls).
  split; [|split; [|split]].
  - intros o Ho. apply Hsafe in Ho. subst o. eexists. split; [reflexivity|].
    apply contains_refl.
  - exact Hcalls.
  - intros pt sender so Hin. apply Hcalls in Hin. destruct Hin; discriminate.
  - eapply rejected_live; [exact connection_determined | exact Hconn | | exact Hrun].
    intros t. reflexivity.
Qed.


End TransferClaims.

(* ================================================================== *)
(** ** One call and its watcher *)

Section OneCall.

Variables S W Op : Type.
Variable onFulfilled : W -> JsVal -> M S (Vow W).
Variable run_op : Op -> M S (Vow W).
Variable env : Z -> Call -> Outcome -> Prop.

Abbreviation one_runs := (Run onFulfilled run_op env).
Abbreviation one_turn := (turn onFulfilled).

(** A method that is [watch(E(x).m(), watcher)] whose watcher settles at
    once, turning outcome [o] into [f o]: the call is the only one ever
    issued, the vow settles with [f] of the reply and no other way, and
    is settled two turns after the reply is in. *)
Lemma one_call_outcome (f : Outcome -> Outcome) st call (w : option W) t0
    (cfg : Cfg S W) :
  (forall o ob t, fired onFulfilled st ob w o t = mkCfg (mkHeap st ob) [VNow (f o)] t) ->
  one_runs (mkCfg (mkHeap st ([] ++ [(call, None)]))
                  [VWatch (VPromise (List.length (@nil (Call * option Outcome)))) w] t0)
           cfg ->
  calls cfg = [call] /\
  kit (heap cfg) = st /\
  (forall o', settled cfg = Some o' ->
     exists o, nth_error (outbox (heap cfg)) 0 = Some (call, Some o) /\ o' = f o) /\
  (forall o, nth_error (outbox (heap cfg)) 0 = Some (call, Some o) ->
     settled (one_turn (one_turn cfg)) = Some (f o)).
Proof.
  intros Hf Hrun. apply watch_chain in Hrun; [|constructor].
  destruct Hrun as [(r & Hh & Ht & _) | (o & t & _ & Hr)].
  - destruct cfg as [h ts n]; cbn in Hh, Ht; subst h.
    split; [reflexivity|]. split; [reflexivity|]. split.
    + intros o'. unfold settled; cbn.
      destruct Ht as [-> | (o & _ & ->)]; discriminate.
    + intros o Ho. cbn in Ho. injection Ho as ->.
      destruct Ht as [-> | (o1 & Ho1 & ->)].
      * erewrite turn_watch_replied by reflexivity.
        rewrite turn_acked, Hf. reflexivity.
      * injection Ho1 as <-. rewrite turn_acked, Hf. reflexivity.
  - rewrite Hf in Hr.
    apply settled_stable with (o := f o) in Hr; [|reflexivity].
    destruct Hr as (Hts & Hc & Hk & Hrep).
    specialize (Hrep 0%nat _ _ eq_refl).
    split; [exact Hc|]. split; [exact Hk|]. split.
    + intros o'. unfold settled. rewrite Hts. intros [= <-]. eauto.
    + intros o1 Ho1. rewrite Hrep in Ho1. injection Ho1 as <-.
      destruct cfg as [h ts n]; cbn in Hts; subst ts. reflexivity.
Qed.

(** The same for one outcome, whatever the watcher does on the others,
    as long as the watchers only add to the outbox. *)
Lemma one_call_settles st call (w : option W) t0 (cfg : Cfg S W) c o o' :
  (forall w x, keeps grows (onFulfilled w x)) ->
  (forall ob t, fired onFulfilled st ob w o t = mkCfg (mkHeap st ob) [VNow o'] t) ->
  one_runs (mkCfg (mkHeap st ([] ++ [(call, None)]))
                  [VWatch (VPromise (List.length (@nil (Call * option Outcome)))) w] t0)
           cfg ->
  nth_error (outbox (heap cfg)) 0 = Some (c, Some o) ->
  calls cfg = [call] /\ c = call /\
  (forall o1, settled cfg = Some o1 -> o1 = o') /\
  settled (one_turn (one_turn cfg)) = Some o'.
Proof.
  intros Hgrow Hf Hrun Hreply. apply watch_chain in Hrun; [|constructor].
  destruct Hrun as [(r & Hh & Ht & _) | (o2 & t & _ & Hr)].
  - destruct cfg as [h ts n]; cbn in Hh, Ht, Hreply; subst h. cbn in Hreply.
    injection Hreply as <- ->.
    split; [reflexivity|]. split; [reflexivity|]. split.
    + intros o1. unfold settled; cbn.
      destruct Ht as [-> | (o1' & _ & ->)]; discriminate.
    + destruct Ht as [-> | (o1 & Ho1 & ->)].
      * erewrite turn_watch_replied by reflexivity.
        rewrite turn_acked, Hf. reflexivity.
      * injection Ho1 as <-. rewrite turn_acked, Hf. reflexivity.
  - assert (H0 : nth_error (outbox (heap (fired onFulfilled st ([] ++ [(call, Some o2)])
                                             w o2 t))) 0 = Some (call, Some o2)).
    { unfold fired.
      pose proof (fire_keeps onFulfilled (@grows_refl _) Hgrow w o2
                    (mkHeap st ([] ++ [(call, Some o2)]))) as [more Hm].
      destruct (fire onFulfilled w o2 _) as [v h']. cbn in Hm |- *.
      rewrite Hm. reflexivity. }
    pose proof (Run_replied 0 Hgrow Hr H0) as H1.
    rewrite H1 in Hreply. injection Hreply as <- <-.
    rewrite Hf in Hr.
    apply settled_stable with (o := o') in Hr; [|reflexivity].
    destruct Hr as (Hts & Hc & _ & _).
    split; [exact Hc|]. split; [reflexivity|]. split.
    + intros o1. unfold settled. rewrite Hts. now intros [= <-].
    + destruct cfg as [h ts n]; cbn in Hts; subst ts. reflexivity.
Qed.

(** No settlement before the reply. *)
Lemma one_call_replied st call (w : option W) t0 (cfg : Cfg S W) o1 :
  (forall w x, keeps grows (onFulfilled w x)) ->
  one_runs (mkCfg (mkHeap st ([] ++ [(call, None)]))
                  [VWatch (VPromise (List.length (@nil (Call * option Outcome)))) w] t0)
           cfg ->
  settled cfg = Some o1 ->
  exists o, nth_error (outbox (heap cfg)) 0 = Some (call, Some o).
Proof.
  intros Hgrow Hrun Hset. apply watch_chain in Hrun; [|constructor].
  destruct Hrun as [(r & Hh & Ht & _) | (o2 & t & _ & Hr)].
  - unfold settled in Hset.
    destruct Ht as [Ht | (o & _ & Ht)]; rewrite Ht in Hset; discriminate.
  - exists o2. eapply (Run_replied 0 Hgrow Hr).
    unfold fired.
    pose proof (fire_keeps onFulfilled (@grows_refl _) Hgrow w o2
                  (mkHeap st ([] ++ [(call, Some o2)]))) as [more Hm].
    destruct (fire onFulfilled w o2 _) as [v h']. cbn in Hm |- *.
    rewrite Hm. reflexivity.
Qed.

(** With no vow handed out nothing happens: no call is issued. *)
Lemma Run_idle (c0 c : Cfg S W) :
  tasks c0 = [] -> one_runs c0 c -> tasks c = [] /\ calls c = calls c0.
Proof.
  intros H0 Hrun.
  induction Hrun as [|c c' ev _ IH Hev Hst]; [auto|].
  destruct IH as (Ht & Hc).
  destruct c as [h ts n]; cbn in Ht; subst ts.
  inversion Hst as [cfg op | cfg k call' o' Hn He | cfg t Hle | cfg]; subst.
  - elim Hev. exact I.
  - unfold deliver, calls in *; cbn in *. now rewrite set_reply_calls.
  - unfold advance; cbn. auto.
  - unfold turn; cbn. auto.
Qed.

(** *** Vows without watchers *)

(** A turn of a vow in which no watcher waits touches nothing, and no
    watcher waits in what it leaves. *)
Lemma reduce_plain (v : Vow W) (h : Heap S) :
  plain v = true ->
  snd (reduce onFulfilled v h) = h /\ plain (fst (reduce onFulfilled v h)) = true.
Proof.
  revert h. induction v as [o|c|v w IH|vs IH] using Vow_nested_ind; intros h Hp.
  - split; reflexivity.
  - cbn. destruct (nth_error (outbox h) c) as [[c' [o|]]|]; split; reflexivity.
  - destruct w as [w|]; [destruct v; discriminate Hp|].
    assert (Hv : plain v = true) by (destruct v; exact Hp).
    specialize (IH h Hv). rewrite (reduce_watch onFulfilled).
    destruct v as [o|c|v' w'|vs]; cbv iota beta.
    + destruct o; split; reflexivity.
    + destruct (reduce onFulfilled (VPromise c) h) as [v'' h']. exact IH.
    + destruct (reduce onFulfilled (VWatch v' w') h) as [v'' h']. exact IH.
    + destruct (reduce onFulfilled (VAll vs) h) as [v'' h']. exact IH.
  - cbn [reduce].
    destruct (first_rejected vs); [split; reflexivity|].
    destruct (all_fulfilled vs); [split; reflexivity|].
    cbn [plain] in Hp.
    match goal with |- context [let (_, _) := ?e vs h in _] =>
      assert (H : snd (e vs h) = h /\ forallb plain (fst (e vs h)) = true);
      [|destruct (e vs h); exact H] end.
    clear -IH Hp. revert h.
    induction IH as [|v vs Hv _ IHvs]; intros h; [split; reflexivity|].
    cbn in Hp. apply andb_true_iff in Hp. destruct Hp as [Hp1 Hp2].
    specialize (Hv h Hp1). destruct (reduce onFulfilled v h) as [v' h1].
    cbn in Hv. destruct Hv as [-> Hv'].
    specialize (IHvs Hp2 h).
    match goal with |- context [?e vs h] => destruct (e vs h) as [vs' h2] end.
    cbn in *. destruct IHvs as [-> Hvs']. split; [reflexivity|].
    now rewrite Hv', Hvs'.
Qed.

(** *** Invariants of a kit in use *)

Variable Inv : Heap S -> Prop.
Hypothesis Inv_watchers : forall w x h, Inv h -> Inv (snd (onFulfilled w x h)).
Hypothesis Inv_methods : forall op h, Inv h -> Inv (snd (run_op op h)).
Hypothesis Inv_replies :
  forall h k o, Inv h -> Inv (mkHeap (kit h) (set_reply k o (outbox h))).

Lemma Reach_invariant (c0 c : Cfg S W) :
  Inv (heap c0) -> Reach onFulfilled run_op env c0 c -> Inv (heap c).
Proof.
  intros H0 Hreach.
  induction Hreach as [|c c' ev _ IH Hst]; [exact H0|].
  inversion Hst as [cfg op | cfg k' call' o' Hn He | cfg t Hle | cfg]; subst.
  - unfold invoke. specialize (Inv_methods op IH).
    destruct (run_op op (heap c)) as [[v|e] h']; exact Inv_methods.
  - unfold deliver; cbn. apply Inv_replies. exact IH.
  - exact IH.
  - refine (turn_keeps (P := fun h h' => Inv h -> Inv h') onFulfilled _ _ _ c IH).
    + auto.
    + auto.
    + intros w x h. apply Inv_watchers.
Qed.


End OneCall.

(* ================================================================== *)
(** ** The account kit: the holder's other methods *)

Section HolderFacts.

Import LocalOrchAccount.
Context {imports : Imports}.
Variable env : Z -> Call -> Outcome -> Prop.

Abbreviation holder_runs := (Run onFulfilled run_op env).
Abbreviation holder_turn := (turn onFulfilled).
Abbreviation holder_start := (start (W := Watcher)).
Abbreviation holder_reaches := (Reach onFulfilled run_op env).

Lemma watchers_grow w x : keeps grows (onFulfilled w x).
Proof.
  apply account_watchers_keep;
    [apply grows_refl | apply grows_trans | apply keeps_send_call_grows].
Qed.

Lemma mapM_amountToCoin_heap (amounts : list AmountArg) (h : Heap State) :
  snd (mapM amountToCoin amounts h) = h.
Proof.
  revert h. induction amounts as [|a amounts IH]; intros h; [reflexivity|].
  cbn. unfold bind. destruct a as [e|d]; cbn; [reflexivity|].
  specialize (IH h). destruct (mapM amountToCoin amounts h) as [[cs|e] h']; cbn in *;
    congruence.
Qed.

Lemma mapM_amountToCoin_all_denoms (amounts : list AmountArg) (h : Heap State) :
  forallb has_denom amounts = true ->
  exists coins, mapM amountToCoin amounts h = (Normal coins, h).
Proof.
  induction amounts as [|a amounts IH]; cbn; [intros _; exists []; reflexivity|].
  destruct a as [e|d]; cbn; [discriminate|].
  intros H. destruct (IH H) as (cs & Hcs). unfold bind. cbn. rewrite Hcs.
  eexists. reflexivity.
Qed.

(** X1.  [send(toAccount, amount)] is [sendAll(toAccount, [amount])]:
    on every heap the two hand back the same vow and leave the same
    heap, whether the amount carries a denom or a brand. *)
Theorem send_is_sendAll_of_one
    (toAccount : ChainAddress.t) (amount : AmountArg) (h : Heap State) :
  send toAccount amount h = sendAll toAccount [amount] h.
Proof. destruct amount as [e|d]; reflexivity. Qed.

(** X2.  The holder throws at its interface guard and nowhere else.
    A call whose arguments [HolderI] lets through hands back a vow -- a
    failure that the method finds at once is a vow already rejected --
    leaves the durable state as it was and the calls issued before in
    place.  A call whose arguments [HolderI] turns away throws the
    guard's error before the method runs: no call is issued, nothing is
    touched.  That happens to [delegate], [undelegate] and [withdraw] of
    what is no amount, to [deposit] of what is no payment, to
    [executeTx] of a message that is no record and to [monitorTransfers]
    of what is no remotable, and to no other call of the methods
    modelled. *)
Theorem holder_throws_only_at_guard (op : Op) (h : Heap State) :
  (HolderI op = true ->
   exists v h', run_op op h = (Normal v, h') /\ kit h' = kit h /\ grows h h')
  /\
  (HolderI op = false ->
   run_op op h = (Throw (GuardError "holder" (method_name op)), h))
  /\
  (HolderI op = false ->
   match op with
   | OpDelegate _ a | OpUndelegate _ a => matches AmountShape (amount_val a) = false
   | OpDeposit payment => matches PaymentShape payment = false
   | OpWithdraw amount => matches AmountShape amount = false
   | OpExecuteTx messages =>
       existsb (fun m => negb (matches MRecord (msg_val m))) messages = true
   | OpMonitorTransfers tap => matches MRemotable tap = false
   | _ => False
   end).
Proof.
  split; [|split].
  - intros Hadm.
    assert (Hk : kit (snd (run_op op h)) = kit h).
    { apply (account_methods_keep (P := same_kit));
        [apply same_kit_refl | apply same_kit_trans | apply keeps_send_call_kit]. }
    assert (Hg : grows h (snd (run_op op h))).
    { apply (account_methods_keep (P := grows));
        [apply grows_refl | apply grows_trans | apply keeps_send_call_grows]. }
    assert (Hn : exists v, fst (run_op op h) = Normal v).
    { unfold run_op. rewrite Hadm. clear Hadm Hk Hg.
      destruct op as [denomArg| |v a|v a|p|a|ms|to a|to amts|a d o|a m|s o|p|tap];
        cbn; try (eexists; reflexivity).
      - destruct denomArg; eexists; reflexivity.
      - destruct a; eexists; reflexivity.
      - unfold sendAll, asVow, bind.
        destruct (mapM amountToCoin amts h) as [[cs|e] h']; eexists; reflexivity.
      - unfold transfer, asVow. destruct a as [a|d']; [eexists; reflexivity|].
        unfold bind; cbn.
        destruct (opt_timeoutTimestamp o); [eexists; reflexivity|].
        destruct (opt_timeoutHeight o); eexists; reflexivity. }
    destruct Hn as (v & Hv).
    destruct (run_op op h) as [c h'] eqn:Hrun. cbn in *. subst c. eauto.
  - intros Hadm. unfold run_op. rewrite Hadm. reflexivity.
  - destruct op as [denomArg| |v a|v a|p|a|ms|to a|to amts|a d o|a m|s o|p|tap];
      try discriminate.
    5:{ change (HolderI (OpExecuteTx ms))
          with (forallb (matches MRecord) (map msg_val ms) && true).
        rewrite andb_true_r. intros H.
        induction ms as [|m ms IH]; cbn [map forallb existsb] in *; [discriminate|].
        destruct (matches MRecord (msg_val m)); cbn [andb negb orb] in *; auto. }
    all: cbn; rewrite ?andb_true_r; intros H; exact H.
Qed.

(** *** The methods that watch one call *)

Lemma watched_start st op :
  watches_first_call op = true ->
  (forall t0, holder_start st t0 (run_op op) = mkCfg (mkHeap st []) [] t0)
  \/
  exists call w, forall t0,
    holder_start st t0 (run_op op)
    = mkCfg (mkHeap st ([] ++ [(call, None)]))
            [VWatch (VPromise (List.length (@nil (Call * option Outcome)))) w] t0.
Proof.
  intros Hop. unfold run_op.
  destruct (HolderI op); [right | left; reflexivity].
  destruct op as [denomArg| |v a|v a|p|a|ms|to a|to amts|a d o|a m|s o|p|tap];
    cbn in Hop |- *; try discriminate;
    try (do 2 eexists; intros t0; reflexivity).
  - destruct denomArg; do 2 eexists; intros t0; reflexivity.
  - destruct a as [a|d]; [discriminate|].
    do 2 eexists; intros t0; reflexivity.
  - destruct (mapM_amountToCoin_all_denoms amts (mkHeap st []) Hop) as (cs & Hcs).
    do 2 eexists. intros t0. unfold start, sendAll, asVow, bind. rewrite Hcs.
    reflexivity.
Qed.

(** X3.  The holder's methods that issue one call and watch it --
    [getBalance], [delegate], [undelegate], [deposit], [withdraw],
    [executeTx], [send] and [sendAll] of denom amounts,
    [sendThenWaitForAck], [matchFirstPacket], [monitorTransfers]: when
    the collaborator rejects that call, the vow rejects with the same
    error, no other way, two turns after the rejection at the latest;
    and no further call is made -- after a rejected [undelegate] the
    timer is not asked. *)
Theorem rejection_surfaces
    (st : State) (t0 : Z) (op : Op) (cfg : Cfg State Watcher) (c : Call) (e : JsError) :
  watches_first_call op = true ->
  holder_runs (holder_start st t0 (run_op op)) cfg ->
  nth_error (outbox (heap cfg)) 0 = Some (c, Some (Rejected e)) ->
  (forall o, settled cfg = Some o -> o = Rejected e) /\
  settled (holder_turn (holder_turn cfg)) = Some (Rejected e) /\
  calls cfg = [c].
Proof.
  intros Hop Hrun Hreply.
  destruct (watched_start st op Hop) as [Hidle | (call & w & Hstart)].
  { exfalso. rewrite Hidle in Hrun.
    apply Run_idle in Hrun; [|reflexivity]. destruct Hrun as (_ & Hc).
    apply (map_nth_error fst) in Hreply. fold (calls cfg) in Hreply.
    rewrite Hc in Hreply. discriminate Hreply. }
  rewrite Hstart in Hrun.
  assert (Hf : forall ob t, fired onFulfilled st ob w (Rejected e) t
                            = mkCfg (mkHeap st ob) [VNow (Rejected e)] t)
    by reflexivity.
  destruct (one_call_settles watchers_grow Hf Hrun Hreply) as (Hc & -> & Hs & Ht).
  auto.
Qed.

Lemma forwarded_start st op call t0 :
  forwarded_call st op = Some call ->
  holder_start st t0 (run_op op)
  = mkCfg (mkHeap st ([] ++ [(call, None)]))
          [VWatch (VPromise (List.length (@nil (Call * option Outcome)))) None] t0.
Proof.
  unfold forwarded_call, run_op. destruct (HolderI op); [|discriminate].
  destruct op; cbn; try discriminate; intros [= <-]; reflexivity.
Qed.

(** X4.  [withdraw], [executeTx], [sendThenWaitForAck],
    [matchFirstPacket] and [monitorTransfers] forward their arguments,
    as given, to the kit's own account or packet tools, in one call and
    no more; the vow settles with the reply to that call -- fulfilment
    or rejection, unchanged -- and with nothing else, and is settled two
    turns after the reply is in. *)
Theorem forwarded_call_settles_with_reply
    (st : State) (t0 : Z) (op : Op) (call : Call) (cfg : Cfg State Watcher) :
  forwarded_call st op = Some call ->
  holder_runs (holder_start st t0 (run_op op)) cfg ->
  calls cfg = [call] /\
  (forall o, settled cfg = Some o ->
     nth_error (outbox (heap cfg)) 0 = Some (call, Some o)) /\
  (forall o, nth_error (outbox (heap cfg)) 0 = Some (call, Some o) ->
     settled (holder_turn (holder_turn cfg)) = Some o).
Proof.
  intros Hop Hrun. rewrite (forwarded_start _ _ t0 Hop) in Hrun.
  apply (one_call_outcome (fun o => o)) in Hrun.
  - destruct Hrun as (Hc & _ & Hs & Ht). split; [exact Hc|]. split; [|exact Ht].
    intros o Ho. destruct (Hs o Ho) as (o1 & H1 & ->). exact H1.
  - intros o ob t. destruct o; reflexivity.
Qed.

(** X5.  [deposit] issues one call, the deposit of the payment into
    the kit's own account; the vow settles only once the bridge has
    answered: with [undefined] on a fulfilment, whatever its value, and
    with the bridge's own error on a rejection. *)
Theorem deposit_resolves_void
    (st : State) (t0 : Z) (payment : JsVal) (cfg : Cfg State Watcher) :
  holder_runs (holder_start st t0 (deposit payment)) cfg ->
  calls cfg = [CDeposit (account st) payment] /\
  (forall o, settled cfg = Some o ->
     exists r, nth_error (outbox (heap cfg)) 0
                 = Some (CDeposit (account st) payment, Some r) /\
               o = void_result r) /\
  (forall r, nth_error (outbox (heap cfg)) 0
               = Some (CDeposit (account st) payment, Some r) ->
     settled (holder_turn (holder_turn cfg)) = Some (void_result r)).
Proof.
  intros Hrun.
  change (holder_start st t0 (deposit payment))
    with (mkCfg (mkHeap st ([] ++ [(CDeposit (account st) payment, None)]))
                [VWatch (VPromise (List.length (@nil (Call * option Outcome))))
                        (Some returnVoidWatcher)] t0) in Hrun.
  apply (one_call_outcome void_result) in Hrun.
  - destruct Hrun as (Hc & _ & Hs & Ht). auto.
  - intros o ob t. apply returnVoid_fired.
Qed.

(** X6.  [delegate] issues one call and no more: the [executeTx] of
    one [MsgDelegate] whose amount is the value's decimal digits in
    ubld -- whatever the brand of the amount -- with the validator as
    given and the kit's own address as delegator.  Its vow is not
    settled before the bridge has answered, and then with what
    [extractFirstResultWatcher] makes of the answer. *)
Theorem delegate_stakes_ubld
    (st : State) (t0 : Z) (validatorAddress : string) (ertpAmount : Amount.t)
    (cfg : Cfg State Watcher) :
  holder_runs (holder_start st t0 (delegate validatorAddress ertpAmount)) cfg ->
  calls cfg
    = [CExecuteTx (account st)
         [MsgDelegate (Coin.make "ubld" (String_of_bigint (Amount.value ertpAmount)))
                      validatorAddress (ChainAddress.value (address st))]] /\
  (forall o, settled cfg = Some o ->
     exists c r, nth_error (outbox (heap cfg)) 0 = Some (c, Some r) /\
                 o = first_result r).
Proof.
  intros Hrun. rewrite delegate_start in Hrun.
  apply (one_call_outcome first_result) in Hrun.
  - destruct Hrun as (Hc & _ & Hs & _). split; [exact Hc|].
    intros o Ho. destruct (Hs o Ho) as (r & Hr & ->). eauto.
  - intros o ob t. apply extractFirstResult_fired.
Qed.

(** X7.  [transfer] of an ERTP amount asks nobody: the vow it hands
    back is rejected with "ERTP Amounts not yet supported" from the
    start, and in the whole run no call is issued -- not to the
    connection directory, not to the timestamp helper, not to the packet
    tools. *)
Theorem transfer_of_brand_amount_asks_nobody
    (st : State) (t0 : Z) (a : Amount.t) (destination : ChainAddress.t)
    (opts : option TransferOpts.t) (cfg : Cfg State Watcher) :
  holder_runs (holder_start st t0 (transfer (ErtpAmount a) destination opts)) cfg ->
  settled cfg = Some (Rejected (Error "ERTP Amounts not yet supported")) /\
  calls cfg = [] /\
  kit (heap cfg) = st.
Proof.
  intros Hrun.
  apply settled_stable
    with (o := Rejected (Error "ERTP Amounts not yet supported")) in Hrun;
    [|reflexivity].
  destruct Hrun as (Hts & Hc & Hk & _).
  unfold settled. rewrite Hts. auto.
Qed.

(** *** getBalance *)

Lemma getBalance_start st t0 denomArg :
  holder_start st t0 (getBalance denomArg)
  = mkCfg (mkHeap st ([] ++ [(CGetBalance (account st) (fst (balance_query denomArg)),
                               None)]))
          [VWatch (VPromise (List.length (@nil (Call * option Outcome))))
                  (Some (getBalanceWatcher (snd (balance_query denomArg))))] t0.
Proof. destruct denomArg; reflexivity. Qed.

(** What [getBalanceWatcher] makes of the settled balance query. *)
Lemma getBalance_fired st denom o :
  exists o',
    (forall ob t, fired onFulfilled st ob (Some (getBalanceWatcher denom)) o t
                  = mkCfg (mkHeap st ob) [VNow o'] t) /\
    (forall x, o' = Fulfilled x ->
       exists reply v,
         o = Fulfilled reply /\
         matches AmountShape reply = true /\
         get_prop reply "value" = Normal v /\
         x = VRecord [("denom"%string, VString denom); ("value"%string, v)] /\
         matches DenomAmountShape x = true).
Proof.
  destruct o as [reply|e].
  2:{ exists (Rejected e). split; [reflexivity | discriminate]. }
  unfold fired, fire, onFulfilled, getBalanceWatcher_onFulfilled, guarded.
  destruct (matches AmountShape reply) eqn:Hshape.
  2:{ eexists (Rejected _). split; [reflexivity | discriminate]. }
  unfold bind, lift.
  destruct (get_prop reply "value") as [v|e] eqn:Hv.
  2:{ exists (Rejected e). split; [reflexivity | discriminate]. }
  destruct (matches DenomAmountShape
              (VRecord [("denom"%string, VString denom); ("value"%string, v)])) eqn:Hres.
  - eexists (Fulfilled _). split; [reflexivity|].
    intros x [= <-]. exists reply, v. auto.
  - eexists (Rejected _). split; [reflexivity | discriminate].
Qed.

(** X8.  [getBalance] asks the kit's own account for one balance: of
    the [null] brand when its argument is a string, of the argument
    itself otherwise.  When its vow is fulfilled, the bank has fulfilled
    the query with an amount matching [AmountShape], and the vow's value
    is the record [{ denom, value }] of that amount's value under the
    denom asked for -- under 'FIXME' when the argument was no string --
    and matches [DenomAmountShape]. *)
Theorem getBalance_wraps_reply
    (st : State) (t0 : Z) (denomArg : JsVal) (cfg : Cfg State Watcher) (x : JsVal) :
  holder_runs (holder_start st t0 (getBalance denomArg)) cfg ->
  settled cfg = Some (Fulfilled x) ->
  calls cfg = [CGetBalance (account st) (fst (balance_query denomArg))] /\
  exists reply v,
    nth_error (outbox (heap cfg)) 0
      = Some (CGetBalance (account st) (fst (balance_query denomArg)),
              Some (Fulfilled reply)) /\
    matches AmountShape reply = true /\
    get_prop reply "value" = Normal v /\
    x = VRecord [("denom"%string, VString (snd (balance_query denomArg)));
                 ("value"%string, v)] /\
    matches DenomAmountShape x = true.
Proof.
  intros Hrun Hset. rewrite getBalance_start in Hrun.
  destruct (one_call_replied watchers_grow Hrun Hset) as (o & Ho).
  destruct (getBalance_fired st (snd (balance_query denomArg)) o) as (o' & Hf & Hval).
  destruct (one_call_settles watchers_grow Hf Hrun Ho) as (Hc & _ & Hs & _).
  split; [exact Hc|].
  specialize (Hs _ Hset). symmetry in Hs.
  destruct (Hval _ Hs) as (reply & v & -> & H1 & H2 & H3 & H4).
  exists reply, v. auto.
Qed.

(** *** undelegate *)

(** What [undelegateWatcher] makes of the settled [executeTx]: it
    rejects, leaving the outbox as it is, unless the answer carries a
    completion time. *)
Lemma undelegate_fired_cases st ob o t :
  (exists e, fired onFulfilled st ob (Some undelegateWatcher) o t
             = mkCfg (mkHeap st ob) [VNow (Rejected e)] t)
  \/ (exists reply T, o = Fulfilled reply /\ carries_completionTime reply T).
Proof.
  destruct o as [reply|e]; [|left; eexists; reflexivity].
  unfold fired, fire, onFulfilled, undelegateWatcher_onFulfilled, guarded.
  destruct (matches (PArr [MSplitRecord [("completionTime"%string, TimestampProtoShape)]])
                    reply) eqn:Hm; [|left; eexists; reflexivity].
  destruct reply as [ | | | | | |xs| | ]; try discriminate Hm.
  destruct xs as [|x [|y xs]]; try discriminate Hm.
  2:{ cbn in Hm. rewrite andb_false_r in Hm. discriminate. }
  destruct x as [ | | | | | | |fs| ]; try discriminate Hm.
  cbn in Hm. rewrite !andb_true_r in Hm.
  destruct (lookup "completionTime" fs) as [ct|] eqn:Hct; [|discriminate].
  unfold bind, lift. cbn [get_index nth get_prop]. rewrite Hct.
  destruct (get_prop ct "seconds") as [seconds|e] eqn:Hsec;
    [|left; eexists; reflexivity].
  destruct (BigInt seconds) as [T|e] eqn:Hbig; [|left; eexists; reflexivity].
  right. exists (VArray [VRecord fs]), T. split; [reflexivity|].
  exists fs, ct, seconds. auto.
Qed.

(** X9.  [undelegate] never asks the timer on its own account: the
    calls of a run are the one [executeTx] of the [MsgUndelegate] -- the
    amount in ubld whatever its brand, the kit's own address as
    delegator -- and, after it, at most one [wakeAt]; a [wakeAt] is there
    only when the bridge has fulfilled with an answer that carries a
    completion time, and it is for that time plus [maxClockSkew]. *)
Theorem undelegate_asks_timer_once
    (st : State) (t0 : Z) (validatorAddress : string) (ertpAmount : Amount.t)
    (cfg : Cfg State Watcher) :
  holder_runs (holder_start st t0 (undelegate validatorAddress ertpAmount)) cfg ->
  calls cfg = [undelegate_call st validatorAddress ertpAmount]
  \/
  exists reply T,
    nth_error (outbox (heap cfg)) 0
      = Some (undelegate_call st validatorAddress ertpAmount, Some (Fulfilled reply)) /\
    carries_completionTime reply T /\
    calls cfg = [undelegate_call st validatorAddress ertpAmount;
                 CWakeAt (T + maxClockSkew)].
Proof.
  intros Hrun. rewrite undelegate_start in Hrun.
  fold (undelegate_call st validatorAddress ertpAmount) in Hrun.
  apply watch_chain in Hrun; [|constructor].
  destruct Hrun as [(r & Hh & _) | (o & t & _ & Hr)].
  { left. unfold calls. rewrite Hh. reflexivity. }
  destruct (undelegate_fired_cases st
              ([] ++ [(undelegate_call st validatorAddress ertpAmount, Some o)]) o t)
    as [(e & Hf) | (reply & T & -> & Hgood)].
  { left. rewrite Hf in Hr.
    apply settled_stable with (o := Rejected e) in Hr; [|reflexivity].
    destruct Hr as (_ & Hc & _). rewrite Hc. reflexivity. }
  right. exists reply, T. rewrite (undelegate_fired _ _ _ Hgood) in Hr.
  apply watch_chain in Hr; [|repeat constructor; discriminate].
  destruct Hr as [(r & Hh & _) | (o1 & t1 & _ & Hr)].
  - unfold calls. rewrite Hh. split; [reflexivity|]. split; [exact Hgood | reflexivity].
  - rewrite returnVoid_fired in Hr.
    apply settled_stable with (o := void_result o1) in Hr; [|reflexivity].
    destruct Hr as (_ & Hc & _ & Hrep).
    split; [exact (Hrep 0%nat _ _ eq_refl)|]. split; [exact Hgood | exact Hc].
Qed.

(** *** The calls of a kit *)

Lemma own_heap_send st0 (h : Heap State) c :
  own_heap st0 h -> own_call st0 c = true ->
  own_heap st0 (mkHeap (kit h) (outbox h ++ [(c, None)])).
Proof.
  intros [Hk Hc] Hown. split; [exact Hk|]. cbn.
  rewrite map_app, forallb_app, Hc. cbn. now rewrite Hown.
Qed.

(** A watcher leaves the heap as it is, or adds one call to it: a
    wake-up, or a packet handed to the kit's own packet tools. *)
Lemma watcher_adds w x (h : Heap State) :
  snd (onFulfilled w x h) = h \/
  exists c, snd (onFulfilled w x h) = mkHeap (kit h) (outbox h ++ [(c, None)]) /\
            ((exists t, c = CWakeAt t) \/
             (exists sender, c = CSendThenWaitForAck (packetTools (kit h)) sender VUndefined)).
Proof.
  destruct w as [|ctx| | |denom]; cbn [onFulfilled].
  - unfold undelegateWatcher_onFulfilled, guarded.
    destruct (matches _ x); [|left; reflexivity].
    unfold bind, lift.
    destruct (get_index x 0) as [r0|e]; [|left; reflexivity].
    destruct (get_prop r0 "completionTime") as [ct|e]; [|left; reflexivity].
    destruct (get_prop ct "seconds") as [secs|e]; [|left; reflexivity].
    destruct (BigInt secs) as [T|e]; [|left; reflexivity].
    right. eexists. split; [reflexivity|]. left. eauto.
  - unfold transferWatcher_onFulfilled, guarded.
    destruct (matches _ x); [|left; reflexivity].
    unfold bind, lift.
    destruct (get_index x 0) as [info|e]; [|left; reflexivity].
    destruct (get_index x 1) as [ts|e]; [|left; reflexivity].
    destruct (get_prop info "transferChannel") as [tc|e]; [|left; reflexivity].
    destruct (get_prop tc "portId") as [portId|e]; [|left; reflexivity].
    destruct (get_prop tc "channelId") as [channelId|e]; [|left; reflexivity].
    right. eexists. split; [reflexivity|]. right. eauto.
  - left. unfold extractFirstResultWatcher_onFulfilled, guarded.
    destruct (matches _ x); [|reflexivity].
    unfold bind, lift.
    destruct x as [ | | | | | |xs| | ]; try reflexivity.
    destruct xs as [|x1 [|x2 xs]]; reflexivity.
  - left. reflexivity.
  - left. unfold getBalanceWatcher_onFulfilled, guarded.
    destruct (matches AmountShape x); [|reflexivity].
    unfold bind, lift.
    destruct (get_prop x "value") as [v|e]; [|reflexivity].
    destruct (matches DenomAmountShape _); reflexivity.
Qed.

Lemma own_heap_watchers st0 w x (h : Heap State) :
  own_heap st0 h -> own_heap st0 (snd (onFulfilled w x h)).
Proof.
  intros Hinv. pose proof Hinv as [Hk _].
  destruct (watcher_adds w x h) as [-> | (c & -> & [(t & ->) | (sender & ->)])].
  - exact Hinv.
  - apply own_heap_send; [exact Hinv | reflexivity].
  - apply own_heap_send; [exact Hinv|]. cbn. rewrite Hk. apply String.eqb_refl.
Qed.

Lemma own_heap_methods st0 op (h : Heap State) :
  own_heap st0 h -> own_heap st0 (snd (run_op op h)).
Proof.
  intros Hinv. pose proof Hinv as [Hk _].
  assert (Hacc : String.eqb (account (kit h)) (account st0) = true)
    by (rewrite Hk; apply String.eqb_refl).
  assert (Hpt : String.eqb (packetTools (kit h)) (packetTools st0) = true)
    by (rewrite Hk; apply String.eqb_refl).
  assert (Hchain : String.eqb (ChainAddress.chainId (address (kit h)))
                              (ChainAddress.chainId (address st0)) = true)
    by (rewrite Hk; apply String.eqb_refl).
  unfold run_op. destruct (HolderI op); [|exact Hinv].
  destruct op as [denomArg| |v a|v a|p|a|ms|to a|to amts|a d o|a m|s o|p|tap];
    cbn [run_body];
    try exact Hinv;
    try (apply own_heap_send; [exact Hinv | assumption]).
  - destruct denomArg; apply own_heap_send; (exact Hinv || assumption).
  - destruct a as [a|d]; [exact Hinv|].
    apply own_heap_send; [exact Hinv | assumption].
  - unfold sendAll, asVow, bind.
    pose proof (mapM_amountToCoin_heap amts h) as Hsame.
    destruct (mapM amountToCoin amts h) as [[cs|e] h']; cbn in Hsame; subst h';
      [|exact Hinv].
    apply own_heap_send; [exact Hinv | assumption].
  - destruct a as [a|d']; [exact Hinv|].
    unfold transfer, asVow, bind; cbn.
    destruct (opt_timeoutTimestamp o); cbn;
      [apply own_heap_send; [exact Hinv | assumption]|].
    destruct (opt_timeoutHeight o); cbn;
      [apply own_heap_send; [exact Hinv | assumption]|].
    apply (own_heap_send (h := mkHeap (kit h) (outbox h ++ [_])));
      [apply own_heap_send; [exact Hinv | assumption] | reflexivity].
Qed.

Lemma own_heap_replies st0 (h : Heap State) k o :
  own_heap st0 h -> own_heap st0 (mkHeap (kit h) (set_reply k o (outbox h))).
Proof.
  intros [Hk Hc]. split; [exact Hk|]. cbn. now rewrite set_reply_calls.
Qed.

(** X10.  A kit in use -- any methods of the holder invoked, in any
    order, any replies, any turns -- only ever calls its own
    collaborators: every call to a localchain account is to the account
    the kit was made with, every call to packet tools to its own, every
    connection lookup is from the chain of its own address, and
    agoricNames is never asked. *)
Theorem kit_calls_its_own_collaborators
    (account0 : string) (address0 : ChainAddress.t) (storageNode : string)
    (t0 : Z) (cfg : Cfg State Watcher) :
  holder_reaches (mkCfg (init account0 address0 storageNode) [] t0) cfg ->
  forallb (own_call (kit (init account0 address0 storageNode))) (calls cfg) = true.
Proof.
  intros Hreach.
  refine (proj2 (Reach_invariant
                   (own_heap (kit (init account0 address0 storageNode)))
                   _ _ _ _ Hreach)).
  - intros w x h. apply own_heap_watchers.
  - intros op h. apply own_heap_methods.
  - intros h k o. apply own_heap_replies.
  - split; [reflexivity|]. cbn. now rewrite String.eqb_refl.
Qed.

(** *** transfer: who is asked for the timeout *)



End HolderFacts.

(* ================================================================== *)
(** ** The chain facade: its state *)

Section FacadeState.

Import LocalChainFacade.
Variable env : Z -> Call -> Outcome -> Prop.

Abbreviation cache_runs := (Run onFulfilled run_op env).
Abbreviation cache_start := (start (W := Watcher)).

Lemma facade_heap_watchers info w x (h : Heap State) :
  facade_heap info h -> facade_heap info (snd (onFulfilled w x h)).
Proof.
  intros [Hinfo Hassets]. destruct w.
  unfold onFulfilled, vbankAssetValuesWatcher_onFulfilled, guarded.
  destruct (matches (MArrayOf MRecord) x) eqn:Hm; [|split; assumption].
  cbn. split; [exact Hinfo|]. right.
  destruct x as [ | | | | | |xs| | ]; try discriminate Hm.
  exists xs. split; [reflexivity | exact Hm].
Qed.

Lemma facade_heap_methods info op (h : Heap State) :
  facade_heap info h -> facade_heap info (snd (run_op op h)).
Proof.
  intros Hinv. destruct op; cbn [run_op]; try exact Hinv.
  unfold getVBankAssetInfo, asVow, bind, get_state.
  destruct (truthy (vbankAssets (kit h))); exact Hinv.
Qed.

(** X12.  A facade in use -- any of its methods invoked, any replies,
    any turns: [state.localChainInfo] is the chain info it was made
    with, so that [getChainInfo] hands back the watch of that info,
    asking nobody and touching nothing, as [query] hands back its
    rejection "not yet implemented"; and [state.vbankAssets] is
    [undefined] or an array of records, what the watcher's guard let
    through. *)
Theorem facade_state_is_kept (info : JsVal) (t0 : Z) (cfg : Cfg State Watcher) :
  Reach onFulfilled run_op env (mkCfg (mkHeap (init info) []) [] t0) cfg ->
  localChainInfo (kit (heap cfg)) = info /\
  getChainInfo (heap cfg) = (Normal (VWatch (VNow (Fulfilled info)) None), heap cfg) /\
  query (heap cfg) = (Normal (VNow (Rejected (Error "not yet implemented"))), heap cfg) /\
  (vbankAssets (kit (heap cfg)) = VUndefined \/
   exists xs, vbankAssets (kit (heap cfg)) = VArray xs /\
              forallb (matches MRecord) xs = true).
Proof.
  intros Hreach.
  assert (Hinv : facade_heap info (heap cfg)).
  { refine (Reach_invariant (facade_heap info) _ _ _ _ Hreach).
    - intros w x h. apply facade_heap_watchers.
    - intros op h. apply facade_heap_methods.
    - intros h k o H. exact H.
    - split; [reflexivity | left; reflexivity]. }
  destruct Hinv as [Hinfo Hassets].
  split; [exact Hinfo|]. split; [|split; [reflexivity | exact Hassets]].
  unfold getChainInfo, bind, get_state, watch_, ret, value. cbn. now rewrite Hinfo.
Qed.

(** The watcher on a settled [values()] that leaves the vow rejected:
    the call was rejected, or its answer was no array of records; the
    state is as before. *)
Lemma vbankAssetValues_rejected st ob o t cfg e :
  fired onFulfilled st ob (Some vbankAssetValuesWatcher) o t = cfg ->
  tasks cfg = [VNow (Rejected e)] ->
  cfg = mkCfg (mkHeap st ob) [VNow (Rejected e)] t /\
  (o = Rejected e \/
   exists x, o = Fulfilled x /\ matches (MArrayOf MRecord) x = false /\
             e = GuardError "vbankAssetValuesWatcher" "onFulfilled").
Proof.
  intros <-. destruct o as [x|e'].
  - unfold fired, fire, onFulfilled, vbankAssetValuesWatcher_onFulfilled, guarded.
    destruct (matches (MArrayOf MRecord) x) eqn:Hm; cbn; [discriminate|].
    intros [= <-]. split; [reflexivity|]. right. exists x. auto.
  - cbn. intros [= <-]. auto.
Qed.

(** X13.  A failed look-up of the vbank assets is not cached: when the
    first [getVBankAssetInfo] of a facade has rejected -- because
    [values()] was rejected, with its error, or because what it answered
    is no array of records, with the error of the watcher's guard --
    [state.vbankAssets] is still [undefined], and the next call asks
    agoricNames again. *)
Theorem failed_lookup_is_not_cached
    (info : JsVal) (t0 : Z) (cfg : Cfg State Watcher) (e : JsError) :
  cache_runs (cache_start (init info) t0 getVBankAssetInfo) cfg ->
  settled cfg = Some (Rejected e) ->
  vbankAssets (kit (heap cfg)) = VUndefined /\
  (nth_error (outbox (heap cfg)) 1 = Some (CValues 0, Some (Rejected e)) \/
   exists x,
     nth_error (outbox (heap cfg)) 1 = Some (CValues 0, Some (Fulfilled x)) /\
     matches (MArrayOf MRecord) x = false /\
     e = GuardError "vbankAssetValuesWatcher" "onFulfilled") /\
  (forall t1,
     calls (cache_start (kit (heap cfg)) t1 getVBankAssetInfo)
     = [CLookup agoricNames "vbankAsset"; CValues 0]).
Proof.
  intros Hrun Hset. rewrite getVBankAssetInfo_first in Hrun by reflexivity.
  apply watch_chain_gen in Hrun.
  destruct Hrun as [(pre' & r & _ & _ & Hts & _) | (pre' & o & t & Href & _ & Hr)].
  { unfold settled in Hset.
    destruct Hts as [Hts | (o' & _ & Hts)]; rewrite Hts in Hset; discriminate. }
  destruct (vbankAssetValues_fired (init info) (pre' ++ [(CValues 0, Some o)]) o t)
    as (o' & Hf & _).
  pose proof Hf as Hf'. rewrite Hf in Hr.
  apply settled_stable with (o := o') in Hr; [|reflexivity].
  destruct Hr as (Hts & _ & Hkit & Hrep).
  unfold settled in Hset. rewrite Hts in Hset. injection Hset as ->.
  apply vbankAssetValues_rejected with (e := e) in Hf'; [|reflexivity].
  destruct Hf' as (_ & Ho). cbn in Hkit.
  pose proof (refines_length Href) as Hlen. cbn in Hlen.
  assert (Hone : nth_error (outbox (heap cfg)) 1 = Some (CValues 0, Some o)).
  { apply Hrep. cbn [heap outbox]. rewrite nth_error_app2 by lia.
    rewrite Hlen. reflexivity. }
  split; [rewrite Hkit; reflexivity|]. split.
  - destruct Ho as [-> | (x & -> & Hm & He)]; [left; exact Hone|].
    right. exists x. auto.
  - intros t1. rewrite Hkit. reflexivity.
Qed.

End FacadeState.

(* ================================================================== *)
(** ** The account kit: transfer, to its end *)

Section TransferEnd.

Import LocalOrchAccount.
Context {imports : Imports}.
Variable env : Z -> Call -> Outcome -> Prop.
Variable st : State.
Variable d : DenomAmount.t.
Variable destination : ChainAddress.t.
Variable opts : option TransferOpts.t.
Variable t0 : Z.

Abbreviation end_runs := (Run onFulfilled run_op env).
Abbreviation end_turn := (turn onFulfilled).
Abbreviation end_stage := (transfer_stage env st d destination opts).
Abbreviation end_watcher := (transfer_watcher d destination opts).
Abbreviation end_lookups := (transfer_lookups st destination opts).

Lemma joining_reduce v (h : Heap State) :
  joining opts v ->
  exists v', reduce onFulfilled v h = (v', h) /\ joining opts v'.
Proof.
  intros [a b Ha Hb Hstatic | o Ho].
  2:{ exists (VNow o). split; [reflexivity | now constructor]. }
  cbn [reduce].
  destruct (first_rejected [a; b]) as [e|] eqn:Hfr.
  { eexists. split; [reflexivity|]. constructor. intros z Hz. left. eauto. }
  destruct (all_fulfilled [a; b]) as [xs|] eqn:Haf.
  { eexists. split; [reflexivity|]. constructor. intros z Hz. right.
    specialize (Hstatic z Hz). subst b.
    destruct a as [[x|e]| | |]; try discriminate Haf.
    cbn in Haf. injection Haf as <-. eauto. }
  destruct (reduce onFulfilled a h) as [a' h1] eqn:Hra.
  pose proof (reduce_plain onFulfilled a h Ha) as [Hh1 Ha']. rewrite Hra in Hh1, Ha'.
  cbn in Hh1, Ha'. subst h1.
  destruct (reduce onFulfilled b h) as [b' h2] eqn:Hrb.
  pose proof (reduce_plain onFulfilled b h Hb) as [Hh2 Hb']. rewrite Hrb in Hh2, Hb'.
  cbn in Hh2, Hb'. subst h2.
  exists (VAll [a'; b']). split; [reflexivity|].
  constructor; [exact Ha' | exact Hb' |].
  intros z Hz. specialize (Hstatic z Hz). subst b. cbn in Hrb. congruence.
Qed.

Lemma transfer_stage_start :
  end_stage (start (W := Watcher) st t0 (transfer (DenomAmountArg d) destination opts)).
Proof.
  unfold start, transfer, asVow, bind, get_state, send_call, watch_, allVows, watch, ret.
  cbn.
  destruct (opt_timeoutTimestamp opts) as [ts|] eqn:Hts;
    [|destruct (opt_timeoutHeight opts) as [hh|] eqn:Hh]; cbn.
  - apply stage_waiting.
    + unfold transfer_lookups, static_timeout. now rewrite Hts.
    + constructor; [reflexivity | reflexivity |].
      unfold static_timeout. rewrite Hts. now intros z [= <-].
  - apply stage_waiting.
    + unfold transfer_lookups, static_timeout. now rewrite Hts, Hh.
    + constructor; [reflexivity | reflexivity |].
      unfold static_timeout. rewrite Hts, Hh. now intros z [= <-].
  - apply stage_waiting.
    + unfold transfer_lookups, static_timeout. now rewrite Hts, Hh.
    + constructor; [reflexivity | reflexivity |].
      unfold static_timeout. rewrite Hts, Hh. discriminate.
Qed.

Lemma transfer_stage_step c ev c' :
  end_stage c -> ~ is_invoke ev -> step onFulfilled run_op env c ev c' -> end_stage c'.
Proof.
  intros Hst Hev Hstep.
  destruct Hst as [ob v n Hob Hj | ob o t cfg Hob Hj Hr].
  2:{ eapply stage_fired; eauto. eapply run_step; eauto. }
  inversion Hstep as [cfg op | cfg k call' o Hk He | cfg t Hle | cfg]; subst;
    cbn [heap tasks now outbox] in *.
  - elim Hev. exact I.
  - unfold deliver; cbn [heap tasks now outbox kit].
    apply stage_waiting; [|exact Hj]. now rewrite set_reply_calls.
  - unfold advance; cbn. now apply stage_waiting.
  - destruct Hj as [a b Ha Hb Hstatic | o Ho].
    + destruct (joining_reduce (mkHeap st ob) (@joining_all opts a b Ha Hb Hstatic))
        as (v' & Hred & Hj').
      unfold turn. cbn [tasks heap reduce_all]. rewrite (reduce_watch onFulfilled).
      cbv iota beta. rewrite Hred. now apply stage_waiting.
    + rewrite turn_acked.
      apply (@stage_fired _ env st d destination opts ob o n);
        [exact Hob | constructor; exact Ho | constructor].
Qed.

Lemma transfer_stages cfg :
  end_runs (start (W := Watcher) st t0 (transfer (DenomAmountArg d) destination opts)) cfg ->
  end_stage cfg.
Proof.
  induction 1 as [|c c' ev _ IH Hev Hst]; [apply transfer_stage_start|].
  eapply transfer_stage_step; eassumption.
Qed.

(** The watcher on what [allVows] settled with, whatever that is: it
    rejects and leaves the outbox, or it has got a connection record and
    a natural number, has built the message and handed it to the packet
    tools. *)
Lemma transfer_fired_cases ob o t :
  (exists e, fired onFulfilled st ob end_watcher o t
             = mkCfg (mkHeap st ob) [VNow (Rejected e)] t)
  \/
  (exists info z portId channelId,
      o = Fulfilled (VArray [info; VBigInt z]) /\ (0 <= z)%Z /\
      fired onFulfilled st ob end_watcher o t
      = mkCfg (mkHeap st (ob ++ [(CSendThenWaitForAck (packetTools st)
                 (IBCTransferSender (transfer_msg st d destination opts portId channelId z))
                 VUndefined, None)]))
              [VWatch (VPromise (List.length ob)) None] t).
Proof.
  destruct o as [x|e]; [|left; eexists; reflexivity].
  unfold fired, fire, onFulfilled, transferWatcher_onFulfilled, guarded.
  destruct (matches (PArr [MRecord; MNat]) x) eqn:Hm; [|left; eexists; reflexivity].
  destruct x as [ | | | | | |xs| | ]; try discriminate Hm.
  destruct xs as [|info [|ts [|y xs]]]; cbn in Hm; rewrite ?andb_false_r in Hm;
    try discriminate Hm.
  rewrite andb_true_r in Hm. apply andb_true_iff in Hm.
  destruct Hm as [Hinfo Hts].
  destruct info as [ | | | | | | |fs| ]; try discriminate Hinfo.
  destruct ts as [ | | | |z| | | | ]; try discriminate Hts.
  apply Z.leb_le in Hts.
  unfold bind, lift. cbn [get_index nth].
  destruct (get_prop (VRecord fs) "transferChannel") as [tc|e] eqn:Htc;
    [|discriminate].
  destruct (get_prop tc "portId") as [portId|e] eqn:Hport;
    [|left; eexists; reflexivity].
  destruct (get_prop tc "channelId") as [channelId|e] eqn:Hchan;
    [|left; eexists; reflexivity].
  right. exists (VRecord fs), z, portId, channelId.
  split; [reflexivity|]. split; [exact Hts | reflexivity].
Qed.

Lemma lookups_no_packet (ob : list (Call * option Outcome)) k pt sender so ro :
  map fst ob = end_lookups ->
  nth_error ob k <> Some (CSendThenWaitForAck pt sender so, ro).
Proof.
  intros Hob Hk. apply (map_nth_error fst) in Hk. rewrite Hob in Hk.
  apply nth_error_In in Hk. unfold transfer_lookups in Hk.
  destruct (static_timeout opts); cbn in Hk; intuition discriminate.
Qed.

(** X14.  [transfer] does not resolve before the packet's
    acknowledgement is in: its vow is fulfilled only when
    [sendThenWaitForAck] has been called and has fulfilled, and with
    that very value; and once the packet tools have answered the call --
    with the acknowledgement, or with a rejection such as a timeout --
    the vow settles with that answer and no other, two turns later at
    the latest. *)
Theorem transfer_settles_with_ack (cfg : Cfg State Watcher) :
  end_runs (start (W := Watcher) st t0 (transfer (DenomAmountArg d) destination opts)) cfg ->
  (forall x, settled cfg = Some (Fulfilled x) ->
     exists k pt sender so,
       nth_error (outbox (heap cfg)) k
       = Some (CSendThenWaitForAck pt sender so, Some (Fulfilled x)))
  /\
  (forall k pt sender so o,
     nth_error (outbox (heap cfg)) k = Some (CSendThenWaitForAck pt sender so, Some o) ->
     (forall o', settled cfg = Some o' -> o' = o) /\
     settled (end_turn (end_turn cfg)) = Some o).
Proof.
  intros Hrun. apply transfer_stages in Hrun.
  destruct Hrun as [ob v n Hob Hj | ob o t cfg Hob Hj Hr].
  { split; [discriminate|]. intros k pt sender so o Hk. exfalso. revert Hk.
    cbn [heap outbox]. now apply lookups_no_packet. }
  destruct (transfer_fired_cases ob o t)
    as [(e & Hf) | (info & z & portId & channelId & _ & _ & Hf)];
    rewrite Hf in Hr.
  - apply settled_stable with (o := Rejected e) in Hr; [|reflexivity].
    destruct Hr as (Hts & Hc & _). unfold settled. rewrite Hts.
    split; [discriminate|]. intros k pt sender so o' Hk. exfalso. revert Hk.
    apply lookups_no_packet. unfold calls in Hc. cbn in Hc. congruence.
  - set (packet := CSendThenWaitForAck (packetTools st)
                     (IBCTransferSender
                        (transfer_msg st d destination opts portId channelId z))
                     VUndefined) in *.
    apply watch_chain_gen in Hr.
    destruct Hr as [(pre' & r & Href & Hh & Hts & _) | (pre' & o1 & t1 & Href & _ & Hr)].
    + pose proof (refines_length Href) as Hlen.
      pose proof (refines_calls Href) as Hcalls. rewrite Hob in Hcalls.
      destruct cfg as [h ts n']; cbn in Hh, Hts; subst h.
      split.
      { intros x. unfold settled; cbn.
        destruct Hts as [-> | (o1 & _ & ->)]; discriminate. }
      intros k pt sender so o' Hk. cbn [heap outbox] in Hk.
      assert (Hpos : k = List.length pre' /\ r = Some o').
      { destruct (Nat.lt_ge_cases k (List.length pre')) as [Hlt|Hge].
        - exfalso. rewrite nth_error_app1 in Hk by exact Hlt.
          revert Hk. now apply lookups_no_packet.
        - rewrite nth_error_app2 in Hk by exact Hge.
          destruct (k - List.length pre')%nat as [|k'] eqn:Hd; cbn in Hk;
            [|destruct k'; discriminate].
          split; [lia | congruence]. }
      destruct Hpos as (-> & ->).
      split.
      { intros o2. unfold settled; cbn.
        destruct Hts as [-> | (o1 & _ & ->)]; discriminate. }
      destruct Hts as [-> | (o1 & Ho1 & ->)].
      * rewrite <- Hlen. erewrite turn_watch_replied by exact Hk.
        rewrite turn_acked. destruct o'; reflexivity.
      * injection Ho1 as <-. rewrite turn_acked. destruct o'; reflexivity.
    + pose proof (refines_calls Href) as Hcalls. rewrite Hob in Hcalls.
      assert (Hfired : fired onFulfilled st (pre' ++ [(packet, Some o1)]) None o1 t1
                       = mkCfg (mkHeap st (pre' ++ [(packet, Some o1)])) [VNow o1] t1)
        by (destruct o1; reflexivity).
      rewrite Hfired in Hr.
      apply settled_stable with (o := o1) in Hr; [|reflexivity].
      destruct Hr as (Hts & Hc & _ & Hrep).
      assert (Hlast : nth_error (outbox (heap cfg)) (List.length pre')
                      = Some (packet, Some o1)).
      { apply Hrep. cbn [heap outbox]. apply nth_error_last. }
      unfold settled. rewrite Hts. split.
      { intros x [= ->]. exists (List.length pre'). subst packet. eauto. }
      intros k pt sender so o' Hk.
      assert (Ho' : o' = o1).
      { unfold calls in Hc. cbn [heap outbox] in Hc. rewrite map_app in Hc.
        destruct (Nat.lt_ge_cases k (List.length pre')) as [Hlt|Hge].
        - exfalso. apply (map_nth_error fst) in Hk. rewrite Hc in Hk.
          rewrite nth_error_app1 in Hk by (rewrite length_map; exact Hlt).
          rewrite Hcalls in Hk. apply nth_error_In in Hk.
          unfold transfer_lookups in Hk.
          destruct (static_timeout opts); cbn in Hk; intuition discriminate.
        - assert (Hlen : List.length (outbox (heap cfg)) = Datatypes.S (List.length pre')).
          { rewrite <- (length_map fst), Hc, length_app, length_map. cbn. lia. }
          assert (k = List.length pre') as ->.
          { assert (k < List.length (outbox (heap cfg)))%nat
              by (apply nth_error_Some; congruence).
            lia. }
          rewrite Hlast in Hk. now injection Hk as _ <-. }
      subst o'. split; [now intros o2 [= <-]|].
      destruct cfg as [h ts n']; cbn in Hts; subst ts. reflexivity.
Qed.

(** X15.  A transfer whose [opts.timeoutTimestamp] is negative sends
    no packet, whatever the connection: [transferWatcher]'s guard wants
    a natural number for the timeout, so [sendThenWaitForAck] is never
    called, and the vow, if it settles, is rejected. *)
Theorem transfer_negative_timeout_not_sent (ts : Z) (cfg : Cfg State Watcher) :
  opt_timeoutTimestamp opts = Some ts ->
  (ts < 0)%Z ->
  end_runs (start (W := Watcher) st t0 (transfer (DenomAmountArg d) destination opts)) cfg ->
  (forall pt sender so, ~ In (CSendThenWaitForAck pt sender so) (calls cfg)) /\
  (forall o, settled cfg = Some o -> exists e, o = Rejected e).
Proof.
  intros Hts Hneg Hrun. apply transfer_stages in Hrun.
  assert (Hstatic : static_timeout opts = Some ts)
    by (unfold static_timeout; now rewrite Hts).
  assert (Hlook : forall (ob : list (Call * option Outcome)) pt sender so,
            map fst ob = end_lookups -> ~ In (CSendThenWaitForAck pt sender so) (map fst ob)).
  { intros ob pt sender so Hob Hin. rewrite Hob in Hin. unfold transfer_lookups in Hin.
    rewrite Hstatic in Hin. cbn in Hin. intuition discriminate. }
  destruct Hrun as [ob v n Hob Hj | ob o t cfg Hob Hj Hr].
  { split; [|discriminate]. intros pt sender so. unfold calls; cbn. now apply Hlook. }
  destruct (transfer_fired_cases ob o t)
    as [(e & Hf) | (info & z & portId & channelId & Ho & Hpos & _)].
  - rewrite Hf in Hr.
    apply settled_stable with (o := Rejected e) in Hr; [|reflexivity].
    destruct Hr as (Hts' & Hc & _). split.
    + intros pt sender so. rewrite Hc. unfold calls; cbn. now apply Hlook.
    + unfold settled. rewrite Hts'. intros o' [= <-]. eauto.
  - exfalso. inversion Hj as [|o' Hdone]; subst.
    destruct (Hdone ts Hstatic) as [(e & He) | (x & Hx)]; [discriminate|].
    injection Hx as _ Hz. lia.
Qed.

End TransferEnd.

(* ================================================================== *)
(** ** Coins *)

Section Coins.

Import LocalOrchAccount.
Context {imports : Imports}.

Lemma to_int_normal (z : Z) :
  Z.to_int z <> Decimal.Pos Decimal.Nil /\ Z.to_int z <> Decimal.Neg Decimal.Nil.
Proof.
  assert (H : Z.to_int z = Decimal.norm (Z.to_int z))
    by (rewrite <- DecimalZ.to_of, DecimalZ.of_to; reflexivity).
  rewrite H. destruct (Z.to_int z) as [u|u]; cbn.
  - unfold Decimal.unorm. destruct (Decimal.nzhead u); split; discriminate.
  - destruct (Decimal.nzhead u); split; discriminate.
Qed.

Lemma String_of_bigint_inj (z z' : Z) :
  String_of_bigint z = String_of_bigint z' -> z = z'.
Proof.
  unfold String_of_bigint. intros H.
  apply DecimalZ.to_int_inj.
  destruct (to_int_normal z) as [Hp Hn], (to_int_normal z') as [Hp' Hn'].
  pose proof (NilZero.isi (Z.to_int z) Hp Hn) as H1.
  pose proof (NilZero.isi (Z.to_int z') Hp' Hn') as H2.
  rewrite H in H1. congruence.
Qed.

(** X16.  [amountToCoin] loses nothing: an amount with a denom becomes
    the coin of that denom whose amount is the decimal digits of the
    value, and two amounts that give the same coin are the same amount;
    an amount it turns into a coin carried a denom. *)
Theorem amountToCoin_injective
    (a b : AmountArg) (coin : Coin.t) (h h' : Heap State) :
  amountToCoin a h = (Normal coin, h) ->
  amountToCoin b h' = (Normal coin, h') ->
  a = b /\ exists d, a = DenomAmountArg d /\ coin = coin_of d.
Proof.
  destruct a as [ea|[da va]], b as [eb|[db vb]]; cbn; try discriminate.
  intros [= <-] [= Hd Hv]. apply String_of_bigint_inj in Hv. subst.
  split; [reflexivity|]. eexists. split; reflexivity.
Qed.

End Coins.

(* ================================================================== *)
(** ** The send contract's invitation *)

Section SendProposal.

Context {imports : Imports}.

(** X17.  The proposal shape of [makeSendInvitation] admits a
    proposal exactly when its [give] is a record of one property whose
    value matches [AmountShape], whatever else the proposal holds.  So
    the handler's [const [[kw, amt]] = entries(give)] finds its entry,
    an amount, and leaves none behind. *)
Theorem send_proposal_gives_one_amount (proposal : JsVal) :
  (matches SendProposalShape proposal = true <->
   exists fs kw amt,
     proposal = VRecord fs /\
     lookup "give" fs = Some (VRecord [(kw, amt)]) /\
     matches AmountShape amt = true)
  /\
  (matches SendProposalShape proposal = true ->
   exists give kw amt,
     get_prop proposal "give" = Normal give /\
     entries give = [(kw, amt)] /\
     first_entry (entries give) = Normal (kw, amt) /\
     matches AmountShape amt = true).
Proof.
  assert (Hiff : matches SendProposalShape proposal = true <->
                 exists fs kw amt,
                   proposal = VRecord fs /\
                   lookup "give" fs = Some (VRecord [(kw, amt)]) /\
                   matches AmountShape amt = true).
  { destruct proposal as [ | | | | | | |fs| ];
      try (split; [discriminate | intros (fs' & kw & amt & H & _); discriminate]).
    cbn [SendProposalShape matches]. rewrite andb_true_r.
    destruct (lookup "give" fs) as [give|] eqn:Hgive.
    2:{ split; [discriminate | intros (fs' & kw & amt & [= <-] & H & _)].
        rewrite Hgive in H. discriminate. }
    change (matches (MAnd (MRecordOf MString AmountShape 1) (MNot (PRec []))) give)
      with (matches SingleAmountRecord give).
    destruct give as [ | | | | | | |gs| ];
      try (split; [discriminate | intros (fs' & kw & amt & [= <-] & H & _);
                                  rewrite Hgive in H; discriminate]).
    destruct gs as [|[k v] [|p2 rest]]; cbn.
    - split; [discriminate | intros (fs' & kw & amt & [= <-] & H & _)].
      rewrite Hgive in H. discriminate.
    - rewrite !andb_true_r. split.
      + intros H. exists fs, k, v. auto.
      + intros (fs' & kw & amt & [= <-] & H & Hm). rewrite Hgive in H.
        injection H as <- <-. exact Hm.
    - split; [discriminate | intros (fs' & kw & amt & [= <-] & H & _)].
      rewrite Hgive in H. discriminate. }
  split; [exact Hiff|].
  intros H. apply Hiff in H. destruct H as (fs & kw & amt & -> & Hgive & Hm).
  exists (VRecord [(kw, amt)]), kw, amt. cbn. rewrite Hgive. auto.
Qed.

End SendProposal.

(* ================================================================== *)
(** ** The theorems at work *)

#[local] Existing Instance sample_imports.

Ltac env_tac :=
  unfold collaborators;
  first [ exact I
        | reflexivity
        | split; [vm_compute; discriminate | eexists; reflexivity] ].

Ltac run_tac :=
  lazymatch goal with
  | |- Run _ _ _ _ (turn _ _) =>
      eapply Run_trans; [|apply Run_turn]; run_tac
  | |- Run _ _ _ _ (deliver _ _ _) =>
      eapply Run_trans; [|eapply Run_deliver; [reflexivity | env_tac]]; run_tac
  | |- Run _ _ _ _ (advance _ _) =>
      eapply Run_trans; [|apply Run_advance; vm_compute; discriminate]; run_tac
  | |- _ => apply run_refl
  end.

Abbreviation sample_Run :=
  (Run LocalOrchAccount.onFulfilled LocalOrchAccount.run_op (collaborators sample_hub)).
Abbreviation sample_turn := (turn LocalOrchAccount.onFulfilled).
Abbreviation sample_start := (start (W := LocalOrchAccount.Watcher) sample_state 0).

Lemma collaborators_timer hub : timer_contract (collaborators hub).
Proof.
  split.
  - intros now t o H. exact H.
  - intros now t H. exists VUndefined. split; [exact H | eauto].
Qed.

(** An undelegation answered at once, the timer run to second 605. *)
Lemma undelegate_settles_after_completion_witness :
  let c0 := sample_start (LocalOrchAccount.undelegate "agoric1validator1"
                            (Amount.make "BLD" 999)) in
  let cfg :=
    sample_turn (sample_turn
      (deliver 1 (Fulfilled VUndefined)
         (advance 605
            (sample_turn (sample_turn
               (deliver 0 (Fulfilled sample_undelegate_response) c0)))))) in
  timer_contract (collaborators sample_hub) /\
  sample_Run c0 cfg /\
  carries_completionTime sample_undelegate_response 5 /\
  settled cfg = Some (Fulfilled VUndefined) /\
  (5 + maxClockSkew <= now cfg)%Z.
Proof.
  intros c0 cfg.
  assert (Hrun : sample_Run c0 cfg) by (subst cfg; run_tac).
  assert (Hgood : carries_completionTime sample_undelegate_response 5).
  { do 3 eexists. repeat split; reflexivity. }
  split; [apply collaborators_timer|].
  split; [exact Hrun|]. split; [exact Hgood|]. split; [reflexivity|].
  destruct (undelegate_settles_after_completion (collaborators_timer sample_hub) Hrun)
    as (_ & H).
  destruct (H _ _ 5%Z eq_refl Hgood) as (H1 & _).
  exact (proj2 (H1 _ eq_refl)).
Defined.

Lemma append_length (a b : string) :
  String.length (a ++ b) = (String.length a + String.length b)%nat.
Proof. induction a as [|c a IH]; cbn; [reflexivity | now rewrite IH]. Qed.

Lemma contains_length (s sub : string) :
  contains s sub -> (String.length sub <= String.length s)%nat.
Proof.
  intros (pre & post & ->). rewrite !append_length. lia.
Qed.

(** A transfer of 1 ubld to fakenet, to which no connection is
    registered, the directory's answer delivered and four turns taken. *)
Lemma transfer_unknown_destination_witness :
  let c0 := sample_start (LocalOrchAccount.transfer
                            (DenomAmountArg (DenomAmount.make "ubld" 1)) fakenet None) in
  let cfg :=
    sample_turn (sample_turn (sample_turn (sample_turn
      (deliver 0 (ChainHub.getConnectionInfo sample_hub "agoriclocal" "fakenet") c0)))) in
  ChainHub.find sample_hub "agoriclocal" "fakenet" = None /\
  sample_Run c0 cfg /\
  settled cfg = Some (Rejected (Error "connection not found: agoriclocal<->fakenet")) /\
  (forall pt sender so, ~ In (CSendThenWaitForAck pt sender so) (calls cfg)).
Proof.
  intros c0 cfg.
  assert (Hrun : sample_Run c0 cfg) by (subst cfg; run_tac).
  split; [reflexivity|]. split; [exact Hrun|]. split; [reflexivity|].
  exact (proj1 (proj2 (proj2
           (transfer_unknown_destination (hub := sample_hub) sample_state fakenet
              None 0 (DenomAmount.make "ubld" 1) eq_refl Hrun)))).
Defined.

(** C2 as stated fails on an ERTP amount: to the same unconnected
    chain, the vow is rejected with "ERTP Amounts not yet supported", in
    which "connection not found: agoriclocal<->fakenet" does not occur. *)
Lemma transfer_ertp_amount_counterexample :
  let cfg := sample_start (LocalOrchAccount.transfer
                             (ErtpAmount (Amount.make "BLD" 1)) fakenet None) in
  ChainHub.find sample_hub "agoriclocal" "fakenet" = None /\
  settled cfg = Some (Rejected (Error "ERTP Amounts not yet supported")) /\
  ~ (exists msg, settled cfg = Some (Rejected (Error msg)) /\
                 contains msg "connection not found: agoriclocal<->fakenet").
Proof.
  intros cfg. split; [reflexivity|]. split; [reflexivity|].
  intros (msg & Hset & Hc). cbn in Hset. injection Hset as <-.
  apply contains_length in Hc. cbn in Hc. lia.
Qed.

(** A delegation answered with one record. *)
Lemma delegate_exactly_one_result_witness :
  let c0 := sample_start (LocalOrchAccount.delegate "agoric1validator1"
                            (Amount.make "BLD" 999)) in
  let cfg := deliver 0 (Fulfilled (VArray [VRecord []])) c0 in
  sample_Run c0 cfg /\
  nth_error (outbox (heap cfg)) 0
    = Some (CExecuteTx "lca"
              [MsgDelegate (Coin.make "ubld" "999") "agoric1validator1" "agoric1local"],
            Some (Fulfilled (VArray [VRecord []]))) /\
  settled (sample_turn (sample_turn cfg)) = Some (Fulfilled (VRecord [])).
Proof.
  intros c0 cfg.
  assert (Hrun : sample_Run c0 cfg) by (subst cfg; run_tac).
  split; [exact Hrun|]. split; [reflexivity|].
  exact (proj2 (proj1 (delegate_exactly_one_result Hrun eq_refl) _ eq_refl)).
Defined.

(** C3 as stated fails on an answer of no result: the vow is rejected
    by the watcher's guard, not with the error of the method's own
    assertion, whose message begins "expected exactly one result". *)
Lemma delegate_no_result_counterexample :
  let c0 := sample_start (LocalOrchAccount.delegate "agoric1validator1"
                            (Amount.make "BLD" 999)) in
  let cfg := sample_turn (sample_turn (deliver 0 (Fulfilled (VArray [])) c0)) in
  settled cfg
    = Some (Rejected (GuardError "extractFirstResultWatcher" "onFulfilled")) /\
  ~ (exists rest,
       settled cfg = Some (Rejected (Error ("expected exactly one result" ++ rest)))).
Proof.
  intros c0 cfg. split; [reflexivity|].
  intros (rest & H). discriminate H.
Qed.

(** A send of an ERTP amount, and a sendAll with one among the amounts. *)
Lemma send_brand_rejected_before_bridge_witness :
  let h := mkHeap sample_state [] in
  let bld := ErtpAmount (Amount.make "BLD" 10) in
  let amounts := [DenomAmountArg (DenomAmount.make "ubld" 10); bld] in
  has_denom bld = false /\
  existsb (fun a => negb (has_denom a)) amounts = true /\
  LocalOrchAccount.send cosmoshub bld h
    = (Normal (VNow (Rejected (Error "Brands not currently supported."))), h) /\
  LocalOrchAccount.sendAll cosmoshub amounts h
    = (Normal (VNow (Rejected (Error "Brands not currently supported."))), h).
Proof.
  intros h bld amounts.
  split; [reflexivity|]. split; [reflexivity|].
  destruct (send_brand_rejected_before_bridge cosmoshub bld amounts h) as (H1 & H2).
  split; [exact (H1 eq_refl) | exact (H2 eq_refl)].
Defined.


(** A sendAll of two amounts, answered by the bridge. *)
Lemma sendAll_one_bank_send_witness :
  let amounts := [DenomAmount.make "ubld" 10000000; DenomAmount.make "uist" 10000000] in
  let toAccount := ChainAddress.make "agoric1EOAAccAddress" "bech32" "agoriclocal" in
  let c0 := sample_start (LocalOrchAccount.sendAll toAccount (map DenomAmountArg amounts)) in
  let cfg := deliver 0 (Fulfilled (VArray [VRecord []])) c0 in
  sample_Run c0 cfg /\
  calls cfg
    = [CExecuteTx "lca"
         [MsgSend [Coin.make "ubld" "10000000"; Coin.make "uist" "10000000"]
                  "agoric1EOAAccAddress" "agoric1local"]] /\
  settled (sample_turn (sample_turn cfg)) = Some (Fulfilled VUndefined).
Proof.
  intros amounts toAccount c0 cfg.
  assert (Hrun : sample_Run c0 cfg) by (subst cfg; run_tac).
  split; [exact Hrun|].
  destruct (sendAll_one_bank_send (env := collaborators sample_hub) sample_state 0 toAccount amounts Hrun)
    as (Hcalls & Hvoid & _).
  split; [exact Hcalls|].
  exact (proj2 (Hvoid _ _ eq_refl)).
Defined.

(** A kit in use: a deposit and an undelegation invoked, the bridge
    answering the deposit, a turn taken. *)
Lemma address_is_immutable_witness :
  let c0 := mkCfg (LocalOrchAccount.init "lca" sample_address "node") [] 0 in
  let cfg :=
    sample_turn
      (deliver 1 (Fulfilled VUndefined)
         (invoke LocalOrchAccount.run_op
            (LocalOrchAccount.OpUndelegate "agoric1validator1" (Amount.make "BLD" 999))
            (invoke LocalOrchAccount.run_op
               (LocalOrchAccount.OpDeposit (VRemotable "payment")) c0))) in
  Reach LocalOrchAccount.onFulfilled LocalOrchAccount.run_op (collaborators sample_hub)
        c0 cfg /\
  LocalOrchAccount.getAddress (heap cfg) = (Normal sample_address, heap cfg) /\
  LocalOrchAccount.address (kit (heap cfg)) = sample_address /\
  LocalOrchAccount.account (kit (heap cfg)) = "lca"%string.
Proof.
  intros c0 cfg.
  assert (Hreach : Reach LocalOrchAccount.onFulfilled LocalOrchAccount.run_op
                         (collaborators sample_hub) c0 cfg).
  { subst cfg.
    eapply reach_step; [|apply step_turn].
    eapply reach_step; [|eapply step_deliver; [reflexivity | env_tac]].
    eapply reach_step; [|apply step_invoke].
    eapply reach_step; [|apply step_invoke].
    apply reach_refl. }
  split; [exact Hreach|].
  exact (address_is_immutable Hreach).
Defined.



(** An undelegation that the bridge rejects. *)
Lemma rejection_surfaces_witness :
  let op := LocalOrchAccount.OpUndelegate "agoric1validator1" (Amount.make "BLD" 999) in
  let c0 := sample_start (LocalOrchAccount.run_op op) in
  let cfg := deliver 0 (Rejected (Error "simulated error")) c0 in
  watches_first_call op = true /\
  sample_Run c0 cfg /\
  settled (sample_turn (sample_turn cfg)) = Some (Rejected (Error "simulated error")) /\
  calls cfg = [undelegate_call sample_state "agoric1validator1" (Amount.make "BLD" 999)].
Proof.
  intros op c0 cfg.
  assert (Hrun : sample_Run c0 cfg) by (subst cfg; run_tac).
  split; [reflexivity|]. split; [exact Hrun|].
  exact (proj2 (rejection_surfaces sample_state 0 op eq_refl Hrun eq_refl)).
Defined.

(** A withdrawal of 50 BLD, answered with a payment. *)
Lemma forwarded_call_settles_with_reply_witness :
  let amount := VRecord [("brand"%string, VRemotable "BLD"); ("value"%string, VBigInt 50)] in
  let op := LocalOrchAccount.OpWithdraw amount in
  let c0 := sample_start (LocalOrchAccount.run_op op) in
  let cfg := deliver 0 (Fulfilled (VRemotable "payment")) c0 in
  forwarded_call sample_state op = Some (CWithdraw "lca" amount) /\
  sample_Run c0 cfg /\
  calls cfg = [CWithdraw "lca" amount] /\
  settled (sample_turn (sample_turn cfg)) = Some (Fulfilled (VRemotable "payment")).
Proof.
  intros amount op c0 cfg.
  assert (Hrun : sample_Run c0 cfg) by (subst cfg; run_tac).
  assert (Hop : forwarded_call sample_state op = Some (CWithdraw "lca" amount))
    by reflexivity.
  split; [exact Hop|]. split; [exact Hrun|].
  destruct (forwarded_call_settles_with_reply sample_state 0 op Hop Hrun) as (Hc & _ & Ht).
  split; [exact Hc | exact (Ht _ eq_refl)].
Defined.

(** A deposit that the bridge acknowledges with a value of its own. *)
Lemma deposit_resolves_void_witness :
  let c0 := sample_start (LocalOrchAccount.deposit (VRemotable "payment")) in
  let cfg := deliver 0 (Fulfilled (VBigInt 100)) c0 in
  sample_Run c0 cfg /\
  calls cfg = [CDeposit "lca" (VRemotable "payment")] /\
  settled (sample_turn (sample_turn cfg)) = Some (Fulfilled VUndefined).
Proof.
  intros c0 cfg.
  assert (Hrun : sample_Run c0 cfg) by (subst cfg; run_tac).
  split; [exact Hrun|].
  destruct (deposit_resolves_void Hrun) as (Hc & _ & Ht).
  split; [exact Hc | exact (Ht _ eq_refl)].
Defined.

(** A delegation of 999 units of some brand: 999 ubld are staked. *)
Lemma delegate_stakes_ubld_witness :
  let c0 := sample_start (LocalOrchAccount.delegate "agoric1validator1"
                            (Amount.make "IST" 999)) in
  let cfg := sample_turn (deliver 0 (Fulfilled (VArray [VRecord []])) c0) in
  sample_Run c0 cfg /\
  calls cfg
    = [CExecuteTx "lca"
         [MsgDelegate (Coin.make "ubld" "999") "agoric1validator1" "agoric1local"]].
Proof.
  intros c0 cfg.
  assert (Hrun : sample_Run c0 cfg) by (subst cfg; run_tac).
  split; [exact Hrun|].
  exact (proj1 (delegate_stakes_ubld Hrun)).
Defined.

(** A transfer of an ERTP amount, two turns on. *)
Lemma transfer_of_brand_amount_asks_nobody_witness :
  let c0 := sample_start (LocalOrchAccount.transfer
                            (ErtpAmount (Amount.make "BLD" 1)) cosmoshub None) in
  let cfg := sample_turn (sample_turn c0) in
  sample_Run c0 cfg /\
  settled cfg = Some (Rejected (Error "ERTP Amounts not yet supported")) /\
  calls cfg = [].
Proof.
  intros c0 cfg.
  assert (Hrun : sample_Run c0 cfg) by (subst cfg; run_tac).
  split; [exact Hrun|].
  destruct (transfer_of_brand_amount_asks_nobody (st := sample_state) (t0 := 0)
              (a := Amount.make "BLD" 1) (destination := cosmoshub) (opts := None) Hrun)
    as (Hs & Hc & _).
  split; [exact Hs | exact Hc].
Defined.

(** The balance in ubld, the bank answering with 100 of its brand. *)
Lemma getBalance_wraps_reply_witness :
  let c0 := sample_start (LocalOrchAccount.getBalance (VString "ubld")) in
  let reply := VRecord [("brand"%string, VRemotable "BLD"); ("value"%string, VBigInt 100)] in
  let result := VRecord [("denom"%string, VString "ubld"); ("value"%string, VBigInt 100)] in
  let cfg := sample_turn (sample_turn (deliver 0 (Fulfilled reply) c0)) in
  sample_Run c0 cfg /\
  settled cfg = Some (Fulfilled result) /\
  calls cfg = [CGetBalance "lca" VNull] /\
  matches DenomAmountShape result = true.
Proof.
  intros c0 reply result cfg.
  assert (Hrun : sample_Run c0 cfg) by (subst cfg; run_tac).
  assert (Hset : settled cfg = Some (Fulfilled result)) by reflexivity.
  split; [exact Hrun|]. split; [exact Hset|].
  destruct (getBalance_wraps_reply sample_state 0 (VString "ubld") Hrun Hset) as (Hc & r & v & _ & _ & _ & _ & Hm).
  split; [exact Hc | exact Hm].
Defined.

(** An undelegation answered with a completion at second 5. *)
Lemma undelegate_asks_timer_once_witness :
  let c0 := sample_start (LocalOrchAccount.undelegate "agoric1validator1"
                            (Amount.make "BLD" 999)) in
  let cfg := sample_turn (sample_turn
               (deliver 0 (Fulfilled sample_undelegate_response) c0)) in
  sample_Run c0 cfg /\
  exists reply T,
    nth_error (outbox (heap cfg)) 0
      = Some (undelegate_call sample_state "agoric1validator1" (Amount.make "BLD" 999),
              Some (Fulfilled reply)) /\
    carries_completionTime reply T /\
    calls cfg = [undelegate_call sample_state "agoric1validator1" (Amount.make "BLD" 999);
                 CWakeAt (T + maxClockSkew)].
Proof.
  intros c0 cfg.
  assert (Hrun : sample_Run c0 cfg) by (subst cfg; run_tac).
  split; [exact Hrun|].
  destruct (undelegate_asks_timer_once Hrun) as [Hone | Htwo].
  - discriminate Hone.
  - exact Htwo.
Defined.

(** A kit in use: a balance asked, a transfer begun and driven to its
    packet, a withdrawal of 1 BLD. *)
Lemma kit_calls_its_own_collaborators_witness :
  let c0 := mkCfg (LocalOrchAccount.init "lca" sample_address "node") [] 0 in
  let cfg :=
    invoke LocalOrchAccount.run_op
      (LocalOrchAccount.OpWithdraw (amount_val (Amount.make "BLD" 1)))
      (sample_turn (sample_turn (sample_turn (sample_turn
         (deliver 2 (ChainHub.getConnectionInfo sample_hub "agoriclocal" "cosmoshub-4")
            (invoke LocalOrchAccount.run_op
               (LocalOrchAccount.OpTransfer
                  (DenomAmountArg (DenomAmount.make "ubld" 10)) cosmoshub
                  (Some (TransferOpts.make None (Some 7%Z) None)))
               (invoke LocalOrchAccount.run_op
                  (LocalOrchAccount.OpGetBalance (VString "ubld")) c0))))))) in
  Reach LocalOrchAccount.onFulfilled LocalOrchAccount.run_op (collaborators sample_hub)
        c0 cfg /\
  List.length (calls cfg) = 5%nat /\
  forallb (own_call (LocalOrchAccount.mkState "lca" sample_address "node" "lca"))
          (calls cfg) = true.
Proof.
  intros c0 cfg.
  assert (Hreach : Reach LocalOrchAccount.onFulfilled LocalOrchAccount.run_op
                         (collaborators sample_hub) c0 cfg).
  { subst cfg.
    eapply reach_step; [|apply step_invoke].
    do 4 (eapply reach_step; [|apply step_turn]).
    eapply reach_step; [|eapply step_deliver; [reflexivity | env_tac]].
    eapply reach_step; [|apply step_invoke].
    eapply reach_step; [|apply step_invoke].
    apply reach_refl. }
  split; [exact Hreach|]. split; [reflexivity|].
  exact (kit_calls_its_own_collaborators Hreach).
Defined.


(** A facade asked for its assets and answered. *)
Lemma facade_state_is_kept_witness :
  let info := VRecord [("chainId"%string, VString "agoriclocal")] in
  let assets := VArray [VRecord [("denom"%string, VString "ubld")]] in
  let c0 := mkCfg (mkHeap (LocalChainFacade.init info) []) [] 0 in
  let cfg :=
    turn LocalChainFacade.onFulfilled (turn LocalChainFacade.onFulfilled
      (deliver 1 (Fulfilled assets)
         (deliver 0 (Fulfilled (VRemotable "vbankAsset"))
            (invoke LocalChainFacade.run_op LocalChainFacade.OpGetVBankAssetInfo c0)))) in
  Reach LocalChainFacade.onFulfilled LocalChainFacade.run_op (collaborators sample_hub)
        c0 cfg /\
  LocalChainFacade.vbankAssets (kit (heap cfg)) = assets /\
  LocalChainFacade.getChainInfo (heap cfg)
    = (Normal (VWatch (VNow (Fulfilled info)) None), heap cfg).
Proof.
  intros info assets c0 cfg.
  assert (Hreach : Reach LocalChainFacade.onFulfilled LocalChainFacade.run_op
                         (collaborators sample_hub) c0 cfg).
  { subst cfg.
    do 2 (eapply reach_step; [|apply step_turn]).
    do 2 (eapply reach_step; [|eapply step_deliver; [reflexivity | env_tac]]).
    eapply reach_step; [|apply step_invoke].
    apply reach_refl. }
  split; [exact Hreach|]. split; [reflexivity|].
  exact (proj1 (proj2 (facade_state_is_kept Hreach))).
Defined.

(** A facade whose look-up of the assets is answered with a string. *)
Lemma failed_lookup_is_not_cached_witness :
  let info := VRecord [("chainId"%string, VString "agoriclocal")] in
  let c0 := start (W := LocalChainFacade.Watcher) (LocalChainFacade.init info) 0
                  LocalChainFacade.getVBankAssetInfo in
  let cfg :=
    turn LocalChainFacade.onFulfilled (turn LocalChainFacade.onFulfilled
      (deliver 1 (Fulfilled (VString "none"))
         (deliver 0 (Fulfilled (VRemotable "vbankAsset")) c0))) in
  let e := GuardError "vbankAssetValuesWatcher" "onFulfilled" in
  Run LocalChainFacade.onFulfilled LocalChainFacade.run_op (collaborators sample_hub)
      c0 cfg /\
  settled cfg = Some (Rejected e) /\
  LocalChainFacade.vbankAssets (kit (heap cfg)) = VUndefined /\
  calls (start (W := LocalChainFacade.Watcher) (kit (heap cfg)) 9
               LocalChainFacade.getVBankAssetInfo)
    = [CLookup LocalChainFacade.agoricNames "vbankAsset"; CValues 0].
Proof.
  intros info c0 cfg e.
  assert (Hrun : Run LocalChainFacade.onFulfilled LocalChainFacade.run_op
                     (collaborators sample_hub) c0 cfg)
    by (subst cfg; run_tac).
  assert (Hset : settled cfg = Some (Rejected e)) by reflexivity.
  split; [exact Hrun|]. split; [exact Hset|].
  destruct (failed_lookup_is_not_cached Hrun Hset) as (Hu & _ & Hagain).
  split; [exact Hu | exact (Hagain 9%Z)].
Defined.

(** A transfer of 10 ubld to cosmoshub-4, driven to its packet, the
    acknowledgement in. *)
Lemma transfer_settles_with_ack_witness :
  let c0 := sample_start (LocalOrchAccount.transfer
                            (DenomAmountArg (DenomAmount.make "ubld" 10)) cosmoshub
                            (Some (TransferOpts.make None (Some 7%Z) None))) in
  let cfg :=
    deliver 1 (Fulfilled VUndefined)
      (sample_turn (sample_turn (sample_turn (sample_turn
         (deliver 0 (ChainHub.getConnectionInfo sample_hub "agoriclocal" "cosmoshub-4")
            c0))))) in
  let sender :=
    IBCTransferSender
      (MsgTransfer (VString "transfer") (VString "channel-1")
         (Coin.make "ubld" "10") "agoric1local" "cosmos1pleab"
         (Height.make 0 0) (VBigInt 7) EmptyString) in
  sample_Run c0 cfg /\
  nth_error (outbox (heap cfg)) 1
    = Some (CSendThenWaitForAck "lca" sender VUndefined, Some (Fulfilled VUndefined)) /\
  settled cfg = None /\
  settled (sample_turn (sample_turn cfg)) = Some (Fulfilled VUndefined).
Proof.
  intros c0 cfg sender.
  assert (Hrun : sample_Run c0 cfg) by (subst cfg; run_tac).
  assert (Hk : nth_error (outbox (heap cfg)) 1
               = Some (CSendThenWaitForAck "lca" sender VUndefined,
                       Some (Fulfilled VUndefined))) by reflexivity.
  split; [exact Hrun|]. split; [exact Hk|]. split; [reflexivity|].
  exact (proj2 (proj2 (transfer_settles_with_ack sample_state
                         (DenomAmount.make "ubld" 10) cosmoshub
                         (Some (TransferOpts.make None (Some 7%Z) None)) 0 Hrun)
                  _ _ _ _ _ Hk)).
Defined.

(** A transfer with a timeout of -1, the connection found. *)
Lemma transfer_negative_timeout_not_sent_witness :
  let opts := Some (TransferOpts.make None (Some (-1)%Z) None) in
  let c0 := sample_start (LocalOrchAccount.transfer
                            (DenomAmountArg (DenomAmount.make "ubld" 10)) cosmoshub opts) in
  let cfg :=
    sample_turn (sample_turn (sample_turn (sample_turn
      (deliver 0 (ChainHub.getConnectionInfo sample_hub "agoriclocal" "cosmoshub-4")
         c0)))) in
  LocalOrchAccount.opt_timeoutTimestamp opts = Some (-1)%Z /\
  (-1 < 0)%Z /\
  sample_Run c0 cfg /\
  settled cfg = Some (Rejected (GuardError "transferWatcher" "onFulfilled")) /\
  (forall pt sender so, ~ In (CSendThenWaitForAck pt sender so) (calls cfg)).
Proof.
  intros opts c0 cfg.
  assert (Hrun : sample_Run c0 cfg) by (subst cfg; run_tac).
  split; [reflexivity|]. split; [lia|]. split; [exact Hrun|]. split; [reflexivity|].
  exact (proj1 (transfer_negative_timeout_not_sent sample_state
                  (DenomAmount.make "ubld" 10) cosmoshub opts 0
                  eq_refl eq_refl Hrun)).
Defined.

(** Ten ubld, as a coin. *)
Lemma amountToCoin_injective_witness :
  let a := DenomAmountArg (DenomAmount.make "ubld" 10) in
  let h := mkHeap sample_state [] in
  LocalOrchAccount.amountToCoin a h = (Normal (Coin.make "ubld" "10"), h) /\
  exists d, a = DenomAmountArg d /\ Coin.make "ubld" "10" = coin_of d.
Proof.
  intros a h. split; [reflexivity|].
  exact (proj2 (amountToCoin_injective a a (h := h) (h' := h) eq_refl eq_refl)).
Defined.

(** A delegation of -1: no amount, the guard turns it away; a
    delegation of 999 BLD goes through. *)
Lemma holder_throws_only_at_guard_witness :
  let h := mkHeap sample_state [] in
  let refused := LocalOrchAccount.OpDelegate "agoric1validator1" (Amount.make "BLD" (-1)) in
  let admitted := LocalOrchAccount.OpDelegate "agoric1validator1" (Amount.make "BLD" 999) in
  LocalOrchAccount.HolderI refused = false /\
  LocalOrchAccount.run_op refused h = (Throw (GuardError "holder" "delegate"), h) /\
  LocalOrchAccount.HolderI admitted = true /\
  exists v h', LocalOrchAccount.run_op admitted h = (Normal v, h') /\
               kit h' = kit h /\ grows h h'.
Proof.
  intros h refused admitted.
  split; [reflexivity|].
  split; [exact (proj1 (proj2 (holder_throws_only_at_guard refused h)) eq_refl)|].
  split; [reflexivity|].
  exact (proj1 (holder_throws_only_at_guard admitted h) eq_refl).
Defined.
